(** * jupyter-mcp-setup: a shallow embedding of the orchestration core

    The development follows the Python sources under
    [src/jupyter_mcp_setup/]:

    - [server_setup.py]: output scraping ([_extract_jupyter_details]),
      token validation and the bridge environment ([EnvironmentManager]),
      the client settings merge ([ClaudeConfigManager]), the discovery
      document, process start-up, monitoring and [cleanup];
    - [installer.py]: the provisioning fast path;
    - [cli.py]: the exit codes of [main].

    Python [str] values are modelled as [string] (8-bit characters; on
    these, the classes [\d] and [[a-f0-9]] are the ASCII ones), [int] as
    [N], dictionaries that are serialised as insertion-ordered association
    lists, the file system as a [gmap] from paths to contents, and
    exceptions as an explicit outcome type. *)

From Stdlib Require Import String Ascii List ZArith NArith Lia Bool.
From Stdlib Require Import DecimalString DecimalN DecimalFacts.
From stdpp Require Import gmap strings.

Open Scope string_scope.
Open Scope list_scope.

(** stdpp blocks the unfolding of string append; the proofs below compute
    with literal prefixes, so it is released again. *)
#[local] Arguments String.append !s1 s2 : simpl nomatch.

(* ===================================================================== *)
(** * Strings *)
(* ===================================================================== *)

Module Str.

Fixpoint all (p : ascii -> bool) (s : string) : bool :=
  match s with
  | EmptyString => true
  | String c s' => p c && all p s'
  end.

(** [head_in p s]: the string starts with a character of class [p]. *)
Definition head_in (p : ascii -> bool) (s : string) : bool :=
  match s with
  | EmptyString => false
  | String c _ => p c
  end.

Fixpoint drop (n : nat) (s : string) : string :=
  match n, s with
  | O, _ => s
  | S _, EmptyString => EmptyString
  | S m, String _ s' => drop m s'
  end.

(** The longest prefix of [s] inside the class [p], and what follows it. *)
Fixpoint take_while (p : ascii -> bool) (s : string) : string :=
  match s with
  | EmptyString => EmptyString
  | String c s' => if p c then String c (take_while p s') else EmptyString
  end.

Fixpoint drop_while (p : ascii -> bool) (s : string) : string :=
  match s with
  | EmptyString => EmptyString
  | String c s' => if p c then drop_while p s' else s
  end.

(** Positions (counted from [i]) at which [p] occurs in [s]. *)
Fixpoint find_all (p s : string) (i : nat) : list nat :=
  (if String.prefix p s then [i] else [])
    ++ match s with
       | EmptyString => []
       | String _ s' => find_all p s' (S i)
       end.

End Str.

(* ===================================================================== *)
(** * Regular expressions: the fragment of Python's [re] the code uses *)
(* ===================================================================== *)

(** The five patterns of [server_setup.py] are concatenations of literal
    characters, greedy [+] over a character class (inside a capturing
    group or not), and the anchors [^] and [$].  The matcher below is the
    backtracking one of [re]: a greedy [+] first takes the longest run and
    gives characters back one at a time; [re.search] returns the match at
    the leftmost position that has one. *)
Module Re.

Inductive item :=
| Chr (c : ascii)                               (* a literal character *)
| Plus (capture : bool) (cls : ascii -> bool)   (* [cls+] or [(cls+)] *)
| Bol                                           (* [^] *)
| Eol.                                          (* [$] *)

Definition regex := list item.

Fixpoint lits (s : string) : regex :=
  match s with
  | EmptyString => []
  | String c s' => Chr c :: lits s'
  end.

(** [\d] and [[a-f0-9]]. *)
Definition digit (c : ascii) : bool :=
  (Ascii.leb "0" c && Ascii.leb c "9")%char.
Definition lower_hex (c : ascii) : bool :=
  (Ascii.leb "a" c && Ascii.leb c "f")%char || digit c.

(** All ways to cut a non-empty run of [cls] off the front of [s],
    longest first. *)
Fixpoint splits (cls : ascii -> bool) (s : string) : list (string * string) :=
  match s with
  | EmptyString => []
  | String c s' =>
      if cls c
      then map (fun pr => (String c (fst pr), snd pr)) (splits cls s')
             ++ [(String c EmptyString, s')]
      else []
  end.

Fixpoint first_some {A B} (f : A -> option B) (l : list A) : option B :=
  match l with
  | [] => None
  | x :: l' => match f x with
               | Some y => Some y
               | None => first_some f l'
               end
  end.

(** [$] without [re.MULTILINE]: at the end of the string, or just before
    a newline that ends the string. *)
Definition at_eol (s : string) : bool :=
  match s with
  | EmptyString => true
  | String c EmptyString => Ascii.eqb c "010"
  | _ => false
  end.

(** Match [r] at the front of [s]; [bos] tells whether [s] is the whole
    subject (position 0).  The result lists the captured groups. *)
Fixpoint match_here (r : regex) (bos : bool) (s : string)
  : option (list string) :=
  match r with
  | [] => Some []
  | Chr c :: r' =>
      match s with
      | String d s' => if Ascii.eqb c d then match_here r' false s' else None
      | EmptyString => None
      end
  | Plus capture cls :: r' =>
      first_some
        (fun pr =>
           match match_here r' false (snd pr) with
           | Some caps => Some (if capture then fst pr :: caps else caps)
           | None => None
           end)
        (splits cls s)
  | Bol :: r' => if bos then match_here r' bos s else None
  | Eol :: r' => if at_eol s then match_here r' bos s else None
  end.

Fixpoint search_from (r : regex) (bos : bool) (s : string)
  : option (list string) :=
  match match_here r bos s with
  | Some caps => Some caps
  | None =>
      match s with
      | EmptyString => None
      | String _ s' => search_from r false s'
      end
  end.

(** [re.search(r, s)], [re.match(r, s)] and [m.group(k)]. *)
Definition search (r : regex) (s : string) := search_from r true s.
Definition rmatch (r : regex) (s : string) := match_here r true s.
Definition group (k : nat) (caps : list string) : string :=
  nth (pred k) caps EmptyString.

End Re.

(** [int(s)] on a string of ASCII digits, and [str(n)]. *)
Definition python_int (s : string) : N :=
  match NilEmpty.uint_of_string s with
  | Some d => N.of_uint d
  | None => 0%N
  end.

Definition python_str (n : N) : string :=
  NilEmpty.string_of_uint (N.to_uint n).

(* ===================================================================== *)
(** * The orchestrator object *)
(* ===================================================================== *)

(** The two supervised processes. *)
Inductive role := Jupyter | Mcp.

(** [JupyterMCPServerSetup]: the attributes the methods below read or
    write.  Paths are the resolved absolute paths, as strings;
    [validated_env] is the attribute of the embedded [EnvironmentManager];
    a process attribute is [None] until [Popen] has returned. *)
Record setup := mkSetup {
  custom_port : option Z;
  custom_token : option string;
  verbose : bool;
  cleanup_on_exit : bool;
  claude_config : bool;
  project_dir : string;
  notebook_path : string;
  mcp_config_path : string;
  validated_env : list (string * string);
  jupyter_process : option role;
  mcp_process : option role;
  jupyter_port : option N;
  jupyter_token : option string;
  jupyter_url : option string
}.

Definition set_details (self : setup) (port : N) (token url : string) : setup :=
  mkSetup (custom_port self) (custom_token self) (verbose self)
    (cleanup_on_exit self) (claude_config self) (project_dir self)
    (notebook_path self) (mcp_config_path self) (validated_env self)
    (jupyter_process self) (mcp_process self)
    (Some port) (Some token) (Some url).

Definition set_validated_env (self : setup) (env : list (string * string))
  : setup :=
  mkSetup (custom_port self) (custom_token self) (verbose self)
    (cleanup_on_exit self) (claude_config self) (project_dir self)
    (notebook_path self) (mcp_config_path self) env
    (jupyter_process self) (mcp_process self)
    (jupyter_port self) (jupyter_token self) (jupyter_url self).

Definition set_jupyter_process (self : setup) (p : option role) : setup :=
  mkSetup (custom_port self) (custom_token self) (verbose self)
    (cleanup_on_exit self) (claude_config self) (project_dir self)
    (notebook_path self) (mcp_config_path self) (validated_env self)
    p (mcp_process self)
    (jupyter_port self) (jupyter_token self) (jupyter_url self).

Definition set_mcp_process (self : setup) (p : option role) : setup :=
  mkSetup (custom_port self) (custom_token self) (verbose self)
    (cleanup_on_exit self) (claude_config self) (project_dir self)
    (notebook_path self) (mcp_config_path self) (validated_env self)
    (jupyter_process self) p
    (jupyter_port self) (jupyter_token self) (jupyter_url self).

(* ===================================================================== *)
(** * Output scraping: [_extract_jupyter_details] *)
(* ===================================================================== *)

(** The four patterns, in the order of the source:
<<
    r'http://localhost:(\d+)/lab\?token=([a-f0-9]+)',
    r'http://localhost:(\d+)/\?token=([a-f0-9]+)',
    r'http://127\.0\.0\.1:(\d+)/lab\?token=([a-f0-9]+)',
    r'http://127\.0\.0\.1:(\d+)/\?token=([a-f0-9]+)',
>> *)
Definition url_pattern (host path : string) : Re.regex :=
  Re.lits "http://" ++ Re.lits host ++ Re.lits ":"
    ++ Re.Plus true Re.digit
    :: Re.lits path ++ Re.lits "?token="
    ++ [Re.Plus true Re.lower_hex].

Definition patterns : list Re.regex :=
  [ url_pattern "localhost" "/lab";
    url_pattern "localhost" "/";
    url_pattern "127.0.0.1" "/lab";
    url_pattern "127.0.0.1" "/" ].

(** The [for pattern in patterns] loop.  A match whose port is not
    positive does not return: the loop goes on to the next pattern. *)
Fixpoint extract_loop (ps : list Re.regex) (line : string) (self : setup)
  : bool * setup :=
  match ps with
  | [] => (false, self)
  | pattern :: ps' =>
      match Re.search pattern line with
      | Some m =>
          let port := python_int (Re.group 1 m) in
          if (0 <? port)%N
          then (true,
                set_details self port (Re.group 2 m)
                  ("http://localhost:" +:+ python_str port))
          else extract_loop ps' line self
      | None => extract_loop ps' line self
      end
  end.

Definition _extract_jupyter_details (line : string) (self : setup)
  : bool * setup :=
  extract_loop patterns line self.

(** ** The URL shapes of the specification *)

Inductive loopback := Localhost | Ip127.

Definition host_str (h : loopback) : string :=
  match h with Localhost => "localhost" | Ip127 => "127.0.0.1" end.

(** With the ["/lab"] path segment, or without it. *)
Definition path_str (lab : bool) : string := if lab then "/lab" else "/".

Definition url_shape (h : loopback) (lab : bool) (port token : string)
  : string :=
  "http://" +:+ host_str h +:+ ":" +:+ port +:+ path_str lab
    +:+ "?token=" +:+ token.

Definition loopback_eqb (a b : loopback) : bool :=
  match a, b with
  | Localhost, Localhost | Ip127, Ip127 => true
  | _, _ => false
  end.


(* ===================================================================== *)
(** * JSON values and Python dictionaries *)
(* ===================================================================== *)

#[local] Set Warnings "-register-all".

(** What [json.load] returns and [json.dump] accepts. *)
Inductive json :=
| JNull
| JBool (b : bool)
| JNum (n : Z)
| JStr (s : string)
| JArr (items : list json)
| JObj (members : list (string * json)).

(** A [dict] with string keys keeps its keys in insertion order, and
    [json.dump] writes them in that order: an association list in which a
    key occurs once. *)
Module Dict.

Fixpoint mem {V} (k : string) (d : list (string * V)) : bool :=
  match d with
  | [] => false
  | (k', _) :: d' => String.eqb k k' || mem k d'
  end.

Fixpoint get {V} (k : string) (d : list (string * V)) : option V :=
  match d with
  | [] => None
  | (k', v) :: d' => if String.eqb k k' then Some v else get k d'
  end.

(** [d[k] = v]: an existing key keeps its place, a new one goes last. *)
Fixpoint set {V} (k : string) (v : V) (d : list (string * V))
  : list (string * V) :=
  match d with
  | [] => [(k, v)]
  | (k', v') :: d' =>
      if String.eqb k k' then (k', v) :: d' else (k', v') :: set k v d'
  end.

(** [d.update(other)]. *)
Definition update {V} (d other : list (string * V)) : list (string * V) :=
  fold_left (fun acc kv => set (fst kv) (snd kv) acc) other d.

End Dict.

(** [needle in haystack] for two strings. *)
Fixpoint substring_of (needle hay : string) : bool :=
  String.prefix needle hay
  || match hay with
     | EmptyString => false
     | String _ hay' => substring_of needle hay'
     end.

(** [s in v] for a string [s] and a JSON value [v]; [None] when Python
    raises [TypeError] (the value is not a container). *)
Definition py_contains (s : string) (v : json) : option bool :=
  match v with
  | JArr items =>
      Some (existsb (fun x => match x with
                              | JStr t => String.eqb s t
                              | _ => false
                              end) items)
  | JStr t => Some (substring_of s t)
  | JObj members => Some (Dict.mem s members)
  | JNull | JBool _ | JNum _ => None
  end.

(* ===================================================================== *)
(** * Exceptions and outcomes *)
(* ===================================================================== *)

(** Built-in exception classes that reach the code from library calls. *)
Inductive pyclass :=
| OSError | ValueError | TypeError | AttributeError | JSONDecodeError.

Inductive exn :=
| SetupError (msg : string)
| InstallationError (msg : string)
| ValidationError (msg : string)
| ServerSetupError (msg : string)
| TimeoutExpired
| Builtin (c : pyclass) (msg : string)
| KeyboardInterrupt
| SystemExit (code : Z).

(** [isinstance(e, Exception)]: [KeyboardInterrupt] and [SystemExit]
    derive from [BaseException] only. *)
Definition is_Exception (e : exn) : bool :=
  match e with
  | KeyboardInterrupt | SystemExit _ => false
  | _ => true
  end.

(** [isinstance(e, SetupError)]: the three phase errors derive from it. *)
Definition is_SetupError (e : exn) : bool :=
  match e with
  | SetupError _ | InstallationError _ | ValidationError _
  | ServerSetupError _ => true
  | _ => false
  end.

Definition is_ServerSetupError (e : exn) : bool :=
  match e with ServerSetupError _ => true | _ => false end.

Definition is_InstallationError (e : exn) : bool :=
  match e with InstallationError _ => true | _ => false end.

Definition is_ValidationError (e : exn) : bool :=
  match e with ValidationError _ => true | _ => false end.

Definition is_TimeoutExpired (e : exn) : bool :=
  match e with TimeoutExpired => true | _ => false end.

Definition is_JSONDecodeError (e : exn) : bool :=
  match e with Builtin JSONDecodeError _ => true | _ => false end.

Definition is_KeyboardInterrupt (e : exn) : bool :=
  match e with KeyboardInterrupt => true | _ => false end.

(** [str(e)]. *)
Definition exn_str (e : exn) : string :=
  match e with
  | SetupError m | InstallationError m | ValidationError m
  | ServerSetupError m | Builtin _ m => m
  | TimeoutExpired => "timed out"
  | KeyboardInterrupt => ""
  | SystemExit c => ""
  end.

(** How a call ends.  [Spin]: the call is still looping when the scripted
    behaviour of the environment ends (the monitoring loop has no exit of
    its own). *)
Inductive outcome (A : Type) :=
| Ret (a : A)
| Raise (e : exn)
| Spin.
Arguments Ret {A} a.
Arguments Raise {A} e.
Arguments Spin {A}.

(* ===================================================================== *)
(** * The world: files, processes and what is observable *)
(* ===================================================================== *)

(** A path names a directory, a file holding the serialisation of a JSON
    value, or a file with any other content (the empty file is [Raw ""]). *)
Inductive fnode :=
| Dir
| Doc (j : json)
| Raw (content : string).

Inductive pstate := NotStarted | Running | Exited (code : Z).

Inductive signum := SIGINT | SIGTERM.

Inductive level := Warning | Error.

(** What the program does to its environment, oldest first.  Of the log
    only warnings and errors are recorded. *)
Inductive event :=
| ESpawn (r : role) (cmd : list string) (env : option (list (string * string)))
| EPoll (r : role) (result : option Z)
| EReadline (line : string)
| ESleep (tenths : N)
| ETerminate (r : role)
| EWait (r : role) (timeout : N)
| EKill (r : role)
| EMkdir (path : string)
| EOpenW (path : string)
| EDump (path : string) (j : json)
| EUnlink (path : string)
| ERmtree (path : string)
| EVenvCreate (path : string)
| ERun (cmd : list string)
| ESignal (s : signum)
| ELog (l : level) (msg : string).

Record world := mkWorld {
  nodes : gmap string fnode;
  (** paths on which creating, writing and removing are refused, and for
      which [os.access(_, W_OK)] is false *)
  denied : gset string;
  (** paths that cannot be opened for reading *)
  unreadable : gset string;
  (** paths with execute permission *)
  exec : gset string;
  jupyter_state : pstate;
  mcp_state : pstate;
  trace : list event
}.

Definition set_nodes (w : world) (n : gmap string fnode) : world :=
  mkWorld n (denied w) (unreadable w) (exec w)
    (jupyter_state w) (mcp_state w) (trace w).

Definition set_exec (w : world) (x : gset string) : world :=
  mkWorld (nodes w) (denied w) (unreadable w) x
    (jupyter_state w) (mcp_state w) (trace w).

Definition state_of (r : role) (w : world) : pstate :=
  match r with Jupyter => jupyter_state w | Mcp => mcp_state w end.

Definition set_state (r : role) (s : pstate) (w : world) : world :=
  match r with
  | Jupyter => mkWorld (nodes w) (denied w) (unreadable w) (exec w)
                 s (mcp_state w) (trace w)
  | Mcp => mkWorld (nodes w) (denied w) (unreadable w) (exec w)
             (jupyter_state w) s (trace w)
  end.

Definition emit (e : event) (w : world) : world :=
  mkWorld (nodes w) (denied w) (unreadable w) (exec w)
    (jupyter_state w) (mcp_state w) (trace w ++ [e]).

(** ** What the environment will do *)

(** One iteration of the start-up loop of [start_jupyter_lab]. *)
Inductive startup_obs :=
| JExited (code : Z)         (* [poll()] reports that the server is gone *)
| JEof                       (* [readline()] returns [''] *)
| JLine (line : string)      (* [readline()] returns a line *)
| JReadError (c : pyclass)   (* [readline()] raises *)
| JSignal (s : signum).      (* a signal arrives while blocked in [readline()] *)

(** What happens while the controller sleeps. *)
Inductive interruption :=
| Quiet
| Signalled (s : signum)
| Interrupted.               (* [KeyboardInterrupt] is raised *)

(** One iteration of [monitor_processes]. *)
Record tick := mkTick {
  jupyter_poll : option Z;
  mcp_poll : option Z;
  during_sleep : interruption
}.

Inductive wait_result :=
| WaitExits (code : Z)
| WaitTimesOut
| WaitRaises (c : pyclass).

(** How a running process reacts to being stopped. *)
Record stopping := mkStopping {
  terminate_error : option pyclass;
  wait_outcome : wait_result;
  kill_error : option pyclass
}.

Inductive cmd_result :=
| Completed (returncode : Z)
| TimedOut
| CannotRun (c : pyclass)
| CmdInterrupted.            (* SIGINT while the command runs *)

Record environment := mkEnv {
  os_environ : list (string * string);
  sys_executable : string;
  cwd : string;                                (* [Path.cwd()] *)
  resolve : string -> string;                  (* [Path(p).resolve()] *)
  (** [utils.validate_notebook_path], which reads the notebook file *)
  notebook_validation : string -> outcome string;
  python_version : nat * nat;                  (* [sys.version_info[:2]] *)
  (** [urllib.parse.urlparse]: scheme and netloc, [None] if it raises *)
  urlparse : string -> option (string * string);
  popen_error : role -> option pyclass;
  jupyter_output : list startup_obs;
  mcp_delay : interruption;                    (* during [time.sleep(2)] *)
  mcp_after_delay : option Z;                  (* [poll()] after it *)
  monitoring : list tick;
  stop : role -> stopping;
  (** [subprocess.run(cmd, check=True)], which may depend on all that
      happened before *)
  command_result : list string -> world -> cmd_result;
  rmtree_error : option pyclass;
  venv_create_error : option pyclass;
  (** the validation phase of [cli.main], taken as a whole *)
  validation_phase : outcome bool
}.

(* ===================================================================== *)
(** * State and exceptions as a monad *)
(* ===================================================================== *)

Definition M (S A : Type) : Type := S -> outcome A * S.

Definition ret {S A} (a : A) : M S A := fun s => (Ret a, s).
Definition raise {S A} (e : exn) : M S A := fun s => (Raise e, s).
Definition spin {S A} : M S A := fun s => (Spin, s).

Definition bind {S A B} (m : M S A) (k : A -> M S B) : M S B :=
  fun s =>
    match m s with
    | (Ret a, s') => k a s'
    | (Raise e, s') => (Raise e, s')
    | (Spin, s') => (Spin, s')
    end.

Notation "x <- m ;; k" := (bind m (fun x => k))
  (at level 100, m at next level, right associativity).
Notation "m ;; k" := (bind m (fun _ => k))
  (at level 100, right associativity).

(** [try: m  except <classes selected by handler>: ...]. *)
Definition try_except {S A} (m : M S A) (handler : exn -> option (M S A))
  : M S A :=
  fun s =>
    match m s with
    | (Raise e, s') =>
        match handler e with
        | Some h => h s'
        | None => (Raise e, s')
        end
    | r => r
    end.

(** [try: m  finally: fin].  The [finally] block runs however [m] ended;
    what it raises replaces the outcome of [m]. *)
Definition try_finally {S A} (m : M S A) (fin : M S unit) : M S A :=
  fun s =>
    match m s with
    | (Spin, s') => (Spin, s')
    | (o, s') =>
        match fin s' with
        | (Ret _, s'') => (o, s'')
        | (Raise e, s'') => (Raise e, s'')
        | (Spin, s'') => (Spin, s'')
        end
    end.

(** [except Exception as e: h e]. *)
Definition on_Exception {S A} (h : exn -> M S A) (e : exn) : option (M S A) :=
  if is_Exception e then Some (h e) else None.

(** A computation on the world alone, run inside the orchestrator. *)
Definition lift {A} (m : M world A) : M (setup * world) A :=
  fun s =>
    match m (snd s) with
    | (o, w') => (o, (fst s, w'))
    end.

Definition get_self : M (setup * world) setup := fun s => (Ret (fst s), s).
Definition put_self (self : setup) : M (setup * world) unit :=
  fun s => (Ret tt, (self, snd s)).
Definition get_world : M world world := fun w => (Ret w, w).
Definition modify (f : world -> world) : M world unit :=
  fun w => (Ret tt, f w).

Definition log (l : level) (msg : string) : M world unit :=
  modify (emit (ELog l msg)).

(* ===================================================================== *)
(** * Paths, files and processes *)
(* ===================================================================== *)

(** [dir / name] on [pathlib.Path] (for a [dir] other than the root). *)
Definition path_join (dir name : string) : string := dir +:+ "/" +:+ name.

Fixpoint last_slash (s : string) (i : nat) (best : option nat) : option nat :=
  match s with
  | EmptyString => best
  | String c s' =>
      last_slash s' (S i) (if Ascii.eqb c "/" then Some i else best)
  end.

(** [path.parent]. *)
Definition parent (p : string) : string :=
  match last_slash p 0 None with
  | Some O => "/"
  | Some i => String.substring 0 i p
  | None => "."
  end.

(** [path.relative_to(base)]; [None] when it raises [ValueError]. *)
Definition relative_to (p base : string) : option string :=
  if String.eqb p base then Some "."
  else if String.prefix (base +:+ "/") p
       then Some (Str.drop (String.length base + 1) p)
       else None.

Definition python_str_Z (z : Z) : string :=
  NilEmpty.string_of_int (Z.to_int z).

Definition path_exists (p : string) (w : world) : bool :=
  match nodes w !! p with Some _ => true | None => false end.

(** [os.access(p, os.W_OK)]. *)
Definition access_w (p : string) (w : world) : bool :=
  path_exists p w && negb (bool_decide (p ∈ denied w)).

(** [utils.ensure_directory]: [mkdir(parents=True, exist_ok=True)], an
    [OSError] becoming a [SetupError].  Only the directory itself is
    recorded, not the parents created on the way. *)
Definition ensure_directory (p : string) : M world unit :=
  fun w =>
    let w1 := emit (EMkdir p) w in
    match nodes w !! p with
    | Some Dir => (Ret tt, w1)
    | Some _ => (Raise (SetupError ("Cannot create directory " +:+ p)), w1)
    | None =>
        if bool_decide (p ∈ denied w)
        then (Raise (SetupError ("Cannot create directory " +:+ p)), w1)
        else (Ret tt, set_nodes w1 (<[p := Dir]> (nodes w1)))
    end.

(** [open(p, 'w')]: the file is created or truncated at once. *)
Definition open_w (p : string) : M world unit :=
  fun w =>
    let w1 := emit (EOpenW p) w in
    if bool_decide (p ∈ denied w)
    then (Raise (Builtin OSError ("Permission denied: " +:+ p)), w1)
    else match nodes w !! p with
         | Some Dir => (Raise (Builtin OSError ("Is a directory: " +:+ p)), w1)
         | _ => (Ret tt, set_nodes w1 (<[p := Raw ""]> (nodes w1)))
         end.

(** [json.dump(j, f, indent=2)] into the file opened at [p], and the
    close that ends the [with] block. *)
Definition json_dump (p : string) (j : json) : M world unit :=
  fun w =>
    let w1 := emit (EDump p j) w in
    (Ret tt, set_nodes w1 (<[p := Doc j]> (nodes w1))).

(** [with open(p, 'r') as f: json.load(f)]. *)
Definition json_load (p : string) : M world json :=
  fun w =>
    if bool_decide (p ∈ unreadable w)
    then (Raise (Builtin OSError ("Permission denied: " +:+ p)), w)
    else match nodes w !! p with
         | Some (Doc j) => (Ret j, w)
         | Some (Raw _) => (Raise (Builtin JSONDecodeError "Expecting value"), w)
         | Some Dir => (Raise (Builtin OSError ("Is a directory: " +:+ p)), w)
         | None => (Raise (Builtin OSError ("No such file: " +:+ p)), w)
         end.

(** [p.unlink()]. *)
Definition unlink (p : string) : M world unit :=
  fun w =>
    let w1 := emit (EUnlink p) w in
    if bool_decide (p ∈ denied w)
    then (Raise (Builtin OSError ("Permission denied: " +:+ p)), w1)
    else match nodes w !! p with
         | Some _ => (Ret tt, set_nodes w1 (delete p (nodes w1)))
         | None => (Raise (Builtin OSError ("No such file: " +:+ p)), w1)
         end.

Definition sleep (tenths : N) : M world unit := modify (emit (ESleep tenths)).

(** [utils.get_virtual_env_path] and [utils.get_virtual_env_python]. *)
Definition get_virtual_env_path (project : string) : string :=
  path_join project "jupyter-mcp-env".

Definition venv_python_path (project : string) : string :=
  path_join (path_join (get_virtual_env_path project) "bin") "python".

Definition check_file_permissions_x (p : string) (w : world) : bool :=
  path_exists p w && bool_decide (p ∈ exec w).

Definition get_virtual_env_python (project : string) : M world string :=
  fun w =>
    let python_path := venv_python_path project in
    if negb (path_exists python_path w)
    then (Raise (SetupError
                   ("Virtual environment Python not found: " +:+ python_path)), w)
    else if negb (check_file_permissions_x python_path w)
    then (Raise (SetupError
                   ("Virtual environment Python not executable: "
                      +:+ python_path)), w)
    else (Ret python_path, w).

(** [utils.validate_project_structure]. *)
Definition validate_project_structure (project : string) (w : world) : bool :=
  path_exists (venv_python_path project) w
  && path_exists
       (path_join (path_join (get_virtual_env_path project) "bin") "activate") w.

Section Model.

Variable E : environment.

(** ** [subprocess.Popen] objects *)

(** [Popen(cmd, env=env)]; the event is recorded once the process runs. *)
Definition popen (r : role) (cmd : list string)
  (env : option (list (string * string))) : M world unit :=
  fun w =>
    match popen_error E r with
    | Some c => (Raise (Builtin c "Popen failed"), w)
    | None => (Ret tt, set_state r Running (emit (ESpawn r cmd env) w))
    end.

(** [p.poll()]; [answer] is what the environment reports for a process
    that was running at the previous look. *)
Definition poll (r : role) (answer : option Z) : M world (option Z) :=
  fun w =>
    let result :=
      match state_of r w with
      | Exited c => Some c
      | Running => answer
      | NotStarted => None
      end in
    let w1 := emit (EPoll r result) w in
    match result with
    | Some c => (Ret result, set_state r (Exited c) w1)
    | None => (Ret result, w1)
    end.

(** [p.terminate()], [p.wait(timeout=t)] and [p.kill()]: on a process
    that has exited the first and the last do nothing and [wait] returns
    at once. *)
Definition terminate (r : role) : M world unit :=
  fun w =>
    let w1 := emit (ETerminate r) w in
    match state_of r w, terminate_error (stop E r) with
    | Running, Some c => (Raise (Builtin c "terminate failed"), w1)
    | _, _ => (Ret tt, w1)
    end.

Definition wait (r : role) (timeout : N) : M world unit :=
  fun w =>
    let w1 := emit (EWait r timeout) w in
    match state_of r w with
    | Running =>
        match wait_outcome (stop E r) with
        | WaitExits c => (Ret tt, set_state r (Exited c) w1)
        | WaitTimesOut => (Raise TimeoutExpired, w1)
        | WaitRaises c => (Raise (Builtin c "wait failed"), w1)
        end
    | _ => (Ret tt, w1)
    end.

Definition kill (r : role) : M world unit :=
  fun w =>
    let w1 := emit (EKill r) w in
    match state_of r w, kill_error (stop E r) with
    | Running, Some c => (Raise (Builtin c "kill failed"), w1)
    | Running, None => (Ret tt, set_state r (Exited (-9)) w1)
    | _, _ => (Ret tt, w1)
    end.

(** [subprocess.run(cmd, check=True, timeout=...)] through
    [utils.run_command]: a failing or timed-out command becomes a
    [SetupError]. *)
Definition run_command (cmd : list string) : M world Z :=
  fun w =>
    let w1 := emit (ERun cmd) w in
    match command_result E cmd w with
    | Completed 0 => (Ret 0%Z, w1)
    | Completed _ => (Raise (SetupError "Command failed"), w1)
    | TimedOut => (Raise (SetupError "Command timed out"), w1)
    | CannotRun c => (Raise (Builtin c "cannot run"), w1)
    | CmdInterrupted => (Raise KeyboardInterrupt, w1)
    end.

(* ===================================================================== *)
(** * [EnvironmentManager] *)
(* ===================================================================== *)

(** [validate_url]: [all([result.scheme, result.netloc])]. *)
Definition validate_url (url name : string) : M world bool :=
  match urlparse E url with
  | Some (scheme, netloc) =>
      if negb (String.eqb scheme "") && negb (String.eqb netloc "")
      then ret true
      else log Error (name +:+ " validation failed: Invalid " +:+ name
                        +:+ " format: " +:+ url) ;;
           ret false
  | None => log Error (name +:+ " validation failed") ;; ret false
  end.

(** [r'^[a-f0-9]+$'] *)
Definition token_pattern : Re.regex :=
  [Re.Bol; Re.Plus false Re.lower_hex; Re.Eol].

Definition validate_token (token name : string) : M world bool :=
  if String.eqb token "" || Nat.ltb (String.length token) 8
  then log Error ("Invalid " +:+ name +:+ ": too short (minimum 8 characters)") ;;
       ret false
  else match Re.rmatch token_pattern token with
       | None => log Error ("Invalid " +:+ name +:+ ": must be hexadecimal") ;;
                 ret false
       | Some _ => ret true
       end.

Definition env_vars_of (jupyter_url jupyter_token notebook : string)
  : list (string * string) :=
  [ ("TRANSPORT", "stdio");
    ("PROVIDER", "jupyter");
    ("DOCUMENT_URL", jupyter_url);
    ("DOCUMENT_TOKEN", jupyter_token);
    ("DOCUMENT_ID", notebook);
    ("RUNTIME_URL", jupyter_url);
    ("RUNTIME_TOKEN", jupyter_token);
    ("START_NEW_RUNTIME", "true") ].

(** The loop [for key, value in env_vars.items(): if not value: raise]. *)
Fixpoint check_not_empty (env : list (string * string)) : M world unit :=
  match env with
  | [] => ret tt
  | (key, value) :: env' =>
      if String.eqb value ""
      then raise (Builtin ValueError ("Empty environment variable: " +:+ key))
      else check_not_empty env'
  end.

Definition create_jupyter_environment (jupyter_url jupyter_token notebook : string)
  : M (setup * world) (list (string * string)) :=
  try_except
    (ok_url <- lift (validate_url jupyter_url "Jupyter URL") ;;
     if negb ok_url
     then raise (Builtin ValueError ("Invalid Jupyter URL: " +:+ jupyter_url))
     else
       ok_token <- lift (validate_token jupyter_token "Jupyter token") ;;
       if negb ok_token
       then raise (Builtin ValueError "Invalid Jupyter token format")
       else
         let env_vars := env_vars_of jupyter_url jupyter_token notebook in
         lift (check_not_empty env_vars) ;;
         self <- get_self ;;
         put_self (set_validated_env self env_vars) ;;
         ret env_vars)
    (on_Exception
       (fun e =>
          lift (log Error ("Failed to create Jupyter environment: " +:+ exn_str e)) ;;
          raise (ServerSetupError
                   ("Failed to create Jupyter environment: " +:+ exn_str e)))).

(** [merge_with_system_env]. *)
Definition merge_with_system_env (custom_env : list (string * string))
  : list (string * string) :=
  Dict.update (os_environ E) custom_env.

(* ===================================================================== *)
(** * [PathManager] and [ClaudeConfigManager] *)
(* ===================================================================== *)

Definition get_relative_path_for_document_id (self : setup) : string :=
  match relative_to (notebook_path self) (project_dir self) with
  | Some rel => rel
  | None => notebook_path self
  end.

Definition get_claude_config_path (project : string) : string :=
  path_join (path_join project ".claude") "settings.local.json".

Definition ensure_claude_directory (project : string) : M world bool :=
  let claude_dir := path_join project ".claude" in
  try_except
    (ensure_directory claude_dir ;;
     w <- get_world ;;
     if negb (access_w claude_dir w)
     then raise (Builtin OSError
                   ("No write permission for Claude directory: " +:+ claude_dir))
     else ret true)
    (on_Exception
       (fun e =>
          log Error ("Failed to create Claude directory: " +:+ exn_str e) ;;
          ret false)).

Definition load_existing_claude_settings (project : string) : M world json :=
  let claude_config_path := get_claude_config_path project in
  w <- get_world ;;
  if negb (path_exists claude_config_path w)
  then ret (JObj [])
  else
    try_except (json_load claude_config_path)
      (fun e =>
         if is_JSONDecodeError e
         then Some (log Warning
                      ("Invalid JSON in Claude settings, starting fresh: "
                         +:+ exn_str e) ;;
                    ret (JObj []))
         else on_Exception
                (fun e =>
                   log Error ("Error loading Claude settings: " +:+ exn_str e) ;;
                   ret (JObj [])) e).

(** [update_enabled_mcp_servers].  The argument is whatever [json.load]
    returned; subscripting anything but a [dict] with the key raises
    [TypeError], and [append] exists on lists only. *)
Definition update_enabled_mcp_servers (server_name : string)
  (existing_settings : json) : outcome json :=
  match existing_settings with
  | JObj members =>
      let members1 :=
        if negb (Dict.mem "enabledMcpjsonServers" members)
        then Dict.set "enabledMcpjsonServers" (JArr []) members
        else members in
      match Dict.get "enabledMcpjsonServers" members1 with
      | None => Raise (Builtin TypeError "KeyError")
      | Some enabled =>
          match py_contains server_name enabled with
          | None => Raise (Builtin TypeError "argument is not iterable")
          | Some true => Ret (JObj members1)
          | Some false =>
              match enabled with
              | JArr items =>
                  Ret (JObj (Dict.set "enabledMcpjsonServers"
                               (JArr (items ++ [JStr server_name])) members1))
              | _ => Raise (Builtin AttributeError "no attribute 'append'")
              end
          end
      end
  | _ => Raise (Builtin TypeError "indices must be integers")
  end.

Definition generate_claude_settings (project server_name : string)
  : M world bool :=
  try_except
    (ok <- ensure_claude_directory project ;;
     if negb ok then ret false
     else
       settings <- load_existing_claude_settings project ;;
       settings' <- (fun w => (update_enabled_mcp_servers server_name settings, w)) ;;
       let claude_config_path := get_claude_config_path project in
       open_w claude_config_path ;;
       json_dump claude_config_path settings' ;;
       ret true)
    (on_Exception
       (fun e =>
          log Error ("Failed to generate Claude settings: " +:+ exn_str e) ;;
          ret false)).

(* ===================================================================== *)
(** * [JupyterMCPServerSetup] *)
(* ===================================================================== *)

(** ** [cleanup] and the signal handler *)

(** One of the two [try] blocks of [cleanup]:
<<
    try:        p.terminate(); p.wait(timeout=t)
    except subprocess.TimeoutExpired:   p.kill()
    except Exception as e:              logger.error(...)
>>
    What the [except TimeoutExpired] body raises is not caught by the
    clause next to it. *)
Definition stop_process (r : role) (timeout : N) (name : string)
  : M world unit :=
  try_except (terminate r ;; wait r timeout)
    (fun e =>
       if is_TimeoutExpired e then Some (kill r)
       else on_Exception
              (fun e => log Error ("Error stopping " +:+ name +:+ ": "
                                     +:+ exn_str e)) e).

Definition remove_config (path : string) : M world unit :=
  try_except
    (w <- get_world ;;
     if path_exists path w then unlink path else ret tt)
    (on_Exception
       (fun e => log Error ("Error cleaning up configuration files: "
                              +:+ exn_str e))).

Definition cleanup : M (setup * world) unit :=
  self <- get_self ;;
  (match mcp_process self with
   | Some r => lift (stop_process r 5 "MCP server")
   | None => ret tt
   end) ;;
  (match jupyter_process self with
   | Some r => lift (stop_process r 10 "Jupyter Lab")
   | None => ret tt
   end) ;;
  if cleanup_on_exit self
  then lift (remove_config (mcp_config_path self))
  else ret tt.

(** [_signal_handler], the handler of both [SIGINT] and [SIGTERM]. *)
Definition _signal_handler (signum : signum) : M (setup * world) unit :=
  cleanup ;; raise (SystemExit 0).

(** A signal that arrives once [__init__] has installed the handler. *)
Definition deliver (s : signum) : M (setup * world) unit :=
  lift (modify (emit (ESignal s))) ;; _signal_handler s.

(** [time.sleep(t)] and what arrives during it. *)
Definition delay (i : interruption) (tenths : N) : M (setup * world) unit :=
  lift (sleep tenths) ;;
  match i with
  | Quiet => ret tt
  | Signalled s => deliver s
  | Interrupted => raise KeyboardInterrupt
  end.

(** ** [start_jupyter_lab] *)

Definition truthy_port (p : option Z) : bool :=
  match p with Some z => negb (z =? 0)%Z | None => false end.

Definition truthy_str (s : option string) : bool :=
  match s with Some t => negb (String.eqb t "") | None => false end.

Definition jupyter_cmd (self : setup) (venv_python : string) : list string :=
  [venv_python; "-m"; "jupyter"; "lab"]
    ++ (if truthy_port (custom_port self)
        then ["--port"; python_str_Z (default 0%Z (custom_port self))]
        else ["--port"; "0"])
    ++ (if truthy_str (custom_token self)
        then ["--IdentityProvider.token"; default "" (custom_token self)]
        else [])
    ++ ["--no-browser"; "--allow-root";
        "--notebook-dir=" +:+ parent (notebook_path self)].

Inductive loop_step := Found | Again.

(** The body of the inner [try] of one iteration. *)
Definition read_step (o : startup_obs) : M (setup * world) loop_step :=
  match o with
  | JLine line =>
      lift (modify (emit (EReadline line))) ;;
      self <- get_self ;;
      let r := _extract_jupyter_details line self in
      put_self (snd r) ;;
      if fst r then ret Found else ret Again
  | JEof =>
      lift (modify (emit (EReadline ""))) ;; lift (sleep 1) ;; ret Again
  | JReadError c => raise (Builtin c "readline failed")
  | JSignal s => deliver s ;; ret Again
  | JExited _ => ret Again
  end.

(** The [while time.time() - start_time < startup_timeout] loop: one
    observation per iteration, and the deadline when they are used up. *)
Fixpoint startup_loop (obs : list startup_obs) : M (setup * world) bool :=
  match obs with
  | [] => raise (ServerSetupError "Timeout waiting for Jupyter Lab to start")
  | o :: rest =>
      p <- lift (poll Jupyter
                   (match o with JExited c => Some c | _ => None end)) ;;
      match p with
      | Some _ =>
          raise (ServerSetupError "Jupyter Lab process exited unexpectedly")
      | None =>
          step <- try_except (read_step o)
                    (on_Exception (fun e => lift (sleep 1) ;; ret Again)) ;;
          match step with
          | Found => ret true
          | Again => startup_loop rest
          end
      end
  end.

Definition reraise_as_setup_error (prefix : string) (e : exn)
  : option (M (setup * world) bool) :=
  on_Exception
    (fun e =>
       if is_ServerSetupError e then raise e
       else raise (ServerSetupError (prefix +:+ exn_str e))) e.

Definition start_jupyter_lab : M (setup * world) bool :=
  self <- get_self ;;
  venv_python <-
    try_except (lift (get_virtual_env_python (project_dir self)))
      (on_Exception
         (fun e => raise (ServerSetupError
                            ("Virtual environment not found: " +:+ exn_str e)))) ;;
  try_except
    (lift (popen Jupyter (jupyter_cmd self venv_python) None) ;;
     put_self (set_jupyter_process self (Some Jupyter)) ;;
     startup_loop (jupyter_output E))
    (reraise_as_setup_error "Failed to start Jupyter Lab: ").

(** ** [start_mcp_server] *)

(** [not self.jupyter_port or not self.jupyter_token]. *)
Definition details_missing (self : setup) : bool :=
  negb (match jupyter_port self with Some p => (0 <? p)%N | None => false end)
  || negb (truthy_str (jupyter_token self)).

Definition mcp_cmd (venv_python : string) : list string :=
  [venv_python; "-m"; "jupyter_mcp_server"].

Definition start_mcp_server : M (setup * world) bool :=
  self <- get_self ;;
  if details_missing self
  then raise (ServerSetupError
                "Cannot start MCP server: Jupyter details not available")
  else
    env <-
      try_except
        (let document_id := get_relative_path_for_document_id self in
         jupyter_env <-
           create_jupyter_environment (default "" (jupyter_url self))
             (default "" (jupyter_token self)) document_id ;;
         ret (merge_with_system_env jupyter_env))
        (on_Exception
           (fun e => raise (ServerSetupError
                              ("Failed to create MCP environment: "
                                 +:+ exn_str e)))) ;;
    try_except
      (venv_python <- lift (get_virtual_env_python (project_dir self)) ;;
       lift (popen Mcp (mcp_cmd venv_python) (Some env)) ;;
       self1 <- get_self ;;
       put_self (set_mcp_process self1 (Some Mcp)) ;;
       delay (mcp_delay E) 20 ;;
       p <- lift (poll Mcp (mcp_after_delay E)) ;;
       match p with
       | None => ret true
       | Some _ => raise (ServerSetupError "MCP server process exited immediately")
       end)
      (reraise_as_setup_error "Failed to start MCP server: ").

(** ** [generate_configurations] *)

Definition mcp_config (command : string) (args : list string)
  (env_vars : list (string * string)) : json :=
  JObj [("mcpServers",
         JObj [("jupyter",
                JObj [("command", JStr command);
                      ("args", JArr (map JStr args));
                      ("env", JObj (map (fun kv => (fst kv, JStr (snd kv)))
                                      env_vars))])])].

Definition _generate_mcp_config : M (setup * world) unit :=
  self <- get_self ;;
  let document_id := get_relative_path_for_document_id self in
  env_vars <-
    create_jupyter_environment (default "" (jupyter_url self))
      (default "" (jupyter_token self)) document_id ;;
  let config :=
    mcp_config (sys_executable E) ["-m"; "jupyter_mcp_server"] env_vars in
  lift (open_w (mcp_config_path self) ;;
        json_dump (mcp_config_path self) config).

Definition generate_configurations : M (setup * world) bool :=
  self <- get_self ;;
  if details_missing self
  then raise (ServerSetupError
                "Cannot generate configurations: Jupyter details not available")
  else
    try_except
      (_generate_mcp_config ;;
       (if claude_config self
        then
          claude_success <-
            lift (generate_claude_settings (project_dir self) "jupyter") ;;
          if claude_success then ret tt
          else lift (log Warning
                       "Claude configuration generation failed, but continuing...")
        else ret tt) ;;
       ret true)
      (on_Exception
         (fun e => raise (ServerSetupError
                            ("Failed to generate configurations: "
                               +:+ exn_str e)))).

(** ** [monitor_processes] *)

Definition check_alive (p : option role) (answer : option Z) (msg : string)
  : M (setup * world) unit :=
  match p with
  | Some r =>
      code <- lift (poll r answer) ;;
      match code with
      | Some _ => raise (ServerSetupError msg)
      | None => ret tt
      end
  | None => ret tt
  end.

(** The [while True] loop, one [tick] per iteration; it has no exit of
    its own. *)
Fixpoint monitor_loop (ticks : list tick) : M (setup * world) bool :=
  match ticks with
  | [] => spin
  | t :: rest =>
      self <- get_self ;;
      check_alive (jupyter_process self) (jupyter_poll t)
        "Jupyter Lab process has stopped unexpectedly" ;;
      check_alive (mcp_process self) (mcp_poll t)
        "MCP server process has stopped unexpectedly" ;;
      delay (during_sleep t) 10 ;;
      monitor_loop rest
  end.

Definition monitor_processes : M (setup * world) bool :=
  try_except (monitor_loop (monitoring E))
    (fun e => if is_KeyboardInterrupt e then Some (ret true) else None).

(** ** [run] *)

Definition run_steps : M (setup * world) bool :=
  ok1 <- start_jupyter_lab ;;
  if negb ok1 then ret false
  else
    ok2 <- start_mcp_server ;;
    if negb ok2 then ret false
    else
      ok3 <- generate_configurations ;;
      if negb ok3 then ret false
      else monitor_processes.

Definition run : M (setup * world) bool :=
  try_finally
    (try_except run_steps
       (on_Exception
          (fun e =>
             lift (log Error (if is_ServerSetupError e then exn_str e
                              else "Unexpected error: " +:+ exn_str e)) ;;
             ret false)))
    cleanup.

(** ** [__init__] and [setup_jupyter_mcp_server] *)

(** The keyword arguments that reach [__init__]. *)
Record kwargs := mkKwargs {
  kw_port : option Z;
  kw_token : option string;
  kw_output_dir : string;
  kw_verbose : bool;
  kw_cleanup : bool;
  kw_claude_config : bool
}.

(** [PathManager.resolve_configuration_paths]; of the two paths it
    returns only the one of [.mcp.json] is used. *)
Definition resolve_configuration_paths (output_dir : string) : M world string :=
  try_except
    (let output_path := resolve E output_dir in
     ensure_directory output_path ;;
     w <- get_world ;;
     if negb (access_w output_path w)
     then raise (Builtin OSError
                   ("No write permission for output directory: " +:+ output_path))
     else ret (path_join output_path ".mcp.json"))
    (on_Exception
       (fun e =>
          log Error ("Failed to resolve configuration paths: " +:+ exn_str e) ;;
          raise (ServerSetupError
                   ("Failed to resolve configuration paths: " +:+ exn_str e)))).

(** [JupyterMCPServerSetup.__init__]; its last statements install
    [_signal_handler] for [SIGINT] and [SIGTERM]. *)
Definition init (notebook : string) (kw : kwargs) : M world setup :=
  try_except
    (nb <- (fun w => (notebook_validation E notebook, w)) ;;
     mcp_path <- resolve_configuration_paths (kw_output_dir kw) ;;
     ret (mkSetup (kw_port kw) (kw_token kw) (kw_verbose kw) (kw_cleanup kw)
            (kw_claude_config kw) (cwd E) nb mcp_path
            [] None None None None None))
    (on_Exception
       (fun e =>
          log Error ("Path validation failed: " +:+ exn_str e) ;;
          raise (ServerSetupError ("Path validation failed: " +:+ exn_str e)))).

Definition setup_jupyter_mcp_server (notebook : string) (kw : kwargs)
  : M world bool :=
  fun w =>
    match init notebook kw w with
    | (Ret self, w1) =>
        match run (self, w1) with
        | (o, s) => (o, snd s)
        end
    | (Raise e, w1) => (Raise e, w1)
    | (Spin, w1) => (Spin, w1)
    end.

(* ===================================================================== *)
(** * [JupyterMCPInstaller] *)
(* ===================================================================== *)

(** [sys.version_info >= min_version]. *)
Definition check_python_version (min_version : nat * nat) : bool :=
  let (major, minor) := python_version E in
  Nat.ltb (fst min_version) major
  || (Nat.eqb major (fst min_version) && Nat.leb (snd min_version) minor).

Definition check_prerequisites : M world bool :=
  if negb (check_python_version (3, 10))
  then raise (InstallationError "Python version is too old (requires >= 3.10)")
  else ret true.

Definition smoke_import_cmd (python : string) : list string :=
  [python; "-c"; "import jupyter_mcp_server; print('OK')"].

Definition check_existing_installation (project : string) : M world bool :=
  w <- get_world ;;
  if negb (path_exists (get_virtual_env_path project) w)
  then ret false
  else
    valid <-
      (if validate_project_structure project w
       then
         try_except
           (python_path <- get_virtual_env_python project ;;
            returncode <- run_command (smoke_import_cmd python_path) ;;
            ret (returncode =? 0)%Z)
           (on_Exception
              (fun e =>
                 log Warning ("Existing installation validation failed: "
                                +:+ exn_str e) ;;
                 ret false))
       else ret false) ;;
    if valid then ret true
    else log Warning "Existing installation appears invalid" ;; ret false.

(** [p] itself or a path below it. *)
Definition under (p q : string) : bool :=
  String.eqb q p || String.prefix (p +:+ "/") q.

(** [shutil.rmtree(p)]. *)
Definition rmtree (p : string) : M world unit :=
  fun w =>
    let w1 := emit (ERmtree p) w in
    match rmtree_error E with
    | Some c => (Raise (Builtin c "rmtree failed"), w1)
    | None =>
        (Ret tt,
         set_nodes w1 (filter (fun kv => under p (fst kv) = false) (nodes w1)))
    end.

(** [venv.create(p, with_pip=True)]: of what it creates, the paths the
    code looks at later. *)
Definition venv_create (p : string) : M world unit :=
  fun w =>
    let w1 := emit (EVenvCreate p) w in
    match venv_create_error E with
    | Some c => (Raise (Builtin c "venv.create failed"), w1)
    | None =>
        let bin := path_join p "bin" in
        let python := path_join bin "python" in
        let activate := path_join bin "activate" in
        (Ret tt,
         set_exec
           (set_nodes w1
              (<[activate := Raw ""]>
                 (<[python := Raw ""]>
                    (<[bin := Dir]> (<[p := Dir]> (nodes w1))))))
           ({[python]} ∪ exec w1))
    end.

Definition as_installation_error (prefix : string) (e : exn)
  : option (M world unit) :=
  on_Exception (fun e => raise (InstallationError (prefix +:+ exn_str e))) e.

Definition create_virtual_environment (project : string) : M world unit :=
  let venv_dir := get_virtual_env_path project in
  try_except
    (w <- get_world ;;
     (if path_exists venv_dir w then rmtree venv_dir else ret tt) ;;
     venv_create venv_dir)
    (as_installation_error "Failed to create virtual environment: ").

Definition upgrade_pip (project : string) : M world unit :=
  try_except
    (python_path <- get_virtual_env_python project ;;
     run_command [python_path; "-m"; "pip"; "install"; "--upgrade"; "pip"] ;;
     ret tt)
    (as_installation_error "Failed to upgrade pip: ").

Definition dependencies : list string :=
  [ "jupyter-kernel-client>=0.7.3";
    "jupyter-nbmodel-client>=0.13.5";
    "mcp[cli]>=1.10.1";
    "pydantic";
    "uvicorn";
    "click";
    "fastapi";
    "ipykernel";
    "jupyter_server>=1.6,<3";
    "jupyterlab==4.4.1";
    "jupyter-collaboration==4.0.2";
    "datalayer_pycrdt==0.12.17";
    "jupyter_mcp_server";
    "psutil>=5.0.0" ].

Fixpoint install_each (python_path : string) (deps : list string)
  : M world unit :=
  match deps with
  | [] => ret tt
  | dep :: deps' =>
      run_command [python_path; "-m"; "pip"; "install"; dep] ;;
      install_each python_path deps'
  end.

Definition install_dependencies (project : string) : M world unit :=
  try_except
    (python_path <- get_virtual_env_python project ;;
     install_each python_path dependencies)
    (as_installation_error "Failed to install dependencies: ").

Definition validate_installation (project : string) : M world unit :=
  try_except
    (python_path <- get_virtual_env_python project ;;
     run_command [python_path; "-c";
                  "import jupyter_mcp_server; print('Package import: OK')"] ;;
     run_command [python_path; "-m"; "jupyter_mcp_server"; "--help"] ;;
     ret tt)
    (as_installation_error "Installation validation failed: ").

Definition install (project : string) (force_reinstall : bool) : M world bool :=
  try_except
    (check_prerequisites ;;
     existing <-
       (if force_reinstall then ret false
        else check_existing_installation project) ;;
     if existing then ret true
     else
       create_virtual_environment project ;;
       upgrade_pip project ;;
       install_dependencies project ;;
       validate_installation project ;;
       ret true)
    (fun e =>
       if is_InstallationError e then Some (raise e)
       else on_Exception
              (fun e => raise (InstallationError
                                 ("Unexpected installation error: "
                                    +:+ exn_str e))) e).

(* ===================================================================== *)
(** * [cli.main] *)
(* ===================================================================== *)

Record cli_args := mkArgs {
  arg_notebook : string;
  arg_port : option Z;
  arg_token : option string;
  arg_output_dir : string;
  arg_verbose : bool;
  arg_no_cleanup : bool;
  arg_claude_config : bool;
  arg_force_reinstall : bool;
  arg_skip_validation : bool
}.

Definition run_installation_phase (force_reinstall : bool) : M world unit :=
  try_except
    (success <- install (cwd E) force_reinstall ;;
     if success then ret tt
     else raise (InstallationError "Installation phase failed"))
    (fun e =>
       if is_InstallationError e then Some (raise e)
       else on_Exception
              (fun e => raise (InstallationError
                                 ("Installation phase error: " +:+ exn_str e))) e).

Definition run_validation_phase : M world unit :=
  try_except
    (success <- (fun w => (validation_phase E, w)) ;;
     if success then ret tt
     else raise (ValidationError "Validation phase failed"))
    (fun e =>
       if is_ValidationError e then Some (raise e)
       else on_Exception
              (fun e => raise (ValidationError
                                 ("Validation phase error: " +:+ exn_str e))) e).

Definition run_server_setup_phase (a : cli_args) : M world unit :=
  try_except
    (success <-
       setup_jupyter_mcp_server (arg_notebook a)
         (mkKwargs (arg_port a) (arg_token a) (arg_output_dir a)
            (arg_verbose a) (negb (arg_no_cleanup a)) (arg_claude_config a)) ;;
     if success then ret tt
     else raise (ServerSetupError "Server setup phase failed"))
    (fun e =>
       if is_ServerSetupError e then Some (raise e)
       else on_Exception
              (fun e => raise (ServerSetupError
                                 ("Server setup phase error: " +:+ exn_str e))) e).

Definition phases (a : cli_args) : M world unit :=
  run_installation_phase (arg_force_reinstall a) ;;
  (if arg_skip_validation a then ret tt else run_validation_phase) ;;
  run_server_setup_phase a.

(** How the process ends. *)
Inductive termination :=
| ExitCode (code : Z)
| StillRunning.

(** The [try] of [main] with its [except] clauses in order; an exception
    none of them names ends the interpreter: [SystemExit] with its code. *)
Definition main (a : cli_args) (w : world) : termination * world :=
  match phases a w with
  | (Ret _, w') => (ExitCode 0, w')
  | (Spin, w') => (StillRunning, w')
  | (Raise e, w') =>
      if is_InstallationError e || is_ValidationError e || is_ServerSetupError e
      then (ExitCode 1, emit (ELog Error (exn_str e)) w')
      else if is_SetupError e
      then (ExitCode 1, emit (ELog Error ("Setup error: " +:+ exn_str e)) w')
      else if is_KeyboardInterrupt e
      then (ExitCode 130, w')
      else if is_Exception e
      then (ExitCode 1, emit (ELog Error ("Unexpected error: " +:+ exn_str e)) w')
      else match e with
           | SystemExit code => (ExitCode code, w')
           | _ => (ExitCode 1, w')
           end
  end.

End Model.

(* ===================================================================== *)
(** * A concrete environment *)
(* ===================================================================== *)

(** One machine on which everything goes well: the project lives in
    [/work], the tool runs under [/usr/bin/python3], the notebook server
    announces itself on its third line, and the operator interrupts the
    second round of monitoring. *)
Module Example.

Definition self0 : setup :=
  mkSetup None None false true true "/work" "/work/nb.ipynb"
    "/work/.mcp.json" [] None None None None None.

(** A stand-in for [urlparse] on URLs of the form [scheme://netloc]. *)
Definition urlparse0 (u : string) : option (string * string) :=
  if String.prefix "http://" u then Some ("http", Str.drop 7 u)
  else Some ("", "").

Definition polite : stopping := mkStopping None (WaitExits (-15)) None.

Definition stubborn : stopping := mkStopping None WaitTimesOut None.

Definition env0 : environment :=
  mkEnv [("PATH", "/usr/bin")] "/usr/bin/python3" "/work"
    (fun p => if String.eqb p "." then "/work" else p)
    (fun p => Ret ("/work/" +:+ p))
    (3, 11)%nat urlparse0 (fun _ => None)
    [JEof; JLine "[I] Serving notebooks";
     JLine "    http://localhost:8888/lab?token=abcdef0123456789"]
    Quiet None
    [mkTick None None Quiet; mkTick None None (Signalled SIGINT)]
    (fun _ => polite)
    (fun _ _ => Completed 0) None None (Ret true).

Definition python0 : string := "/work/jupyter-mcp-env/bin/python".

Definition settings0 : string := "/work/.claude/settings.local.json".

Definition nodes0 : gmap string fnode :=
  <["/work" := Dir]>
    (<["/work/jupyter-mcp-env" := Dir]>
       (<[python0 := Raw "ELF"]>
          (<["/work/jupyter-mcp-env/bin/activate" := Raw "sh"]>
             (<["/work/.claude" := Dir]>
                (<[settings0 := Doc (JObj [("theme", JStr "dark")])]> ∅))))).

Definition world0 : world :=
  mkWorld nodes0 ∅ ∅ {[python0]} NotStarted NotStarted [].

Definition args0 : cli_args :=
  mkArgs "nb.ipynb" None None "." false false true false false.

End Example.

(* ===================================================================== *)
(** * Observations on traces *)
(* ===================================================================== *)

(** Both kinds of state carry the trace. *)
Class Traced (S : Type) := tr : S -> list event.

#[global] Instance traced_world : Traced world := trace.
#[global] Instance traced_object : Traced (setup * world) :=
  fun s => trace (snd s).

(** An outcome without its value. *)
Inductive kind := KRet | KRaise (e : exn) | KSpin.

Definition kind_of {A} (o : outcome A) : kind :=
  match o with
  | Ret _ => KRet
  | Raise e => KRaise e
  | Spin => KSpin
  end.

Definition is_signal (e : event) : bool :=
  match e with ESignal _ => true | _ => false end.

(** What a call added to the trace, and how it ended: every new event is
    in the class [P]; and, when the guard [G] holds, a call during which a
    signal was delivered ends in [SystemExit(0)]. *)
Definition inv (P : event -> Prop) (G : Prop) (k : kind) (evs : list event)
  : Prop :=
  Forall P evs
  /\ (G -> existsb is_signal evs = true -> k = KRaise (SystemExit 0)).

(** [m] only appends to the trace, and what it appends satisfies [R]. *)
Definition sat {S A} `{Traced S} (R : kind -> list event -> Prop) (m : M S A)
  : Prop :=
  forall s, exists evs,
    tr (snd (m s)) = tr s ++ evs /\ R (kind_of (fst (m s))) evs.

(** No forced kill fails. *)
Definition kills_succeed (E : environment) : Prop :=
  forall r, kill_error (stop E r) = None.

(** ** Classes of events *)

(** The events of [cleanup]. *)
Definition stop_event (e : event) : bool :=
  match e with
  | ETerminate _ | EWait _ _ | EKill _ | EUnlink _ | ELog _ _ => true
  | _ => false
  end.

(** The events of a delivered signal: the signal and the [cleanup] its
    handler runs. *)
Definition down_event (e : event) : bool := stop_event e || is_signal e.

Definition startup_event (e : event) : bool :=
  match e with
  | ESpawn Jupyter _ _ | EPoll Jupyter _ | EReadline _ | ESleep _ => true
  | _ => down_event e
  end.

Definition bridge_event (e : event) : bool :=
  match e with
  | ESpawn Mcp _ _ | EPoll Mcp _ | ESleep _ => true
  | _ => down_event e
  end.

Definition config_event (e : event) : bool :=
  match e with
  | EOpenW _ | EDump _ _ | EMkdir _ | ELog _ _ => true
  | _ => false
  end.

Definition monitor_event (e : event) : bool :=
  match e with
  | EPoll _ _ | ESleep _ => true
  | _ => down_event e
  end.

(** Writes of configuration files. *)
Definition is_write (e : event) : bool :=
  match e with EOpenW _ | EDump _ _ => true | _ => false end.

(** The launch of the bridge. *)
Definition is_bridge_spawn (e : event) : bool :=
  match e with ESpawn Mcp _ _ => true | _ => false end.

(** Operations that change the file system: removing or creating a
    tree, writing or removing a file, and [pip] invocations. *)
Definition is_destructive (e : event) : bool :=
  match e with
  | ERmtree _ | EVenvCreate _ | EUnlink _ | EMkdir _ | EOpenW _
  | EDump _ _ => true
  | ERun (_ :: flag :: module :: _) =>
      String.eqb flag "-m" && String.eqb module "pip"
  | _ => false
  end.

(** ** What a reader of the file system can see during a write *)

(** The worlds between the steps of a sequence of primitive operations,
    the first and the last included; the sequence stops at the first
    step that does not return. *)
Fixpoint observable (steps : list (M world unit)) (w : world) : list world :=
  w :: match steps with
       | [] => []
       | m :: rest =>
           match m w with
           | (Ret _, w') => observable rest w'
           | (_, w') => [w']
           end
       end.

(** The two operations of
    [with open(path, 'w') as f: json.dump(config, f, indent=2)]. *)
Definition write_steps (path : string) (j : json) : list (M world unit) :=
  [open_w path; json_dump path j].

(** A write of [j] to [path] is atomic when a reader finds, at any
    moment, what was there before or the complete document. *)
Definition atomic_write (path : string) (j : json)
  (steps : list (M world unit)) (w : world) : Prop :=
  Forall (fun w' => nodes w' !! path = nodes w !! path
                    \/ nodes w' !! path = Some (Doc j))
    (observable steps w).

(** ** A valid installation *)

(** What [check_existing_installation] looks at: the environment
    directory, the two files of [validate_project_structure], the execute
    permission of the interpreter, and a smoke import that succeeds for
    as long as the files stay as they are. *)
Definition valid_installation (E : environment) (project : string) (w : world)
  : Prop :=
  path_exists (get_virtual_env_path project) w = true
  /\ validate_project_structure project w = true
  /\ venv_python_path project ∈ exec w
  /\ (forall w', nodes w' = nodes w -> exec w' = exec w ->
                 command_result E (smoke_import_cmd (venv_python_path project)) w'
                 = Completed 0).

(** ** The shape of one stopping step *)

(** What follows [ETerminate r] in a stopping step of [cleanup]: the
    logged failure of [terminate]; or the [wait], alone, followed by the
    forced [kill], or followed by its logged failure. *)
Definition stop_shape (r : role) (t : N) (rest : list event) : Prop :=
  (exists msg, rest = [ELog Error msg])
  \/ rest = [EWait r t]
  \/ rest = [EWait r t; EKill r]
  \/ (exists msg, rest = [EWait r t; ELog Error msg]).

(** The stopping step of an optional process. *)
Definition stop_step (p : option role) (t : N) (evs : list event) : Prop :=
  match p with
  | Some r => exists rest, evs = ETerminate r :: rest /\ stop_shape r t rest
  | None => evs = []
  end.

(** The retraction step on [path]: nothing when it is not requested or
    there is no file; else the [unlink], which removes the file or fails
    and is logged. *)
Definition retract_step (requested : bool) (path : string)
  (before after : gmap string fnode) (evs : list event) : Prop :=
  if requested && match before !! path with Some _ => true | None => false end
  then (evs = [EUnlink path] /\ after = delete path before)
       \/ (exists msg, evs = [EUnlink path; ELog Error msg] /\ after = before)
  else evs = [] /\ after = before.

(** ** Order of the phases *)

(** Neither the launch of the bridge nor a configuration write. *)
Definition quiet (e : event) : bool :=
  negb (is_bridge_spawn e || is_write e).

(** Every launch of the bridge comes after a line of the notebook
    server's output on which the scraper succeeded. *)
Definition facts_before_launch (evs : list event) : Prop :=
  forall a b cmd env,
    evs = a ++ ESpawn Mcp cmd env :: b ->
    exists line self0 self1,
      In (EReadline line) a
      /\ _extract_jupyter_details line self0 = (true, self1).

(** Every configuration write comes after the launch of the bridge, the
    two-second delay, and a [poll()] that found the bridge running. *)
Definition running_before_write (evs : list event) : Prop :=
  forall a b e,
    evs = a ++ e :: b -> is_write e = true ->
    exists a1 a2 cmd env,
      a = a1 ++ [ESpawn Mcp cmd env; ESleep 20; EPoll Mcp None] ++ a2.

Definition ordered (evs : list event) : Prop :=
  facts_before_launch evs /\ running_before_write evs.

(** ** What a call leaves alone *)

(** A computation on the world that leaves the node at [p] as it was. *)
Definition keeps_world {A} (p : string) (m : M world A) : Prop :=
  forall w, nodes (snd (m w)) !! p = nodes w !! p.

(** A method that, called on the object [self], leaves the node at [p]
    as it was and the object unchanged. *)
Definition keeps {A} (p : string) (self : setup) (m : M (setup * world) A)
  : Prop :=
  forall w,
    nodes (snd (snd (m (self, w)))) !! p = nodes w !! p
    /\ fst (snd (m (self, w))) = self.

(** What [run_steps] still does once [generate_configurations] has ended
    with the outcome [o]. *)
Definition resume (E : environment) (o : outcome bool)
  : M (setup * world) bool :=
  match o with
  | Ret ok3 => if negb ok3 then ret false else monitor_processes E
  | Raise e => raise e
  | Spin => spin
  end.

(** What [run] still does then: the [except] clause and the [finally]
    clause around it. *)
Definition run_after_config (E : environment) (o : outcome bool)
  : M (setup * world) bool :=
  try_finally
    (try_except (resume E o)
       (on_Exception
          (fun e =>
             lift (log Error (if is_ServerSetupError e then exn_str e
                              else "Unexpected error: " +:+ exn_str e)) ;;
             ret false)))
    (cleanup E).

(** ** Two readings used in the statements *)

(** What [re.match(r'^[a-f0-9]+$', token)] accepts: a non-empty run of
    lowercase hex digits, followed by nothing or by one final newline. *)
Definition token_accepted (token : string) : bool :=
  negb (String.eqb (Str.take_while Re.lower_hex token) "")
  && Re.at_eol (Str.drop_while Re.lower_hex token).

(** The key of the settings document that lists the enabled servers. *)
Definition enabled_key : string := "enabledMcpjsonServers".

(* ===================================================================== *)
(** * [utils.validate_notebook_path] *)
(* ===================================================================== *)

(** [Path.is_absolute()] on a POSIX path. *)
Definition is_absolute (p : string) : bool := String.prefix "/" p.

(** [s.rfind(c)], counted from [i]; [best] is the answer so far. *)
Fixpoint rfind (c : ascii) (s : string) (i : nat) (best : option nat)
  : option nat :=
  match s with
  | EmptyString => best
  | String d s' => rfind c s' (S i) (if Ascii.eqb d c then Some i else best)
  end.

(** [path.name]: what follows the last slash. *)
Definition path_name (p : string) : string :=
  match last_slash p 0 None with
  | Some i => Str.drop (S i) p
  | None => p
  end.

(** [path.suffix], as [pathlib] computes it up to Python 3.13:
<<
    i = name.rfind('.')
    if 0 < i < len(name) - 1: return name[i:]
    else: return ''
>> *)
Definition suffix (p : string) : string :=
  let name := path_name p in
  match rfind "." name 0 None with
  | Some i =>
      if Nat.ltb 0 i && Nat.ltb i (String.length name - 1)
      then Str.drop i name
      else ""
  | None => ""
  end.

(** [c.lower()] on a character below 256: the ASCII capitals and the
    capitals of Latin-1 ([U+00C0] to [U+00DE], the sign [U+00D7] apart). *)
Definition lower_char (c : ascii) : ascii :=
  let n := nat_of_ascii c in
  if (Nat.leb 65 n && Nat.leb n 90)
     || (Nat.leb 192 n && Nat.leb n 222 && negb (Nat.eqb n 215))
  then ascii_of_nat (n + 32)
  else c.

Fixpoint lower (s : string) : string :=
  match s with
  | EmptyString => EmptyString
  | String c s' => String (lower_char c) (lower s')
  end.

(** [path.is_file()]. *)
Definition is_file (p : string) (w : world) : bool :=
  match nodes w !! p with
  | Some (Doc _) | Some (Raw _) => true
  | Some Dir | None => false
  end.

(** [utils.validate_notebook_path].  [resolve] is given the path as
    [Path.cwd() / path] builds it. *)
Definition validate_notebook_path (E : environment) (notebook_path : string)
  : M world string :=
  try_except
    (let path := if is_absolute notebook_path then notebook_path
                 else path_join (cwd E) notebook_path in
     let resolved_path := resolve E path in
     w <- get_world ;;
     if negb (path_exists resolved_path w)
     then raise (SetupError ("Notebook file not found: " +:+ resolved_path))
     else if negb (is_file resolved_path w)
     then raise (SetupError ("Path is not a file: " +:+ resolved_path))
     else if negb (String.eqb (lower (suffix resolved_path)) ".ipynb")
     then raise (SetupError ("File must be a Jupyter notebook (.ipynb): "
                               +:+ resolved_path))
     else
       try_except (json_load resolved_path ;; ret tt)
         (fun e =>
            if is_JSONDecodeError e
            then Some (raise (SetupError
                                ("Invalid notebook JSON in " +:+ resolved_path
                                   +:+ ": " +:+ exn_str e)))
            else None) ;;
       ret resolved_path)
    (on_Exception
       (fun e =>
          if is_SetupError e then raise e
          else raise (SetupError
                        ("Path validation failed for '" +:+ notebook_path
                           +:+ "': " +:+ exn_str e)))).

(* ===================================================================== *)
(** * [JupyterMCPValidator] *)
(* ===================================================================== *)

(** [s.strip()]: white space is what [str.isspace] accepts below 256. *)
Definition is_space (c : ascii) : bool :=
  let n := nat_of_ascii c in
  (Nat.leb 9 n && Nat.leb n 13) || (Nat.leb 28 n && Nat.leb n 32)
  || Nat.eqb n 133 || Nat.eqb n 160.

Fixpoint rstrip (s : string) : string :=
  match s with
  | EmptyString => EmptyString
  | String c s' =>
      match rstrip s' with
      | EmptyString => if is_space c then EmptyString else String c EmptyString
      | r => String c r
      end
  end.

Definition strip (s : string) : string := rstrip (Str.drop_while is_space s).

(** The [CompletedProcess] that [utils.run_command] returns. *)
Record completed := mkCompleted { returncode : Z; stdout : string }.

Definition nl : string := String "010" "".
Definition dq : string := String "034" "".

(** The script of [run_comprehensive_test]. *)
Definition test_script : string :=
  nl +:+ "import sys" +:+ nl
  +:+ "import jupyter_mcp_server" +:+ nl
  +:+ "import jupyterlab" +:+ nl
  +:+ "import jupyter_server" +:+ nl
  +:+ "import mcp" +:+ nl
  +:+ nl
  +:+ "print(" +:+ dq +:+ "✓ All imports successful" +:+ dq +:+ ")" +:+ nl
  +:+ "print(f" +:+ dq
  +:+ "✓ Python version: {sys.version_info.major}.{sys.version_info.minor}"
  +:+ dq +:+ ")" +:+ nl
  +:+ "print(" +:+ dq +:+ "✓ Comprehensive test passed" +:+ dq +:+ ")" +:+ nl.

Section Validator.

Variable E : environment.

(** What a command that ran to its end has printed. *)
Variable command_stdout : list string -> world -> string.

(** [utils.run_command], with the output of the command. *)
Definition run_command_output (cmd : list string) : M world completed :=
  fun w =>
    match run_command E cmd w with
    | (Ret rc, w1) => (Ret (mkCompleted rc (command_stdout cmd w)), w1)
    | (Raise e, w1) => (Raise e, w1)
    | (Spin, w1) => (Spin, w1)
    end.

Definition check_virtual_environment (project : string) : M world bool :=
  w <- get_world ;;
  if negb (path_exists (get_virtual_env_path project) w)
  then raise (ValidationError "Virtual environment not found")
  else if negb (validate_project_structure project w)
  then raise (ValidationError "Virtual environment structure is invalid")
  else ret true.

(** [except Exception as e: if isinstance(e, ValidationError): raise;
    raise ValidationError(prefix + str(e))]. *)
Definition reraise_as_validation_error (prefix : string) (e : exn)
  : option (M world bool) :=
  on_Exception
    (fun e =>
       if is_ValidationError e then raise e
       else raise (ValidationError (prefix +:+ exn_str e))) e.

(** [except Exception as e: raise ValidationError(prefix + str(e))]. *)
Definition as_validation_error (prefix : string) (e : exn)
  : option (M world bool) :=
  on_Exception (fun e => raise (ValidationError (prefix +:+ exn_str e))) e.

Definition check_python_version_in_venv (project : string) : M world bool :=
  try_except
    (python_path <- get_virtual_env_python project ;;
     result <-
       run_command_output
         [python_path; "-c";
          "import sys; print(f'{sys.version_info.major}.{sys.version_info.minor}')"] ;;
     let version_str := strip (stdout result) in
     result <-
       run_command_output
         [python_path; "-c";
          "import sys; exit(0 if sys.version_info >= (3, 10) else 1)"] ;;
     if negb (returncode result =? 0)%Z
     then raise (ValidationError
                   ("Python version " +:+ version_str
                      +:+ " is too old (requires >= 3.10)"))
     else ret true)
    (reraise_as_validation_error "Failed to check Python version: ").

Definition check_package_import (project : string) : M world bool :=
  try_except
    (python_path <- get_virtual_env_python project ;;
     result <-
       run_command_output
         [python_path; "-c";
          "import jupyter_mcp_server; print('Package import: OK')"] ;;
     if substring_of "Package import: OK" (stdout result)
     then ret true
     else raise (ValidationError "Package import test failed"))
    (reraise_as_validation_error "Package import failed: ").

Definition check_cli_availability (project : string) : M world bool :=
  try_except
    (python_path <- get_virtual_env_python project ;;
     run_command_output [python_path; "-m"; "jupyter_mcp_server"; "--help"] ;;
     let jupyter_mcp_script :=
       path_join (path_join (get_virtual_env_path project) "bin")
         "jupyter-mcp-server" in
     w <- get_world ;;
     (if path_exists jupyter_mcp_script w
      then run_command_output [jupyter_mcp_script; "--help"] ;; ret tt
      else ret tt) ;;
     ret true)
    (as_validation_error "CLI availability check failed: ").

Definition check_jupyter_components (project : string) : M world bool :=
  try_except
    (python_path <- get_virtual_env_python project ;;
     run_command_output
       [python_path; "-c"; "import jupyterlab; print('JupyterLab: OK')"] ;;
     run_command_output
       [python_path; "-c"; "import jupyter_server; print('Jupyter Server: OK')"] ;;
     run_command_output
       [python_path; "-c"; "import mcp; print('MCP: OK')"] ;;
     ret true)
    (as_validation_error "Jupyter components check failed: ").

Definition run_comprehensive_test (project : string) : M world bool :=
  try_except
    (python_path <- get_virtual_env_python project ;;
     result <- run_command_output [python_path; "-c"; test_script] ;;
     if substring_of "Comprehensive test passed" (stdout result)
     then ret true
     else raise (ValidationError
                   "Comprehensive test did not complete successfully"))
    (reraise_as_validation_error "Comprehensive test failed: ").

Definition validate (project : string) : M world bool :=
  try_except
    (check_virtual_environment project ;;
     check_python_version_in_venv project ;;
     check_package_import project ;;
     check_cli_availability project ;;
     check_jupyter_components project ;;
     run_comprehensive_test project ;;
     ret true)
    (fun e =>
       if is_ValidationError e then Some (raise e)
       else on_Exception
              (fun e => raise (ValidationError
                                 ("Unexpected validation error: "
                                    +:+ exn_str e))) e).

(** [validate_jupyter_mcp(project_dir=None)]. *)
Definition validate_jupyter_mcp : M world bool := validate (cwd E).

End Validator.

(* ===================================================================== *)
(** * How calls end and what they leave alone *)
(* ===================================================================== *)

(** Every exception that [m] raises is in the class [C]. *)
Definition raises {S A} (C : exn -> Prop) (m : M S A) : Prop :=
  forall s e, fst (m s) = Raise e -> C e.

(** Every value that [m] returns satisfies [V]. *)
Definition returns {S A} (V : A -> Prop) (m : M S A) : Prop :=
  forall s a, fst (m s) = Ret a -> V a.

(** The state [m] ends in is related by [R] to the one it started in. *)
Definition stays {S A} (R : S -> S -> Prop) (m : M S A) : Prop :=
  forall s, R s (snd (m s)).

(** Same files, permissions and processes; the trace may have grown. *)
Definition same_machine (w w' : world) : Prop :=
  nodes w' = nodes w /\ denied w' = denied w /\ unreadable w' = unreadable w
  /\ exec w' = exec w /\ jupyter_state w' = jupyter_state w
  /\ mcp_state w' = mcp_state w.

(** What was added to the trace between [w] and [w']. *)
Definition added (w w' : world) (evs : list event) : Prop :=
  trace w' = trace w ++ evs.

Definition is_error_log (e : event) : bool :=
  match e with ELog Error _ => true | _ => false end.

Definition is_log (e : event) : bool :=
  match e with ELog _ _ => true | _ => false end.

Definition is_run (e : event) : bool :=
  match e with ERun _ => true | _ => false end.

Definition is_spawn (r : role) (e : event) : bool :=
  match e, r with
  | ESpawn Jupyter _ _, Jupyter | ESpawn Mcp _ _, Mcp => true
  | _, _ => false
  end.

(** [validate_url], the log apart. *)
Definition url_valid (E : environment) (url : string) : bool :=
  match urlparse E url with
  | Some (scheme, netloc) =>
      negb (String.eqb scheme "") && negb (String.eqb netloc "")
  | None => false
  end.

(** [validate_token], the log apart. *)
Definition token_valid (token : string) : bool :=
  Nat.leb 8 (String.length token) && token_accepted token.

(** [server in items] for a list of JSON values. *)
Definition listed (server : string) (items : list json) : bool :=
  existsb (fun x => match x with
                    | JStr t => String.eqb server t
                    | _ => false
                    end) items.

(** The process attribute of the object for a role. *)
Definition process_of (r : role) (self : setup) : option role :=
  match r with Jupyter => jupyter_process self | Mcp => mcp_process self end.

(** The groups a match of [r] captures: one non-empty run of the class
    for each capturing [+], in order. *)
Fixpoint captures_of (r : Re.regex) (caps : list string) : Prop :=
  match r with
  | [] => caps = []
  | Re.Plus true cls :: r' =>
      match caps with
      | c :: caps' =>
          c <> EmptyString /\ Str.all cls c = true /\ captures_of r' caps'
      | [] => False
      end
  | _ :: r' => captures_of r' caps
  end.

(** [m] always ends, by returning or by raising an exception of the
    class [C]. *)
Definition settles {S A} (C : exn -> Prop) (m : M S A) : Prop :=
  forall s,
    match fst (m s) with
    | Ret _ => True
    | Raise e => C e
    | Spin => False
    end.

(** The exceptions that [except Exception] catches. *)
Definition ordinary (e : exn) : Prop := is_Exception e = true.

(** Nothing is raised. *)
Definition nothing (e : exn) : Prop := False.

(** A directory that [ensure_directory] finds or can create and that
    [os.access(_, W_OK)] then accepts. *)
Definition usable_directory (p : string) (w : world) : bool :=
  match nodes w !! p with
  | Some Dir | None => negb (bool_decide (p ∈ denied w))
  | Some _ => false
  end.

(** A file name: no slash in it. *)
Definition no_slash (name : string) : bool :=
  Str.all (fun c => negb (Ascii.eqb c "/")) name.

(** A process that can be stopped: [terminate] does not raise, [wait]
    returns or times out, and [kill] does not raise. *)
Definition stoppable (E : environment) (r : role) : Prop :=
  terminate_error (stop E r) = None
  /\ (forall c, wait_outcome (stop E r) <> WaitRaises c)
  /\ kill_error (stop E r) = None.

(** Every launch recorded in the trace is of a process the object holds. *)
Definition tracked (s : setup * world) : Prop :=
  forall r cmd env,
    In (ESpawn r cmd env) (trace (snd s)) -> process_of r (fst s) = Some r.

(** A step after which the launches are still tracked. *)
Definition keeps_tracked (s s' : setup * world) : Prop :=
  tracked s -> tracked s'.

Definition no_spawn (e : event) : Prop :=
  match e with ESpawn _ _ _ => False | _ => True end.

(** The object holds the same processes. *)
Definition same_processes (s s' : setup * world) : Prop :=
  jupyter_process (fst s') = jupyter_process (fst s)
  /\ mcp_process (fst s') = mcp_process (fst s).

(** What can leave the orchestrator: an [Exception], a
    [KeyboardInterrupt], or the [SystemExit(0)] of the signal handler. *)
Definition expected (e : exn) : Prop :=
  is_Exception e = true \/ e = KeyboardInterrupt \/ e = SystemExit 0.

(** The outcomes of the two collaborators that [cli.main] takes as
    given (notebook validation and the validation phase) are expected
    ones. *)
Definition expected_outcome {A} (o : outcome A) : Prop :=
  match o with
  | Raise e => expected e
  | _ => True
  end.

(** What an operation on files, processes or commands can raise: an
    [Exception], or the [KeyboardInterrupt] of an interrupted command. *)
Definition interruptible (e : exn) : Prop :=
  is_Exception e = true \/ e = KeyboardInterrupt.

(** What the validator raises: a [ValidationError], or the
    [KeyboardInterrupt] of an interrupted command. *)
Definition validation_failure (e : exn) : Prop :=
  (exists msg, e = ValidationError msg) \/ e = KeyboardInterrupt.

(** What the installer raises: an [InstallationError], or the
    [KeyboardInterrupt] of an interrupted command. *)
Definition installation_failure (e : exn) : Prop :=
  (exists msg, e = InstallationError msg) \/ e = KeyboardInterrupt.

(** Outside the directory [p] the files and their execute permissions
    are as in [w]; so are the refusals and the processes. *)
Definition outside (p : string) (w w' : world) : Prop :=
  (forall q, under p q = false -> nodes w' !! q = nodes w !! q)
  /\ (forall q, under p q = false -> q ∈ exec w' <-> q ∈ exec w)
  /\ denied w' = denied w /\ unreadable w' = unreadable w
  /\ jupyter_state w' = jupyter_state w /\ mcp_state w' = mcp_state w.

(** The environment of [project] is in place: the two files of the
    structural check are there and the interpreter is found. *)
Definition installed (project : string) (w : world) : Prop :=
  validate_project_structure project w = true
  /\ get_virtual_env_python project w = (Ret (venv_python_path project), w).

(** The [pip install] of one dependency. *)
Definition pip_install (python dep : string) : event :=
  ERun [python; "-m"; "pip"; "install"; dep].

(** What the installer of [project] may do: remove and create the
    environment directory, run commands with the interpreter of the
    environment, and log. *)
Definition installer_event (project : string) (e : event) : bool :=
  match e with
  | ERmtree p | EVenvCreate p => String.eqb p (get_virtual_env_path project)
  | ERun (python :: _) => String.eqb python (venv_python_path project)
  | ELog _ _ => true
  | _ => false
  end.

(** One step of the installer of [project]: it stays inside the
    environment directory, and what it adds to the trace are events of
    the installer. *)
Definition installer_step (project : string) (w w' : world) : Prop :=
  outside (get_virtual_env_path project) w w'
  /\ exists evs,
       trace w' = trace w ++ evs
       /\ forallb (installer_event project) evs = true.
(* ===================================================================== *)
(** * Facts about strings *)
(* ===================================================================== *)

Module StrFacts.

Lemma app_assoc (a b c : string) : (a +:+ b) +:+ c = a +:+ (b +:+ c).
Proof. induction a as [|x a IH]; simpl; [reflexivity | now rewrite IH]. Qed.

Lemma app_nil_r (a : string) : a +:+ "" = a.
Proof. induction a as [|x a IH]; simpl; [reflexivity | now rewrite IH]. Qed.

Lemma app_length (a b : string) :
  String.length (a +:+ b) = String.length a + String.length b.
Proof. induction a as [|x a IH]; simpl; [reflexivity | now rewrite IH]. Qed.

Lemma prefix_app (p s : string) : String.prefix p (p +:+ s) = true.
Proof.
  induction p as [|c p IH]; simpl; [now destruct s|].
  destruct (ascii_dec c c); [exact IH | congruence].
Qed.

(** Two strings that end in equally long tails have equal tails. *)
Lemma app_inj_tail (a b s t : string) :
  String.length s = String.length t -> a +:+ s = b +:+ t -> s = t.
Proof.
  revert b. induction a as [|x a IH]; intros b Hl He.
  - destruct b as [|y b]; [exact He|].
    simpl in He. apply (f_equal String.length) in He.
    simpl in He. rewrite app_length in He. lia.
  - destruct b as [|y b].
    + simpl in He. apply (f_equal String.length) in He.
      simpl in He. rewrite app_length in He. lia.
    + simpl in He. injection He as _ He. now apply (IH b).
Qed.

End StrFacts.

(* ===================================================================== *)
(** * Facts about the matcher *)
(* ===================================================================== *)

Module ReFacts.
Import Re.

Lemma eqb_refl_true (c : ascii) : Ascii.eqb c c = true.
Proof. apply Ascii.eqb_eq. reflexivity. Qed.

Lemma splits_no_head cls s : Str.head_in cls s = false -> splits cls s = [].
Proof. destruct s as [|c s]; simpl; [reflexivity|]. now intros ->. Qed.

Lemma head_in_app cls run rest :
  run <> EmptyString -> Str.all cls run = true ->
  Str.head_in cls (run +:+ rest) = true.
Proof.
  destruct run as [|c run]; [congruence|]. simpl. intros _ H.
  now apply andb_true_iff in H.
Qed.

(** The first way to cut a maximal run is the run itself; every other
    cut leaves a remainder that still starts inside the run. *)
Lemma splits_head cls run rest :
  run <> EmptyString -> Str.all cls run = true ->
  Str.head_in cls rest = false ->
  exists tl, splits cls (run +:+ rest) = (run, rest) :: tl
             /\ Forall (fun pr => Str.head_in cls (snd pr) = true) tl.
Proof.
  induction run as [|c run IH]; [congruence|]. intros _ Hall Hrest.
  simpl in Hall. apply andb_true_iff in Hall as [Hc Hall].
  simpl. rewrite Hc. destruct run as [|d run].
  - simpl. rewrite (splits_no_head _ _ Hrest). simpl. exists []. now split.
  - destruct IH as (tl & Heq & Htl); [congruence | exact Hall | exact Hrest |].
    rewrite Heq. simpl.
    exists (map (fun pr => (String c (fst pr), snd pr)) tl
              ++ [(String c EmptyString, String d run +:+ rest)]).
    split; [reflexivity|].
    apply Forall_app. split.
    + apply Forall_map. simpl. exact Htl.
    + constructor; [|constructor]. simpl.
      simpl in Hall. now apply andb_true_iff in Hall.
Qed.

Lemma first_some_none {A B} (f : A -> option B) l :
  Forall (fun x => f x = None) l -> first_some f l = None.
Proof. induction 1 as [|x l Hx _ IH]; simpl; [reflexivity|]. now rewrite Hx. Qed.

(** A greedy [+] followed by something that cannot start inside the run:
    only the longest cut can succeed. *)
Lemma plus_run capture cls r bos run rest :
  run <> EmptyString -> Str.all cls run = true ->
  Str.head_in cls rest = false ->
  (forall s, Str.head_in cls s = true -> match_here r false s = None) ->
  match_here (Plus capture cls :: r) bos (run +:+ rest) =
    match match_here r false rest with
    | Some caps => Some (if capture then run :: caps else caps)
    | None => None
    end.
Proof.
  intros Hne Hall Hrest Hr.
  destruct (splits_head cls run rest Hne Hall Hrest) as (tl & Heq & Htl).
  simpl. rewrite Heq. simpl.
  destruct (match_here r false rest); [reflexivity|].
  apply first_some_none.
  eapply Forall_impl; [exact Htl|]. simpl. intros pr Hpr. now rewrite Hr.
Qed.

(** A greedy [+] that ends the pattern captures the whole run. *)
Lemma plus_run_last capture cls bos run rest :
  run <> EmptyString -> Str.all cls run = true ->
  Str.head_in cls rest = false ->
  match_here [Plus capture cls] bos (run +:+ rest) =
    Some (if capture then [run] else []).
Proof.
  intros Hne Hall Hrest.
  destruct (splits_head cls run rest Hne Hall Hrest) as (tl & Heq & _).
  simpl. rewrite Heq. reflexivity.
Qed.

(** A literal that the class excludes cannot match inside a run. *)
Lemma chr_after_run cls c r s :
  cls c = false -> Str.head_in cls s = true ->
  match_here (Chr c :: r) false s = None.
Proof.
  intros Hc Hs. destruct s as [|d s]; simpl; [reflexivity|].
  destruct (Ascii.eqb c d) eqn:E; [|reflexivity].
  apply Ascii.eqb_eq in E. subst d. simpl in Hs. congruence.
Qed.

(** A pattern that opens with the literal [p] matches only where [p]
    occurs. *)
Lemma lits_no_prefix p r bos s :
  p <> EmptyString -> String.prefix p s = false ->
  match_here (lits p ++ r) bos s = None.
Proof.
  revert bos s. induction p as [|c p IH]; [congruence|]. intros bos s _ Hp.
  destruct s as [|d s]; [reflexivity|]. simpl. simpl in Hp.
  destruct (Ascii.eqb c d) eqn:E; [|reflexivity].
  apply Ascii.eqb_eq in E. subst d.
  destruct (ascii_dec c c); [|congruence].
  destruct p as [|c' p]; [destruct s; discriminate Hp|].
  apply IH; [congruence | exact Hp].
Qed.

Lemma lits_bos p r bos s :
  p <> EmptyString ->
  match_here (lits p ++ r) bos s = match_here (lits p ++ r) false s.
Proof. destruct p; [congruence|]. reflexivity. Qed.

Lemma search_no_occurrence p r bos s i :
  p <> EmptyString -> Str.find_all p s i = [] ->
  search_from (lits p ++ r) bos s = None.
Proof.
  intros Hp. revert bos i. induction s as [|c s IH]; intros bos i H.
  - cbn [Str.find_all] in H. cbn [search_from].
    rewrite lits_no_prefix; [reflexivity | exact Hp |].
    destruct (String.prefix p EmptyString); [discriminate H | reflexivity].
  - cbn [Str.find_all] in H. apply app_eq_nil in H as [H1 H2].
    cbn [search_from]. rewrite lits_no_prefix; [eauto | exact Hp |].
    destruct (String.prefix p (String c s)); [discriminate H1 | reflexivity].
Qed.

(** If the only occurrence of [p] in the subject is right after [pre],
    the search is decided by the attempt at that position. *)
Lemma search_single_occurrence p r bos pre rest i :
  p <> EmptyString ->
  Str.find_all p (pre +:+ rest) i = [i + String.length pre] ->
  String.prefix p rest = true ->
  search_from (lits p ++ r) bos (pre +:+ rest)
  = match_here (lits p ++ r) false rest.
Proof.
  intros Hp. revert bos i. induction pre as [|c pre IH]; intros bos i H Hpre.
  - simpl in *. destruct rest as [|d rest].
    + cbn [search_from]. rewrite (lits_bos p r bos); [|exact Hp].
      now destruct (match_here (lits p ++ r) false EmptyString).
    + cbn [Str.find_all] in H. rewrite Hpre in H. simpl in H.
      apply (f_equal (@tail nat)) in H. simpl in H. cbn [search_from].
      rewrite (lits_bos p r bos); [|exact Hp].
      destruct (match_here (lits p ++ r) false (String d rest)); [reflexivity|].
      eapply search_no_occurrence; eauto.
  - change (String c pre +:+ rest) with (String c (pre +:+ rest)) in *.
    cbn [Str.find_all String.length] in H. cbn [search_from].
    destruct (String.prefix p (String c (pre +:+ rest))) eqn:E.
    + cbn [app] in H. apply (f_equal (@hd nat 0)) in H. cbn [hd] in H. lia.
    + cbn [app] in H. rewrite lits_no_prefix; [|exact Hp|exact E].
      apply (IH false (S i)); [|exact Hpre]. rewrite H. f_equal. lia.
Qed.

End ReFacts.

(* ===================================================================== *)
(** * Scraping the supported shapes *)
(* ===================================================================== *)

Module Scrape.
Import Re ReFacts.

Lemma match_lits l r bos s :
  l <> EmptyString ->
  match_here (lits l ++ r) bos (l +:+ s) = match_here r false s.
Proof.
  revert bos. induction l as [|c l IH]; [congruence|]. intros bos _.
  simpl. rewrite eqb_refl_true. destruct l as [|d l]; [reflexivity|].
  apply IH. congruence.
Qed.

Lemma digit_slash s r :
  Str.head_in digit s = true -> match_here (Chr "/" :: r) false s = None.
Proof. now apply chr_after_run. Qed.

(** One pattern against one shape, at the position of the URL. *)
Lemma match_shape h' lab' h lab digits tok suf :
  digits <> EmptyString -> Str.all digit digits = true ->
  tok <> EmptyString -> Str.all lower_hex tok = true ->
  Str.head_in lower_hex suf = false ->
  match_here (url_pattern (host_str h') (path_str lab')) false
    (url_shape h lab digits tok +:+ suf)
  = if loopback_eqb h' h && Bool.eqb lab' lab
    then Some [digits; tok] else None.
Proof.
  intros Hd Hda Ht Hta Hsuf.
  unfold url_shape, url_pattern. rewrite !StrFacts.app_assoc.
  rewrite match_lits by discriminate.
  destruct h', h; cbn [loopback_eqb andb host_str]; try reflexivity.
  all: rewrite 2!match_lits by discriminate.
  all: rewrite plus_run;
    [ | exact Hd | exact Hda | now destruct lab
      | intros s Hs; destruct lab'; now apply digit_slash ].
  all: destruct lab', lab; cbn [Bool.eqb path_str]; try reflexivity.
  all: rewrite 2!match_lits by discriminate.
  all: now rewrite plus_run_last.
Qed.

Lemma search_shape h' lab' pre h lab digits tok suf :
  digits <> EmptyString -> Str.all digit digits = true ->
  tok <> EmptyString -> Str.all lower_hex tok = true ->
  Str.head_in lower_hex suf = false ->
  Str.find_all "http://" (pre +:+ url_shape h lab digits tok +:+ suf) 0
    = [String.length pre] ->
  search (url_pattern (host_str h') (path_str lab'))
    (pre +:+ url_shape h lab digits tok +:+ suf)
  = if loopback_eqb h' h && Bool.eqb lab' lab
    then Some [digits; tok] else None.
Proof.
  intros Hd Hda Ht Hta Hsuf Hocc.
  unfold search. unfold url_pattern at 1.
  rewrite (search_single_occurrence "http://" _ true pre _ 0);
    [ | discriminate | exact Hocc | ].
  - now apply match_shape.
  - unfold url_shape. rewrite StrFacts.app_assoc. apply StrFacts.prefix_app.
Qed.

(** ** Decimal rendering of a scraped port *)

Lemma uint_of_digit c d :
  digit c = true ->
  exists d', DecimalString.uint_of_char c (Some d) = Some d'
             /\ (Ascii.eqb c "0" = false -> Decimal.unorm d' = d').
Proof.
  destruct c as [[] [] [] [] [] [] [] []]; try discriminate; intros _;
    eexists; (split; [reflexivity|]); try discriminate; reflexivity.
Qed.

Lemma uint_of_digits s :
  Str.all digit s = true -> exists d, NilEmpty.uint_of_string s = Some d.
Proof.
  induction s as [|c s IH]; simpl; [eauto|]. intros H.
  apply andb_true_iff in H as [Hc Hs]. destruct (IH Hs) as [d ->].
  destruct (uint_of_digit c d Hc) as (d' & -> & _). eauto.
Qed.

(** [str(int(s))] gives [s] back when [s] is a digit string without a
    leading zero. *)
Lemma python_str_int digits :
  Str.all digit digits = true ->
  Str.head_in (fun c => Ascii.eqb c "0") digits = false ->
  digits <> EmptyString ->
  python_str (python_int digits) = digits.
Proof.
  intros Hall Hz Hne. destruct digits as [|c s]; [congruence|].
  simpl in Hall, Hz. apply andb_true_iff in Hall as [Hc Hs].
  destruct (uint_of_digits s Hs) as [d Hd].
  destruct (uint_of_digit c d Hc) as (d' & Hd' & Hn).
  unfold python_str, python_int. cbn [NilEmpty.uint_of_string].
  rewrite Hd, Hd'. rewrite Unsigned.to_of, (Hn Hz).
  apply NilEmpty.sus. cbn [NilEmpty.uint_of_string]. now rewrite Hd.
Qed.

End Scrape.

(* ===================================================================== *)
(** * Claim C1: what the scraper yields on the supported shapes *)
(* ===================================================================== *)




(* ===================================================================== *)
(** * Claim C2: token validation and the bridge environment *)
(* ===================================================================== *)

Module Token.
Import Re ReFacts.

Lemma span_app p s : s = Str.take_while p s +:+ Str.drop_while p s.
Proof.
  induction s as [|c s IH]; [reflexivity|]. simpl.
  destruct (p c); [|reflexivity]. simpl. now rewrite <- IH.
Qed.

Lemma take_while_all p s : Str.all p (Str.take_while p s) = true.
Proof.
  induction s as [|c s IH]; [reflexivity|]. simpl.
  destruct (p c) eqn:E; [|reflexivity]. simpl. now rewrite E.
Qed.

Lemma drop_while_head p s : Str.head_in p (Str.drop_while p s) = false.
Proof.
  induction s as [|c s IH]; [reflexivity|]. simpl.
  destruct (p c) eqn:E; [exact IH | simpl; exact E].
Qed.

Lemma take_while_empty p s :
  Str.take_while p s = EmptyString -> Str.head_in p s = false.
Proof. destruct s as [|c s]; simpl; [reflexivity|]. now destruct (p c). Qed.

Lemma eol_after_hex s :
  Str.head_in lower_hex s = true -> match_here [Eol] false s = None.
Proof.
  destruct s as [|c s]; [discriminate|]. simpl. intros Hc.
  destruct s; [|reflexivity].
  destruct (Ascii.eqb c "010") eqn:E; [|reflexivity].
  apply Ascii.eqb_eq in E. subst c. discriminate Hc.
Qed.

Lemma rmatch_token_pattern token :
  rmatch token_pattern token = if token_accepted token then Some [] else None.
Proof.
  unfold rmatch, token_pattern, token_accepted.
  change (match_here [Bol; Plus false lower_hex; Eol] true token)
    with (match_here [Plus false lower_hex; Eol] true token).
  destruct (String.eqb (Str.take_while lower_hex token) "") eqn:Erun.
  - apply String.eqb_eq in Erun. apply take_while_empty in Erun.
    cbn [negb andb match_here]. now rewrite splits_no_head.
  - apply String.eqb_neq in Erun. cbn [negb andb].
    rewrite (span_app lower_hex token) at 1.
    rewrite plus_run;
      [ | exact Erun | apply take_while_all | apply drop_while_head
        | apply eol_after_hex ].
    simpl. now destruct (at_eol (Str.drop_while lower_hex token)).
Qed.

End Token.

(** ** Unfolding the monad one step at a time *)

Module MonadFacts.

Lemma bind_unfold {S A B} (m : M S A) (k : A -> M S B) s :
  bind m k s
  = match m s with
    | (Ret a, s') => k a s'
    | (Raise e, s') => (Raise e, s')
    | (Spin, s') => (Spin, s')
    end.
Proof. reflexivity. Qed.

Lemma try_except_unfold {S A} (m : M S A) handler s :
  try_except m handler s
  = match m s with
    | (Raise e, s') =>
        match handler e with
        | Some h => h s'
        | None => (Raise e, s')
        end
    | r => r
    end.
Proof. reflexivity. Qed.

Lemma lift_unfold {A} (m : M world A) self w :
  lift m (self, w) = (fst (m w), (self, snd (m w))).
Proof. unfold lift. cbn [fst snd]. now destruct (m w). Qed.

Lemma bind_ret {S A B} (m : M S A) (k : A -> M S B) s a s' :
  m s = (Ret a, s') -> bind m k s = k a s'.
Proof. unfold bind. now intros ->. Qed.

Lemma bind_raise {S A B} (m : M S A) (k : A -> M S B) s e s' :
  m s = (Raise e, s') -> bind m k s = (Raise e, s').
Proof. unfold bind. now intros ->. Qed.

Lemma bind_spin {S A B} (m : M S A) (k : A -> M S B) s s' :
  m s = (Spin, s') -> bind m k s = (Spin, s').
Proof. unfold bind. now intros ->. Qed.

Lemma try_ret {S A} (m : M S A) h s a s' :
  m s = (Ret a, s') -> try_except m h s = (Ret a, s').
Proof. unfold try_except. now intros ->. Qed.

Lemma try_raise {S A} (m : M S A) h s e s' :
  m s = (Raise e, s') ->
  try_except m h s
  = match h e with Some k => k s' | None => (Raise e, s') end.
Proof. unfold try_except. now intros ->. Qed.

Lemma try_spin {S A} (m : M S A) h s s' :
  m s = (Spin, s') -> try_except m h s = (Spin, s').
Proof. unfold try_except. now intros ->. Qed.

Lemma lift_eq {A} (m : M world A) self w o w' :
  m w = (o, w') -> lift m (self, w) = (o, (self, w')).
Proof. unfold lift. cbn [fst snd]. now intros ->. Qed.

End MonadFacts.

(** One step of symbolic execution. *)
Ltac mstep :=
  repeat (rewrite MonadFacts.bind_unfold
          || rewrite MonadFacts.try_except_unfold
          || rewrite MonadFacts.lift_unfold);
  cbn [fst snd]; cbv beta iota.

Section CreateEnvironment.

Variable E : environment.

(** What [validate_token] answers, the log apart. *)
Lemma validate_token_result token name w :
  fst (validate_token token name w)
  = Ret (negb (String.eqb token "")
         && negb (Nat.ltb (String.length token) 8)
         && token_accepted token).
Proof.
  unfold validate_token. rewrite Token.rmatch_token_pattern.
  destruct (String.eqb token ""); [reflexivity|].
  destruct (Nat.ltb (String.length token) 8); [reflexivity|].
  now destruct (token_accepted token).
Qed.

Lemma validate_token_object token name w :
  nodes (snd (validate_token token name w)) = nodes w.
Proof.
  unfold validate_token.
  destruct (String.eqb token "" || Nat.ltb (String.length token) 8);
    [reflexivity|].
  now destruct (Re.rmatch token_pattern token).
Qed.

(** A token that [validate_token] turns down makes
    [create_jupyter_environment] fail with a [ServerSetupError]; the
    object, and with it [validated_env], stays as it was. *)
Lemma create_environment_rejected url token notebook self w :
  fst (validate_token token "Jupyter token"
         (snd (validate_url E url "Jupyter URL" w))) = Ret false ->
  exists msg w',
    create_jupyter_environment E url token notebook (self, w)
    = (Raise (ServerSetupError msg), (self, w')).
Proof.
  intros H. unfold create_jupyter_environment. mstep.
  assert (Hu : exists ok w1, validate_url E url "Jupyter URL" w = (Ret ok, w1)).
  { unfold validate_url.
    destruct (urlparse E url) as [[scheme netloc]|];
      [destruct (negb (scheme =? "")%string && negb (netloc =? "")%string)|];
      cbn; eauto. }
  destruct Hu as (ok & w1 & Hu). rewrite Hu in H. rewrite Hu.
  cbn [fst snd] in *.
  destruct ok; cbn [negb]; cbv beta iota.
  - mstep.
    destruct (validate_token token "Jupyter token" w1) as [o w2].
    cbn [fst] in H. subst o. cbn. eauto.
  - cbn. eauto.
Qed.

(** The tokens C2 speaks of are turned down, except that a single final
    newline after the hex digits goes unnoticed. *)
Lemma validate_token_rejects token name w :
  token = EmptyString
  \/ String.length token < 8
  \/ (Str.all Re.lower_hex token = false
      /\ token <> Str.take_while Re.lower_hex token +:+ String "010" "") ->
  fst (validate_token token name w) = Ret false.
Proof.
  intros H. rewrite validate_token_result. f_equal.
  destruct H as [-> | [H | [Hall Hnl]]]; [reflexivity| |].
  - apply Nat.ltb_lt in H. rewrite H. now rewrite andb_false_r.
  - unfold token_accepted.
    assert (Hd : Re.at_eol (Str.drop_while Re.lower_hex token) = false).
    { pose proof (Token.span_app Re.lower_hex token) as Hs.
      destruct (Str.drop_while Re.lower_hex token) as [|c [|d r]] eqn:Ed.
      - exfalso. rewrite StrFacts.app_nil_r in Hs.
        assert (Ht : Str.all Re.lower_hex token = true)
          by (rewrite Hs; apply Token.take_while_all).
        congruence.
      - simpl. destruct (Ascii.eqb c "010") eqn:Ec; [|reflexivity].
        apply Ascii.eqb_eq in Ec. subst c. now rewrite <- Hs in Hnl.
      - reflexivity. }
    rewrite Hd. now rewrite !andb_false_r.
Qed.

(** The other direction of the slip, for every environment: eight or
    more hex digits followed by one newline pass [validate_token]. *)
Lemma validate_token_accepts_final_newline run name w :
  Str.all Re.lower_hex run = true -> 8 <= String.length run ->
  validate_token (run +:+ String "010" "") name w = (Ret true, w).
Proof.
  intros Hall Hlen. unfold validate_token.
  assert (Hne : run <> EmptyString) by (destruct run; simpl in Hlen; [lia|congruence]).
  destruct (String.eqb (run +:+ String "010" "") "") eqn:E1.
  { apply String.eqb_eq in E1. destruct run; discriminate. }
  destruct (Nat.ltb (String.length (run +:+ String "010" "")) 8) eqn:E2.
  { apply Nat.ltb_lt in E2. rewrite StrFacts.app_length in E2. simpl in E2. lia. }
  cbn [orb]. unfold Re.rmatch, token_pattern.
  change (Re.match_here [Re.Bol; Re.Plus false Re.lower_hex; Re.Eol] true
            (run +:+ String "010" ""))
    with (Re.match_here [Re.Plus false Re.lower_hex; Re.Eol] true
            (run +:+ String "010" "")).
  rewrite ReFacts.plus_run;
    [reflexivity | exact Hne | exact Hall | reflexivity | apply Token.eol_after_hex].
Qed.

End CreateEnvironment.


(* ===================================================================== *)
(** * Claim C5: the client settings merge *)
(* ===================================================================== *)

Module DictFacts.

Lemma set_absent {V} k (v : V) d :
  Dict.mem k d = false -> Dict.set k v d = d ++ [(k, v)].
Proof.
  induction d as [|[k' v'] d IH]; simpl; [reflexivity|]. intros H.
  apply orb_false_iff in H as [H1 H2]. rewrite H1. now rewrite IH.
Qed.

Lemma set_last {V} k (v v' : V) d :
  Dict.mem k d = false -> Dict.set k v (d ++ [(k, v')]) = d ++ [(k, v)].
Proof.
  induction d as [|[k' w] d IH]; simpl.
  - now rewrite String.eqb_refl.
  - intros H. apply orb_false_iff in H as [H1 H2]. rewrite H1. now rewrite IH.
Qed.

Lemma mem_last {V} k (v : V) d : Dict.mem k (d ++ [(k, v)]) = true.
Proof.
  induction d as [|[k' w] d IH]; simpl.
  - now rewrite String.eqb_refl.
  - rewrite IH. apply orb_true_r.
Qed.

Lemma get_last {V} k (v : V) d :
  Dict.mem k d = false -> Dict.get k (d ++ [(k, v)]) = Some v.
Proof.
  induction d as [|[k' w] d IH]; simpl.
  - now rewrite String.eqb_refl.
  - intros H. apply orb_false_iff in H as [H1 H2]. rewrite H1. now apply IH.
Qed.

Lemma get_other {V} k k' (v : V) d :
  k <> k' -> Dict.get k (d ++ [(k', v)]) = Dict.get k d.
Proof.
  intros Hne. induction d as [|[k'' w] d IH]; simpl.
  - apply String.eqb_neq in Hne. now rewrite Hne.
  - now rewrite IH.
Qed.

End DictFacts.

Module Settings.
Import MonadFacts.

(** The first merge appends the array with the one name; the second
    finds the name and changes nothing. *)
Lemma update_fresh server members :
  Dict.mem enabled_key members = false ->
  update_enabled_mcp_servers server (JObj members)
  = Ret (JObj (members ++ [(enabled_key, JArr [JStr server])])).
Proof.
  intros H. unfold update_enabled_mcp_servers. fold enabled_key. rewrite H.
  cbn [negb]. rewrite (DictFacts.set_absent _ _ _ H).
  rewrite (DictFacts.get_last _ _ _ H). cbn [py_contains existsb app].
  now rewrite (DictFacts.set_last _ _ _ _ H).
Qed.

Lemma update_again server members :
  Dict.mem enabled_key members = false ->
  update_enabled_mcp_servers server (JObj (members ++ [(enabled_key, JArr [JStr server])]))
  = Ret (JObj (members ++ [(enabled_key, JArr [JStr server])])).
Proof.
  intros H. unfold update_enabled_mcp_servers. fold enabled_key.
  rewrite DictFacts.mem_last. cbn [negb].
  rewrite (DictFacts.get_last _ _ _ H). cbn [py_contains existsb].
  now rewrite String.eqb_refl.
Qed.

Lemma ensure_directory_existing p w :
  nodes w !! p = Some Dir -> ensure_directory p w = (Ret tt, emit (EMkdir p) w).
Proof. unfold ensure_directory. now intros ->. Qed.

Lemma open_w_file p w :
  p ∉ denied w -> nodes w !! p <> Some Dir ->
  open_w p w
  = (Ret tt, set_nodes (emit (EOpenW p) w) (<[p := Raw ""]> (nodes w))).
Proof.
  intros Hd Hn. unfold open_w. rewrite bool_decide_false by exact Hd.
  destruct (nodes w !! p) as [[]|]; try reflexivity. congruence.
Qed.

Lemma json_load_doc p j w :
  p ∉ unreadable w -> nodes w !! p = Some (Doc j) ->
  json_load p w = (Ret j, w).
Proof.
  intros Hr Hn. unfold json_load.
  rewrite bool_decide_false by exact Hr. now rewrite Hn.
Qed.

Lemma ensure_claude_directory_ok project w :
  nodes w !! path_join project ".claude" = Some Dir ->
  path_join project ".claude" ∉ denied w ->
  ensure_claude_directory project w
  = (Ret true, emit (EMkdir (path_join project ".claude")) w).
Proof.
  intros Hdir Hd. unfold ensure_claude_directory. apply try_ret.
  erewrite bind_ret by (now apply ensure_directory_existing).
  erewrite bind_ret by reflexivity.
  unfold access_w, path_exists. cbn [nodes emit denied].
  rewrite Hdir. rewrite bool_decide_false by exact Hd. reflexivity.
Qed.

Lemma load_existing_claude_settings_doc project j w :
  get_claude_config_path project ∉ unreadable w ->
  nodes w !! get_claude_config_path project = Some (Doc j) ->
  load_existing_claude_settings project w = (Ret j, w).
Proof.
  intros Hr Hn. unfold load_existing_claude_settings.
  erewrite bind_ret by reflexivity.
  unfold path_exists. rewrite Hn. cbn [negb].
  apply try_ret. now apply json_load_doc.
Qed.

(** One successful write, step by step. *)
Lemma generate_claude_settings_ok project server settings settings' w :
  let dir := path_join project ".claude" in
  let path := get_claude_config_path project in
  nodes w !! dir = Some Dir -> dir ∉ denied w ->
  path ∉ denied w -> path ∉ unreadable w ->
  nodes w !! path = Some (Doc settings) ->
  update_enabled_mcp_servers server settings = Ret settings' ->
  exists w',
    generate_claude_settings project server w = (Ret true, w')
    /\ nodes w' = <[path := Doc settings']> (nodes w)
    /\ denied w' = denied w /\ unreadable w' = unreadable w
    /\ trace w' = trace w ++ [EMkdir dir; EOpenW path; EDump path settings'].
Proof.
  intros dir path Hdir Hd Hp Hr Hdoc Hup.
  unfold generate_claude_settings. eexists. split.
  - apply try_ret.
    erewrite bind_ret by (now apply ensure_claude_directory_ok).
    cbn [negb].
    erewrite bind_ret
      by (apply load_existing_claude_settings_doc; [exact Hr | exact Hdoc]).
    erewrite bind_ret by (rewrite Hup; reflexivity).
    erewrite bind_ret.
    2:{ apply open_w_file; cbn [denied nodes emit]; [exact Hp|].
        fold path. rewrite Hdoc. discriminate. }
    erewrite bind_ret by reflexivity. reflexivity.
  - cbn [nodes denied unreadable trace emit set_nodes]. fold path dir.
    repeat split; [apply insert_insert_eq | now rewrite <- !app_assoc].
Qed.

Lemma settings_path_not_dir project :
  path_join project ".claude" <> get_claude_config_path project.
Proof.
  unfold get_claude_config_path. unfold path_join at 2.
  intros H. apply (f_equal String.length) in H.
  rewrite StrFacts.app_length in H. simpl in H. lia.
Qed.

End Settings.



(* ===================================================================== *)
(** * Reasoning about traces *)
(* ===================================================================== *)

Module TraceFacts.
Import MonadFacts.

Section Inv.

Variable P : event -> Prop.
Variable G : Prop.

Lemma inv_nil k : inv P G k [].
Proof. split; [constructor | discriminate]. Qed.

Lemma inv_single k e : P e -> is_signal e = false -> inv P G k [e].
Proof.
  intros HP Hs. split; [now repeat constructor|].
  simpl. rewrite Hs. discriminate.
Qed.

Lemma inv_seq evs1 k evs2 :
  inv P G KRet evs1 -> inv P G k evs2 -> inv P G k (evs1 ++ evs2).
Proof.
  intros [F1 S1] [F2 S2]. split; [now apply Forall_app|].
  intros HG Hs. rewrite existsb_app in Hs. apply orb_true_iff in Hs as [Hs|Hs].
  - discriminate (S1 HG Hs).
  - exact (S2 HG Hs).
Qed.

Lemma inv_catch e evs1 k evs2 :
  inv P G (KRaise e) evs1 -> e <> SystemExit 0 ->
  inv P G k evs2 -> inv P G k (evs1 ++ evs2).
Proof.
  intros [F1 S1] Hne [F2 S2]. split; [now apply Forall_app|].
  intros HG Hs. rewrite existsb_app in Hs. apply orb_true_iff in Hs as [Hs|Hs].
  - specialize (S1 HG Hs). congruence.
  - exact (S2 HG Hs).
Qed.

Context {S : Type} `{Traced S}.

Lemma sat_ret {A} (a : A) : sat (inv P G) (ret (S := S) a).
Proof. intros s. exists []. simpl. rewrite app_nil_r. split; [reflexivity | apply inv_nil]. Qed.

Lemma sat_raise {A} e : sat (inv P G) (raise (S := S) (A := A) e).
Proof. intros s. exists []. simpl. rewrite app_nil_r. split; [reflexivity | apply inv_nil]. Qed.

Lemma sat_spin {A} : sat (inv P G) (spin (S := S) (A := A)).
Proof. intros s. exists []. simpl. rewrite app_nil_r. split; [reflexivity | apply inv_nil]. Qed.

(** A computation that leaves the trace alone. *)
Lemma sat_silent {A} (m : M S A) :
  (forall s, tr (snd (m s)) = tr s) -> sat (inv P G) m.
Proof.
  intros Hm s. exists []. rewrite app_nil_r. split; [apply Hm | apply inv_nil].
Qed.

Lemma sat_bind {A B} (m : M S A) (k : A -> M S B) :
  sat (inv P G) m -> (forall a, sat (inv P G) (k a)) ->
  sat (inv P G) (bind m k).
Proof.
  intros Hm Hk s. destruct (Hm s) as (evs1 & T1 & I1).
  unfold bind. destruct (m s) as [[a|e|] s1]; cbn [fst snd kind_of] in *.
  - destruct (Hk a s1) as (evs2 & T2 & I2). exists (evs1 ++ evs2). split.
    + rewrite T2, T1. now rewrite app_assoc.
    + now apply inv_seq.
  - exists evs1. now split.
  - exists evs1. now split.
Qed.

Lemma sat_try {A} (m : M S A) handler :
  sat (inv P G) m ->
  (forall e h, handler e = Some h -> e <> SystemExit 0 /\ sat (inv P G) h) ->
  sat (inv P G) (try_except m handler).
Proof.
  intros Hm Hh s. destruct (Hm s) as (evs1 & T1 & I1).
  unfold try_except. destruct (m s) as [[a|e|] s1]; cbn [fst snd kind_of] in *.
  - exists evs1. now split.
  - destruct (handler e) as [h|] eqn:Eh.
    + destruct (Hh e h Eh) as [Hne Hsat].
      destruct (Hsat s1) as (evs2 & T2 & I2). exists (evs1 ++ evs2). split.
      * rewrite T2, T1. now rewrite app_assoc.
      * now apply (inv_catch e).
    + exists evs1. now split.
  - exists evs1. now split.
Qed.

Lemma sat_try_on_Exception {A} (m : M S A) (h : exn -> M S A) :
  sat (inv P G) m -> (forall e, sat (inv P G) (h e)) ->
  sat (inv P G) (try_except m (on_Exception h)).
Proof.
  intros Hm Hh. apply sat_try; [exact Hm|]. intros e k Hk.
  unfold on_Exception in Hk. destruct (is_Exception e) eqn:Ee; [|discriminate].
  injection Hk as <-. split; [|apply Hh]. intros ->. discriminate Ee.
Qed.

End Inv.

Lemma sat_weaken {S A} `{Traced S} (P Q : event -> Prop) (G : Prop)
  (m : M S A) :
  (forall e, P e -> Q e) -> sat (inv P G) m -> sat (inv Q G) m.
Proof.
  intros HPQ Hm s. destruct (Hm s) as (evs & T & [F Sg]).
  exists evs. split; [exact T|]. split; [|exact Sg].
  eapply Forall_impl; [exact F | exact HPQ].
Qed.

Lemma sat_lift {A} P G (m : M world A) :
  sat (inv P G) m -> sat (inv P G) (lift m).
Proof.
  intros Hm [self w]. destruct (Hm w) as (evs & T & I).
  exists evs. unfold lift. cbn [fst snd]. destruct (m w) as [o w'].
  cbn [fst snd] in *. now split.
Qed.

(** A primitive that records events of the class, none of them a signal. *)
Lemma sat_plain {A} (P : event -> Prop) G (m : M world A) :
  (forall w, exists evs,
      trace (snd (m w)) = trace w ++ evs
      /\ Forall P evs /\ existsb is_signal evs = false) ->
  sat (inv P G) m.
Proof.
  intros Hm w. destruct (Hm w) as (evs & T & F & Sg).
  exists evs. split; [exact T|]. split; [exact F|].
  intros _ Hs. congruence.
Qed.

Lemma trace_set_state r st w : trace (set_state r st w) = trace w.
Proof. now destruct r. Qed.

Section Primitives.

Variable E : environment.
Variable P : event -> Prop.
Variable G : Prop.

Ltac one e :=
  exists [e];
  split; [cbn [snd]; rewrite ?trace_set_state; reflexivity
         | split; [now repeat constructor | reflexivity]].
Ltac none := exists []; split; [now rewrite app_nil_r | split; [constructor | reflexivity]].

Lemma sat_log l msg : P (ELog l msg) -> sat (inv P G) (log l msg).
Proof. intros HP. apply sat_plain. intros w. one (ELog l msg). Qed.

Lemma sat_sleep n : P (ESleep n) -> sat (inv P G) (sleep n).
Proof. intros HP. apply sat_plain. intros w. one (ESleep n). Qed.

Lemma sat_emit e :
  P e -> is_signal e = false -> sat (inv P G) (modify (emit e)).
Proof.
  intros HP Hs. apply sat_plain. intros w. exists [e].
  split; [reflexivity | split; [now repeat constructor | simpl; now rewrite Hs]].
Qed.

Lemma sat_get_world : sat (inv P G) get_world.
Proof. now apply sat_silent. Qed.

Lemma sat_get_self : sat (inv P G) get_self.
Proof. now apply sat_silent. Qed.

Lemma sat_put_self self : sat (inv P G) (put_self self).
Proof. now apply sat_silent. Qed.

(** Reading an oracle. *)
Lemma sat_oracle {S A} `{Traced S} (o : S -> outcome A) :
  sat (inv P G) (fun s => (o s, s)).
Proof. now apply sat_silent. Qed.

Lemma sat_ensure_directory p : P (EMkdir p) -> sat (inv P G) (ensure_directory p).
Proof.
  intros HP. apply sat_plain. intros w. unfold ensure_directory.
  destruct (nodes w !! p) as [[]|]; [| | |destruct (bool_decide _)];
    one (EMkdir p).
Qed.

Lemma sat_open_w p : P (EOpenW p) -> sat (inv P G) (open_w p).
Proof.
  intros HP. apply sat_plain. intros w. unfold open_w.
  destruct (bool_decide _); [|destruct (nodes w !! p) as [[]|]];
    one (EOpenW p).
Qed.

Lemma sat_json_dump p j : P (EDump p j) -> sat (inv P G) (json_dump p j).
Proof. intros HP. apply sat_plain. intros w. one (EDump p j). Qed.

Lemma sat_json_load p : sat (inv P G) (json_load p).
Proof.
  apply sat_silent. intros w. unfold json_load.
  destruct (bool_decide _); [|destruct (nodes w !! p) as [[]|]]; reflexivity.
Qed.

Lemma sat_unlink p : P (EUnlink p) -> sat (inv P G) (unlink p).
Proof.
  intros HP. apply sat_plain. intros w. unfold unlink.
  destruct (bool_decide _); [|destruct (nodes w !! p)]; one (EUnlink p).
Qed.

Lemma sat_get_virtual_env_python project :
  sat (inv P G) (get_virtual_env_python project).
Proof.
  apply sat_silent. intros w. unfold get_virtual_env_python.
  destruct (negb _); [|destruct (negb _)]; reflexivity.
Qed.

Lemma sat_popen r cmd env :
  P (ESpawn r cmd env) -> sat (inv P G) (popen E r cmd env).
Proof.
  intros HP. apply sat_plain. intros w. unfold popen.
  destruct (popen_error E r); [none|]. one (ESpawn r cmd env).
Qed.

Lemma sat_poll r answer :
  (forall res, P (EPoll r res)) -> sat (inv P G) (poll r answer).
Proof.
  intros HP. apply sat_plain. intros w. unfold poll.
  destruct (state_of r w) as [| |c]; [|destruct answer as [c|]|];
    first [one (EPoll r (@None Z)) | one (EPoll r (Some c))].
Qed.

Lemma sat_terminate r : P (ETerminate r) -> sat (inv P G) (terminate E r).
Proof.
  intros HP. apply sat_plain. intros w. unfold terminate.
  destruct (state_of r w), (terminate_error (stop E r)); one (ETerminate r).
Qed.

Lemma sat_wait r t : P (EWait r t) -> sat (inv P G) (wait E r t).
Proof.
  intros HP. apply sat_plain. intros w. unfold wait.
  destruct (state_of r w); [| destruct (wait_outcome (stop E r)) |];
    one (EWait r t).
Qed.

Lemma sat_kill r : P (EKill r) -> sat (inv P G) (kill E r).
Proof.
  intros HP. apply sat_plain. intros w. unfold kill.
  destruct (state_of r w), (kill_error (stop E r)); one (EKill r).
Qed.

Lemma sat_run_command cmd : P (ERun cmd) -> sat (inv P G) (run_command E cmd).
Proof.
  intros HP. apply sat_plain. intros w. unfold run_command.
  destruct (command_result E cmd w) as [[|?|?]| | |]; one (ERun cmd).
Qed.

Lemma sat_rmtree p : P (ERmtree p) -> sat (inv P G) (rmtree E p).
Proof.
  intros HP. apply sat_plain. intros w. unfold rmtree.
  destruct (rmtree_error E); one (ERmtree p).
Qed.

Lemma sat_venv_create p : P (EVenvCreate p) -> sat (inv P G) (venv_create E p).
Proof.
  intros HP. apply sat_plain. intros w. unfold venv_create.
  destruct (venv_create_error E); one (EVenvCreate p).
Qed.

End Primitives.

End TraceFacts.

(* ===================================================================== *)
(** * What each method adds to the trace *)
(* ===================================================================== *)

Create HintDb sat discriminated.

#[export] Hint Resolve
  TraceFacts.sat_log TraceFacts.sat_sleep TraceFacts.sat_emit
  TraceFacts.sat_get_world
  TraceFacts.sat_get_self TraceFacts.sat_put_self
  TraceFacts.sat_ensure_directory TraceFacts.sat_open_w
  TraceFacts.sat_json_dump TraceFacts.sat_json_load TraceFacts.sat_unlink
  TraceFacts.sat_get_virtual_env_python TraceFacts.sat_popen
  TraceFacts.sat_poll TraceFacts.sat_terminate TraceFacts.sat_wait
  TraceFacts.sat_kill TraceFacts.sat_run_command TraceFacts.sat_rmtree
  TraceFacts.sat_venv_create : sat.

#[export] Hint Extern 1 (_ = true) => reflexivity : sat.
#[export] Hint Extern 1 (_ = false) => reflexivity : sat.

(** Follow the structure of a monadic term. *)
Ltac sat_go :=
  repeat first
    [ progress cbv zeta
    | match goal with
      | |- sat _ (ret _) => apply TraceFacts.sat_ret
      | |- sat _ (raise _) => apply TraceFacts.sat_raise
      | |- sat _ spin => apply TraceFacts.sat_spin
      | |- sat _ (bind _ _) => apply TraceFacts.sat_bind; [| intros ?]
      | |- sat _ (lift _) => apply TraceFacts.sat_lift
      | |- sat _ (try_except _ (on_Exception _)) =>
          apply TraceFacts.sat_try_on_Exception; [| intros ?]
      | |- sat _ (fun s => (_, s)) => apply TraceFacts.sat_oracle
      | |- sat _ (if ?b then _ else _) => destruct b
      | |- sat _ (match ?x with _ => _ end) => destruct x
      end
    | solve [eauto with sat] ].

Module Phases.
Import TraceFacts.

Section Down.

Variable E : environment.
Variable P : event -> Prop.
Variable G : Prop.

(** ** [cleanup] *)

Hypothesis HP : forall e, stop_event e = true -> P e.

Lemma sat_stop_process r t name : sat (inv P G) (stop_process E r t name).
Proof.
  unfold stop_process. apply sat_try; [sat_go|].
  intros e h Hh. destruct (is_TimeoutExpired e) eqn:Et.
  - injection Hh as <-. split; [intros ->; discriminate | sat_go].
  - unfold on_Exception in Hh. destruct (is_Exception e) eqn:Ee; [|discriminate].
    injection Hh as <-. split; [intros ->; discriminate | sat_go].
Qed.

Lemma sat_remove_config path : sat (inv P G) (remove_config path).
Proof. unfold remove_config. sat_go. Qed.

Lemma sat_cleanup : sat (inv P G) (cleanup E).
Proof.
  unfold cleanup. pose proof sat_stop_process. pose proof sat_remove_config.
  sat_go.
Qed.

End Down.

End Phases.

(* ===================================================================== *)
(** * Claim C7: the cleanup sequence *)
(* ===================================================================== *)

Module Cleanup.
Import MonadFacts TraceFacts.

Lemma state_of_emit r e w : state_of r (emit e w) = state_of r w.
Proof. now destruct r. Qed.

Lemma nodes_set_state r st w : nodes (set_state r st w) = nodes w.
Proof. now destruct r. Qed.

Lemma denied_set_state r st w : denied (set_state r st w) = denied w.
Proof. now destruct r. Qed.

Section Steps.

Variable E : environment.
Hypothesis kills : kills_succeed E.

(** One stopping step returns, touches no file, and has one of the four
    shapes. *)
Lemma stop_process_spec r t name w :
  exists w' rest,
    stop_process E r t name w = (Ret tt, w')
    /\ trace w' = trace w ++ ETerminate r :: rest
    /\ stop_shape r t rest
    /\ nodes w' = nodes w /\ denied w' = denied w.
Proof.
  unfold stop_process, try_except, bind, terminate, wait, kill, stop_shape.
  cbv beta zeta. rewrite (kills r).
  destruct (state_of r w) eqn:Es;
    destruct (terminate_error (stop E r));
    cbn [is_TimeoutExpired on_Exception is_Exception];
    rewrite ?state_of_emit, ?Es;
    try destruct (wait_outcome (stop E r));
    cbn [is_TimeoutExpired on_Exception is_Exception];
    rewrite ?state_of_emit, ?Es;
    unfold log, modify;
    do 2 eexists;
    (split; [reflexivity|]);
    rewrite ?trace_set_state, ?nodes_set_state, ?denied_set_state;
    cbn [trace emit nodes denied];
    rewrite <- ?app_assoc; cbn [app];
    (split; [reflexivity|]);
    (split; [|split; reflexivity]);
    first [ left; eexists; reflexivity
          | right; left; reflexivity
          | right; right; left; reflexivity
          | right; right; right; eexists; reflexivity ].
Qed.

Lemma remove_config_spec (requested : bool) path w :
  exists w' evs,
    (if requested then remove_config path else ret (S := world) tt) w
    = (Ret tt, w')
    /\ trace w' = trace w ++ evs
    /\ retract_step requested path (nodes w) (nodes w') evs.
Proof.
  unfold retract_step. destruct requested; cbn [andb].
  - unfold remove_config, try_except, bind, get_world, path_exists, unlink.
    cbv beta zeta.
    destruct (nodes w !! path) eqn:En; cbv beta iota.
    + destruct (bool_decide (path ∈ denied w));
        cbv beta iota zeta; rewrite ?En;
        cbn [on_Exception is_Exception]; unfold log, modify;
        do 2 eexists; (split; [reflexivity|]);
        cbn [trace emit nodes set_nodes]; rewrite <- ?app_assoc; cbn [app];
        (split; [reflexivity|]); [right; eauto | now left].
    + do 2 eexists. split; [reflexivity|]. now rewrite app_nil_r.
  - do 2 eexists. split; [reflexivity|]. now rewrite app_nil_r.
Qed.

Lemma cleanup_spec self w :
  exists w' em ej ec,
    cleanup E (self, w) = (Ret tt, (self, w'))
    /\ trace w' = trace w ++ em ++ ej ++ ec
    /\ stop_step (mcp_process self) 5 em
    /\ stop_step (jupyter_process self) 10 ej
    /\ retract_step (cleanup_on_exit self) (mcp_config_path self)
         (nodes w) (nodes w') ec.
Proof.
  unfold cleanup.
  erewrite bind_ret by reflexivity. cbn [fst].
  assert (H1 : exists w1 em,
             (match mcp_process self with
              | Some r => lift (stop_process E r 5 "MCP server")
              | None => ret tt
              end) (self, w) = (Ret tt, (self, w1))
             /\ trace w1 = trace w ++ em
             /\ stop_step (mcp_process self) 5 em
             /\ nodes w1 = nodes w).
  { destruct (mcp_process self) as [r|]; cbn [stop_step].
    - destruct (stop_process_spec r 5 "MCP server" w)
        as (w1 & rest & Eq & T & Sh & N & _).
      exists w1, (ETerminate r :: rest). rewrite (lift_eq _ _ _ _ _ Eq).
      repeat split; eauto.
    - exists w, []. rewrite app_nil_r. now repeat split. }
  destruct H1 as (w1 & em & Eq1 & T1 & S1 & N1).
  erewrite bind_ret by exact Eq1.
  assert (H2 : exists w2 ej,
             (match jupyter_process self with
              | Some r => lift (stop_process E r 10 "Jupyter Lab")
              | None => ret tt
              end) (self, w1) = (Ret tt, (self, w2))
             /\ trace w2 = trace w1 ++ ej
             /\ stop_step (jupyter_process self) 10 ej
             /\ nodes w2 = nodes w1).
  { destruct (jupyter_process self) as [r|]; cbn [stop_step].
    - destruct (stop_process_spec r 10 "Jupyter Lab" w1)
        as (w2 & rest & Eq & T & Sh & N & _).
      exists w2, (ETerminate r :: rest). rewrite (lift_eq _ _ _ _ _ Eq).
      repeat split; eauto.
    - exists w1, []. rewrite app_nil_r. now repeat split. }
  destruct H2 as (w2 & ej & Eq2 & T2 & S2 & N2).
  erewrite bind_ret by exact Eq2.
  destruct (remove_config_spec (cleanup_on_exit self) (mcp_config_path self) w2)
    as (w3 & ec & Eq3 & T3 & S3).
  exists w3, em, ej, ec. split.
  - destruct (cleanup_on_exit self).
    + now rewrite (lift_eq _ _ _ _ _ Eq3).
    + cbn in Eq3. injection Eq3 as <-. reflexivity.
  - split; [rewrite T3, T2, T1; now rewrite <- !app_assoc|].
    split; [exact S1|]. split; [exact S2|].
    rewrite N2, N1 in S3. exact S3.
Qed.

(** However the steps of [run] ended, short of looping on, the last
    thing [run] did was a [cleanup] that returned. *)
Lemma run_ends_in_cleanup s :
  fst (run E s) <> Spin ->
  exists s1, cleanup E s1 = (Ret tt, snd (run E s)).
Proof.
  unfold run, try_finally.
  destruct (try_except (run_steps E) _ s) as [[b|e|] [self1 w1]] eqn:Eb;
    cbn [fst snd].
  - intros _. destruct (cleanup_spec self1 w1) as (w' & ? & ? & ? & Eq & _).
    exists (self1, w1). rewrite Eq. reflexivity.
  - intros _. destruct (cleanup_spec self1 w1) as (w' & ? & ? & ? & Eq & _).
    exists (self1, w1). rewrite Eq. reflexivity.
  - congruence.
Qed.

End Steps.

End Cleanup.

(** C7 (as amended).  Provided no forced kill fails, [cleanup] returns
    normally and adds to the trace, in this order: the stopping step of
    the bridge process (if one was started), the stopping step of the
    notebook server (if one was started), and the retraction of
    [.mcp.json] when cleanup was requested ([cleanup_on_exit]) and the
    file is there.  Each stopping step starts with [terminate]; what
    [terminate] or [wait] raises is logged as an error and the next step
    follows all the same; a failing [unlink] is logged too.  And [run]
    ends with such a [cleanup] whenever it ends. *)
Theorem cleanup_sequence (E : environment) (self : setup) (w : world) :
  kills_succeed E ->
  (exists w' em ej ec,
      cleanup E (self, w) = (Ret tt, (self, w'))
      /\ trace w' = trace w ++ em ++ ej ++ ec
      /\ stop_step (mcp_process self) 5 em
      /\ stop_step (jupyter_process self) 10 ej
      /\ retract_step (cleanup_on_exit self) (mcp_config_path self)
           (nodes w) (nodes w') ec)
  /\ (fst (run E (self, w)) <> Spin ->
      exists s1, cleanup E s1 = (Ret tt, snd (run E (self, w)))).
Proof.
  intros Hk. split.
  - now apply Cleanup.cleanup_spec.
  - now apply Cleanup.run_ends_in_cleanup.
Qed.

Lemma cleanup_sequence_witness :
  (exists w' em ej ec,
      cleanup Example.env0 (Example.self0, Example.world0)
      = (Ret tt, (Example.self0, w'))
      /\ trace w' = trace Example.world0 ++ em ++ ej ++ ec
      /\ stop_step (mcp_process Example.self0) 5 em
      /\ stop_step (jupyter_process Example.self0) 10 ej
      /\ retract_step (cleanup_on_exit Example.self0)
           (mcp_config_path Example.self0)
           (nodes Example.world0) (nodes w') ec)
  /\ (fst (run Example.env0 (Example.self0, Example.world0)) <> Spin ->
      exists s1,
        cleanup Example.env0 s1
        = (Ret tt, snd (run Example.env0 (Example.self0, Example.world0)))).
Proof.
  apply (cleanup_sequence Example.env0 Example.self0 Example.world0).
  intros r. reflexivity.
Defined.

(** C7 as the specification states it has the retraction in every
    cleanup.  With [--no-cleanup] the two processes are stopped and
    [.mcp.json] is left where it is. *)
Lemma cleanup_without_retraction :
  let self := mkSetup None None false false true "/work" "/work/nb.ipynb"
                "/work/.mcp.json" [] (Some Jupyter) (Some Mcp)
                (Some 8888%N) (Some "abcdef0123456789")
                (Some "http://localhost:8888") in
  let w := mkWorld (<["/work/.mcp.json" := Doc (JObj [])]> Example.nodes0)
             ∅ ∅ {[Example.python0]} Running Running [] in
  let r := cleanup Example.env0 (self, w) in
  fst r = Ret tt
  /\ trace (snd (snd r))
     = [ETerminate Mcp; EWait Mcp 5; ETerminate Jupyter; EWait Jupyter 10]
  /\ nodes (snd (snd r)) !! "/work/.mcp.json" = Some (Doc (JObj [])).
Proof. vm_compute. repeat split. Qed.

(** Why the theorem asks that no forced kill fails: what [kill] raises
    inside the [except TimeoutExpired] clause leaves [cleanup], and the
    steps after it are not attempted. *)
Lemma cleanup_kill_failure_escapes :
  let E := mkEnv [] "/usr/bin/python3" "/work" (fun p => p)
             (fun p => Ret p) (3, 11)%nat Example.urlparse0 (fun _ => None)
             [] Quiet None []
             (fun _ => mkStopping None WaitTimesOut (Some OSError))
             (fun _ _ => Completed 0) None None (Ret true) in
  let self := mkSetup None None false true true "/work" "/work/nb.ipynb"
                "/work/.mcp.json" [] (Some Jupyter) (Some Mcp)
                None None None in
  let w := mkWorld (<["/work/.mcp.json" := Doc (JObj [])]> Example.nodes0)
             ∅ ∅ ∅ Running Running [] in
  let r := cleanup E (self, w) in
  fst r = Raise (Builtin OSError "kill failed")
  /\ trace (snd (snd r)) = [ETerminate Mcp; EWait Mcp 5; EKill Mcp]
  /\ nodes (snd (snd r)) !! "/work/.mcp.json" = Some (Doc (JObj [])).
Proof. vm_compute. repeat split. Qed.

(* ===================================================================== *)
(** * The phases of [run], one by one *)
(* ===================================================================== *)

Module Steps.
Import MonadFacts TraceFacts.

Section Sat.

Variable E : environment.
Variable P : event -> Prop.
Variable G : Prop.

Hypothesis Hdown : forall e, down_event e = true -> P e.
Hypothesis HG : G -> kills_succeed E.

Lemma stop_is_down e : stop_event e = true -> P e.
Proof. intros H. apply Hdown. unfold down_event. now rewrite H. Qed.

(** A delivered signal: the handler's [cleanup], then [SystemExit(0)]. *)
Lemma sat_deliver sig : sat (inv P G) (deliver E sig).
Proof.
  intros [self w].
  destruct (Phases.sat_cleanup E P False stop_is_down
              (self, emit (ESignal sig) w)) as (evs & T & [F _]).
  exists (ESignal sig :: evs). unfold deliver, _signal_handler.
  rewrite (bind_ret _ _ _ tt (self, emit (ESignal sig) w)) by reflexivity.
  rewrite bind_unfold.
  destruct (cleanup E (self, emit (ESignal sig) w)) as [[[]|e|] s1] eqn:Ec;
    cbn [fst snd kind_of raise] in *;
    (split; [unfold tr, traced_object in *; cbn [snd trace emit] in T;
             rewrite T; now rewrite <- app_assoc|]);
    (split; [constructor; [now apply Hdown | exact F]|]).
  - reflexivity.
  - intros HG' _. exfalso.
    destruct (Cleanup.cleanup_spec E (HG HG') self (emit (ESignal sig) w))
      as (? & ? & ? & ? & Eq & _). congruence.
  - intros HG' _. exfalso.
    destruct (Cleanup.cleanup_spec E (HG HG') self (emit (ESignal sig) w))
      as (? & ? & ? & ? & Eq & _). congruence.
Qed.

Hypothesis Hsleep : forall n, P (ESleep n).

Lemma sat_delay i n : sat (inv P G) (delay E i n).
Proof. unfold delay. pose proof sat_deliver. sat_go. Qed.

Hypothesis Hpoll : forall r res, P (EPoll r res).

(** ** [monitor_processes] *)

Lemma sat_check_alive p answer msg : sat (inv P G) (check_alive p answer msg).
Proof. unfold check_alive. sat_go. Qed.

Lemma sat_monitor_loop ticks : sat (inv P G) (monitor_loop E ticks).
Proof.
  induction ticks as [|t ticks IH]; cbn [monitor_loop]; [apply sat_spin|].
  pose proof sat_check_alive. pose proof sat_delay. sat_go.
Qed.

Lemma sat_monitor_processes : sat (inv P G) (monitor_processes E).
Proof.
  unfold monitor_processes. apply sat_try; [apply sat_monitor_loop|].
  intros e h Hh. destruct e; try discriminate Hh.
  injection Hh as <-. split; [discriminate | apply sat_ret].
Qed.

(** ** [start_jupyter_lab] *)

Hypothesis Hread : forall line, P (EReadline line).
Hypothesis Hspawn_j : forall cmd env, P (ESpawn Jupyter cmd env).

Lemma sat_read_step o : sat (inv P G) (read_step E o).
Proof.
  unfold read_step. pose proof sat_deliver.
  destruct o; sat_go.
Qed.

Lemma sat_startup_loop obs : sat (inv P G) (startup_loop E obs).
Proof.
  induction obs as [|o obs IH]; cbn [startup_loop]; [apply sat_raise|].
  pose proof sat_read_step. sat_go.
Qed.

Lemma sat_reraise prefix (m : M (setup * world) bool) :
  sat (inv P G) m ->
  sat (inv P G) (try_except m (reraise_as_setup_error prefix)).
Proof.
  intros Hm. unfold reraise_as_setup_error.
  apply sat_try_on_Exception; [exact Hm|]. intros e. sat_go.
Qed.

Lemma sat_start_jupyter_lab : sat (inv P G) (start_jupyter_lab E).
Proof.
  unfold start_jupyter_lab. pose proof sat_startup_loop.
  apply sat_bind; [sat_go|]. intros self.
  apply sat_bind; [sat_go|]. intros venv_python.
  apply sat_reraise. sat_go.
Qed.

(** ** [start_mcp_server] *)

Hypothesis Hlog : forall l msg, P (ELog l msg).
Hypothesis Hspawn_m : forall cmd env, P (ESpawn Mcp cmd env).

Lemma sat_validate_url url name : sat (inv P G) (validate_url E url name).
Proof. unfold validate_url. sat_go. Qed.

Lemma sat_validate_token token name : sat (inv P G) (validate_token token name).
Proof. unfold validate_token. sat_go. Qed.

Lemma sat_check_not_empty env : sat (inv P G) (check_not_empty env).
Proof.
  induction env as [|[key value] env IH]; cbn [check_not_empty]; sat_go.
Qed.

Lemma sat_create_jupyter_environment url token notebook :
  sat (inv P G) (create_jupyter_environment E url token notebook).
Proof.
  unfold create_jupyter_environment.
  pose proof sat_validate_url. pose proof sat_validate_token.
  pose proof sat_check_not_empty. sat_go.
Qed.

Lemma sat_start_mcp_server : sat (inv P G) (start_mcp_server E).
Proof.
  unfold start_mcp_server.
  pose proof sat_create_jupyter_environment. pose proof sat_delay.
  apply sat_bind; [sat_go|]. intros self.
  destruct (details_missing self); [apply sat_raise|].
  apply sat_bind; [sat_go|]. intros env.
  apply sat_reraise. sat_go.
Qed.

(** ** [generate_configurations] *)

Hypothesis Hconfig : forall e, config_event e = true -> P e.

Lemma sat_generate_mcp_config : sat (inv P G) (_generate_mcp_config E).
Proof.
  unfold _generate_mcp_config. pose proof sat_create_jupyter_environment.
  sat_go.
Qed.

Lemma sat_ensure_claude_directory project :
  sat (inv P G) (ensure_claude_directory project).
Proof. unfold ensure_claude_directory. sat_go. Qed.

Lemma sat_load_existing_claude_settings project :
  sat (inv P G) (load_existing_claude_settings project).
Proof.
  unfold load_existing_claude_settings.
  apply sat_bind; [sat_go|]. intros w.
  destruct (negb _); [apply sat_ret|].
  apply sat_try; [sat_go|]. intros e h Hh.
  destruct (is_JSONDecodeError e) eqn:Ej.
  - injection Hh as <-. split; [intros ->; discriminate | sat_go].
  - unfold on_Exception in Hh. destruct (is_Exception e) eqn:Ee; [|discriminate].
    injection Hh as <-. split; [intros ->; discriminate | sat_go].
Qed.

Lemma sat_generate_claude_settings project server :
  sat (inv P G) (generate_claude_settings project server).
Proof.
  unfold generate_claude_settings.
  pose proof sat_ensure_claude_directory.
  pose proof sat_load_existing_claude_settings. sat_go.
Qed.

Lemma sat_generate_configurations : sat (inv P G) (generate_configurations E).
Proof.
  unfold generate_configurations.
  pose proof sat_generate_mcp_config. pose proof sat_generate_claude_settings.
  sat_go.
Qed.

(** ** The steps of [run] together *)

Lemma sat_run_steps : sat (inv P G) (run_steps E).
Proof.
  unfold run_steps.
  pose proof sat_start_jupyter_lab. pose proof sat_start_mcp_server.
  pose proof sat_generate_configurations. pose proof sat_monitor_processes.
  sat_go.
Qed.

Lemma sat_run_body :
  sat (inv P G)
    (try_except (run_steps E)
       (on_Exception
          (fun e =>
             lift (log Error (if is_ServerSetupError e then exn_str e
                              else "Unexpected error: " +:+ exn_str e)) ;;
             ret false))).
Proof. pose proof sat_run_steps. sat_go. Qed.

End Sat.

End Steps.

(* ===================================================================== *)
(** * Claim C8: the order of launch and write *)
(* ===================================================================== *)

Module Order.
Import MonadFacts TraceFacts.

(** ** Lists cut at an element *)

Lemma cut_app {A} (l1 l2 a b : list A) (e : A) :
  l1 ++ l2 = a ++ e :: b ->
  (exists a', a = l1 ++ a' /\ l2 = a' ++ e :: b)
  \/ (exists b', l1 = a ++ e :: b' /\ b = b' ++ l2).
Proof.
  revert a. induction l1 as [|x l1 IH]; intros a H.
  - left. exists a. now split.
  - destruct a as [|y a].
    + right. exists l1. simpl in H. injection H as -> <-. now split.
    + simpl in H. injection H as -> H. destruct (IH a H) as [(a' & -> & ->)|(b' & -> & ->)].
      * left. exists a'. now split.
      * right. exists b'. now split.
Qed.

Lemma cut_in_class {A} (Q : A -> bool) (l a b : list A) (e : A) :
  Forall (fun x => Q x = false) l -> l = a ++ e :: b -> Q e = false.
Proof.
  intros F ->. apply Forall_app in F as [_ F]. now inversion F.
Qed.

Lemma cut_after {A} (Q : A -> bool) (l1 l2 a b : list A) (e : A) :
  Forall (fun x => Q x = false) l1 -> Q e = true ->
  l1 ++ l2 = a ++ e :: b ->
  exists a', a = l1 ++ a' /\ l2 = a' ++ e :: b.
Proof.
  intros F He H. destruct (cut_app _ _ _ _ _ H) as [?|(b' & Hl & _)]; [assumption|].
  pose proof (cut_in_class Q _ _ _ _ F Hl). congruence.
Qed.

Lemma quiet_no_spawn e : quiet e = true -> is_bridge_spawn e = false.
Proof. unfold quiet. now destruct (is_bridge_spawn e). Qed.

Lemma quiet_no_write e : quiet e = true -> is_write e = false.
Proof. unfold quiet. destruct (is_bridge_spawn e), (is_write e); easy. Qed.

(** Quiet events after the others change nothing. *)
Lemma facts_before_launch_app evs tail :
  facts_before_launch evs -> Forall (fun e => is_bridge_spawn e = false) tail ->
  facts_before_launch (evs ++ tail).
Proof.
  intros H F a b cmd env Heq.
  destruct (cut_app _ _ _ _ _ Heq) as [(a' & -> & Ht)|(b' & He & _)].
  - pose proof (cut_in_class is_bridge_spawn _ _ _ _ F Ht). discriminate.
  - exact (H _ _ _ _ He).
Qed.

Lemma running_before_write_app evs tail :
  running_before_write evs -> Forall (fun e => is_write e = false) tail ->
  running_before_write (evs ++ tail).
Proof.
  intros H F a b e Heq Hw.
  destruct (cut_app _ _ _ _ _ Heq) as [(a' & -> & Ht)|(b' & He & _)].
  - pose proof (cut_in_class is_write _ _ _ _ F Ht). congruence.
  - exact (H _ _ _ He Hw).
Qed.

Lemma facts_before_launch_quiet evs :
  Forall (fun e => is_bridge_spawn e = false) evs -> facts_before_launch evs.
Proof.
  intros F a b cmd env Heq.
  pose proof (cut_in_class is_bridge_spawn _ _ _ _ F Heq). discriminate.
Qed.

Lemma running_before_write_quiet evs :
  Forall (fun e => is_write e = false) evs -> running_before_write evs.
Proof.
  intros F a b e Heq Hw.
  pose proof (cut_in_class is_write _ _ _ _ F Heq). congruence.
Qed.

(** ** Inverting the monad *)

Lemma bind_inv_ret {S A B} (m : M S A) (k : A -> M S B) s b s' :
  bind m k s = (Ret b, s') ->
  exists a s1, m s = (Ret a, s1) /\ k a s1 = (Ret b, s').
Proof.
  unfold bind. destruct (m s) as [[a|e|] s1]; intros H; [eauto | discriminate..].
Qed.

Lemma try_inv_ret {S A} (m : M S A) h s b s' :
  try_except m h s = (Ret b, s') ->
  m s = (Ret b, s')
  \/ exists e s1 k, m s = (Raise e, s1) /\ h e = Some k /\ k s1 = (Ret b, s').
Proof.
  unfold try_except. destruct (m s) as [[a|e|] s1]; intros H.
  - now left.
  - destruct (h e) as [k|] eqn:Eh; [|discriminate]. right. eauto 6.
  - discriminate.
Qed.

Lemma lift_inv {A} (m : M world A) s o s' :
  lift m s = (o, s') -> m (snd s) = (o, snd s') /\ fst s' = fst s.
Proof.
  unfold lift. destruct (m (snd s)) as [o' w']. intros H.
  injection H as <- <-. now split.
Qed.

Section Run.

Variable E : environment.

(** The trace only grows. *)
Lemma grows {S A} `{Traced S} (m : M S A) :
  sat (inv (fun _ => True) False) m ->
  forall s, exists evs, tr (snd (m s)) = tr s ++ evs.
Proof. intros Hm s. destruct (Hm s) as (evs & T & _). eauto. Qed.

Lemma deliver_not_ret sig s a s' : deliver E sig s = (Ret a, s') -> False.
Proof.
  unfold deliver, _signal_handler. intros H.
  apply bind_inv_ret in H as (? & s1 & _ & H).
  apply bind_inv_ret in H as (? & s2 & _ & H). discriminate H.
Qed.

(** ** [start_jupyter_lab] returns [True] only after a scraped line *)

Lemma read_step_found o s s' :
  read_step E o s = (Ret Found, s') ->
  exists line,
    o = JLine line
    /\ tr s' = tr s ++ [EReadline line]
    /\ _extract_jupyter_details line (fst s) = (true, fst s').
Proof.
  destruct s as [self w]. destruct o as [c| |line|c|sig]; cbn [read_step]; intros H.
  - discriminate.
  - discriminate.
  - exists line. split; [reflexivity|].
    unfold bind, lift, modify, get_self, put_self in H. cbn [fst snd] in H.
    destruct (_extract_jupyter_details line self) as [[] self'] eqn:Ex;
      cbn [fst snd] in H; [|discriminate].
    injection H as <-. now split.
  - discriminate.
  - apply bind_inv_ret in H as (? & s1 & H & _).
    now apply deliver_not_ret in H.
Qed.

Lemma sat_true_read_step o :
  sat (inv (fun _ => True) False) (read_step E o).
Proof. apply Steps.sat_read_step; solve [auto | intros []]. Qed.

Lemma startup_loop_found obs s s' :
  startup_loop E obs s = (Ret true, s') ->
  exists evs line self0,
    tr s' = tr s ++ evs /\ In (EReadline line) evs
    /\ _extract_jupyter_details line self0 = (true, fst s').
Proof.
  revert s. induction obs as [|o obs IH]; intros s H; [discriminate|].
  cbn [startup_loop] in H.
  apply bind_inv_ret in H as (p & s1 & Hp & H).
  assert (T1 : exists evs1, tr s1 = tr s ++ evs1).
  { destruct (grows (lift (poll Jupyter
                (match o with JExited c => Some c | _ => None end)))
                ltac:(sat_go) s) as (evs1 & T).
    rewrite Hp in T. eauto. }
  destruct T1 as (evs1 & T1).
  destruct p as [c|]; [discriminate|].
  apply bind_inv_ret in H as (step & s2 & Hs & H).
  destruct step.
  - injection H as <-.
    apply try_inv_ret in Hs as [Hs|(e & s3 & k & _ & Hk & Hs)].
    + apply read_step_found in Hs as (line & _ & T2 & Ex).
      exists (evs1 ++ [EReadline line]), line, (fst s1).
      split; [rewrite T2, T1; now rewrite app_assoc|].
      split; [apply in_or_app; right; now left | exact Ex].
    + unfold on_Exception in Hk. destruct (is_Exception e); [|discriminate].
      injection Hk as <-.
      apply bind_inv_ret in Hs as (? & ? & _ & Hs). discriminate.
  - assert (T2 : exists evs2, tr s2 = tr s1 ++ evs2).
    { destruct (grows (try_except (read_step E o)
                  (on_Exception (fun _ => lift (sleep 1) ;; ret Again)))
                  ltac:(pose proof sat_true_read_step; sat_go) s1)
        as (evs2 & T).
      rewrite Hs in T. eauto. }
    destruct T2 as (evs2 & T2).
    destruct (IH _ H) as (evs & line & self0 & T & Hin & Ex).
    exists (evs1 ++ evs2 ++ evs), line, self0.
    split; [rewrite T, T2, T1; now rewrite !app_assoc|].
    split; [|exact Ex]. apply in_or_app. right. apply in_or_app. now right.
Qed.

Lemma grow_eq {S A} `{Traced S} (m : M S A) s o s' :
  sat (inv (fun _ => True) False) m -> m s = (o, s') ->
  exists evs, tr s' = tr s ++ evs.
Proof. intros Hm Heq. destruct (grows m Hm s) as (evs & T). rewrite Heq in T. eauto. Qed.

Lemma reraise_not_ret prefix e k s b s' :
  reraise_as_setup_error prefix e = Some k -> k s = (Ret b, s') -> False.
Proof.
  unfold reraise_as_setup_error, on_Exception.
  destruct (is_Exception e); [|discriminate]. intros H. injection H as <-.
  destruct (is_ServerSetupError e); discriminate.
Qed.

Lemma start_jupyter_lab_found s s' :
  start_jupyter_lab E s = (Ret true, s') ->
  exists evs line self0,
    tr s' = tr s ++ evs /\ In (EReadline line) evs
    /\ _extract_jupyter_details line self0 = (true, fst s').
Proof.
  unfold start_jupyter_lab. intros H.
  apply bind_inv_ret in H as (self & s0 & Hself & H).
  injection Hself as <- <-.
  apply bind_inv_ret in H as (venv_python & s1 & Hv & H).
  assert (exists evs1, tr s1 = tr s ++ evs1) as (evs1 & T1)
    by (eapply grow_eq; [|exact Hv]; sat_go).
  apply try_inv_ret in H as [H|(e & s2 & k & _ & Hk & H)];
    [|exfalso; exact (reraise_not_ret _ _ _ _ _ _ Hk H)].
  apply bind_inv_ret in H as (? & s2 & Hp & H).
  assert (exists evs2, tr s2 = tr s1 ++ evs2) as (evs2 & T2)
    by (eapply grow_eq; [|exact Hp]; sat_go).
  apply bind_inv_ret in H as ([] & s3 & Hput & H).
  assert (T3 : tr s3 = tr s2) by (injection Hput as <-; reflexivity).
  apply startup_loop_found in H as (evs & line & self0 & T & Hin & Ex).
  exists (evs1 ++ evs2 ++ evs), line, self0.
  split; [rewrite T, T3, T2, T1; now rewrite !app_assoc|].
  split; [|exact Ex]. apply in_or_app. right. apply in_or_app. now right.
Qed.

(** ** [start_mcp_server] returns [True] only after launch, delay and
    a [poll()] that found the bridge running *)

Lemma validate_url_true url name w w' :
  validate_url E url name w = (Ret true, w') -> w' = w.
Proof.
  unfold validate_url.
  destruct (urlparse E url) as [[scheme netloc]|];
    [destruct (negb _ && negb _)|]; intros H; try discriminate H.
  now injection H.
Qed.

Lemma validate_token_true token name w w' :
  validate_token token name w = (Ret true, w') -> w' = w.
Proof.
  unfold validate_token. destruct (_ || _); [discriminate|].
  destruct (Re.rmatch token_pattern token); [|discriminate].
  intros H. now injection H.
Qed.

Lemma check_not_empty_world env w : snd (check_not_empty env w) = w.
Proof.
  induction env as [|[key value] env IH]; cbn [check_not_empty]; [reflexivity|].
  now destruct (String.eqb value "").
Qed.

Lemma create_environment_ret url token notebook s env s' :
  create_jupyter_environment E url token notebook s = (Ret env, s') ->
  snd s' = snd s /\ env = env_vars_of url token notebook.
Proof.
  unfold create_jupyter_environment. intros H.
  apply try_inv_ret in H as [H|(e & s1 & k & _ & Hk & H)].
  2:{ unfold on_Exception in Hk. destruct (is_Exception e); [|discriminate].
      injection Hk as <-. apply bind_inv_ret in H as (? & ? & _ & H).
      discriminate. }
  apply bind_inv_ret in H as (ok & s1 & Hu & H).
  apply lift_inv in Hu as [Hu Hf1]. destruct ok; [|discriminate].
  apply validate_url_true in Hu. cbn [negb] in H.
  apply bind_inv_ret in H as (ok & s2 & Ht & H).
  apply lift_inv in Ht as [Ht Hf2]. destruct ok; [|discriminate].
  apply validate_token_true in Ht. cbn [negb] in H.
  apply bind_inv_ret in H as (? & s3 & Hc & H).
  apply lift_inv in Hc as [Hc Hf3].
  apply (f_equal snd) in Hc. rewrite check_not_empty_world in Hc.
  cbn [snd] in Hc.
  apply bind_inv_ret in H as (self & s4 & Hg & H). injection Hg as <- <-.
  apply bind_inv_ret in H as ([] & s5 & Hp & H). injection Hp as <-.
  injection H as <- <-. cbn [snd]. split; [congruence | reflexivity].
Qed.

Lemma get_virtual_env_python_ret project w p w' :
  get_virtual_env_python project w = (Ret p, w') ->
  p = venv_python_path project /\ w' = w.
Proof.
  unfold get_virtual_env_python.
  destruct (negb _); [discriminate|]. destruct (negb _); [discriminate|].
  intros H. injection H as <- <-. now split.
Qed.

Lemma popen_ret r cmd env w w' :
  popen E r cmd env w = (Ret tt, w') ->
  trace w' = trace w ++ [ESpawn r cmd env] /\ state_of r w' = Running.
Proof.
  unfold popen. destruct (popen_error E r); [discriminate|].
  intros H. injection H as <-. rewrite trace_set_state. now destruct r.
Qed.

Lemma delay_ret i n s s' :
  delay E i n s = (Ret tt, s') ->
  tr s' = tr s ++ [ESleep n] /\ fst s' = fst s
  /\ forall r, state_of r (snd s') = state_of r (snd s).
Proof.
  unfold delay. intros H.
  apply bind_inv_ret in H as (? & s1 & Hs & H).
  apply lift_inv in Hs as [Hs Hf].
  assert (Hw : snd s1 = emit (ESleep n) (snd s))
    by (unfold sleep, modify in Hs; now injection Hs).
  destruct i.
  - injection H as <-. unfold tr, traced_object. rewrite Hw.
    split; [reflexivity|]. split; [exact Hf|]. intros r. now destruct r.
  - now apply deliver_not_ret in H.
  - discriminate.
Qed.

Lemma poll_running r answer w p w' :
  poll r answer w = (Ret p, w') -> state_of r w = Running ->
  trace w' = trace w ++ [EPoll r p].
Proof.
  unfold poll. intros H Hr. rewrite Hr in H.
  destruct answer as [c|]; injection H as <- <-;
    rewrite ?trace_set_state; reflexivity.
Qed.

Lemma start_mcp_server_true s s' :
  start_mcp_server E s = (Ret true, s') ->
  exists env,
    tr s'
    = tr s ++ [ESpawn Mcp (mcp_cmd (venv_python_path (project_dir (fst s)))) env;
               ESleep 20; EPoll Mcp None].
Proof.
  unfold start_mcp_server. intros H.
  apply bind_inv_ret in H as (self & s0 & Hself & H).
  injection Hself as <- <-.
  destruct (details_missing (fst s)); [discriminate|].
  apply bind_inv_ret in H as (env & s1 & He & H).
  assert (T1 : snd s1 = snd s).
  { apply try_inv_ret in He as [He|(e & s2 & k & _ & Hk & He)].
    - apply bind_inv_ret in He as (jenv & s2 & Hc & He).
      apply create_environment_ret in Hc as [Hc _]. injection He as _ <-.
      exact Hc.
    - unfold on_Exception in Hk. destruct (is_Exception e); [|discriminate].
      injection Hk as <-. discriminate. }
  apply try_inv_ret in H as [H|(e & s2 & k & _ & Hk & H)];
    [|exfalso; exact (reraise_not_ret _ _ _ _ _ _ Hk H)].
  apply bind_inv_ret in H as (venv_python & s2 & Hv & H).
  apply lift_inv in Hv as [Hv Hf2].
  apply get_virtual_env_python_ret in Hv as [-> Hw2].
  apply bind_inv_ret in H as ([] & s3 & Hp & H).
  apply lift_inv in Hp as [Hp Hf3].
  apply popen_ret in Hp as [Tp Sp].
  apply bind_inv_ret in H as (self1 & s4 & Hg & H). injection Hg as <- <-.
  apply bind_inv_ret in H as ([] & s5 & Hput & H). injection Hput as <-.
  apply bind_inv_ret in H as ([] & s6 & Hd & H).
  apply delay_ret in Hd as (Td & _ & Sd).
  apply bind_inv_ret in H as (p & s7 & Hpoll & H).
  apply lift_inv in Hpoll as [Hpoll _].
  destruct p as [c|]; [discriminate|]. injection H as <-.
  apply poll_running in Hpoll; [|rewrite Sd; exact Sp].
  exists (Some env). unfold tr, traced_object in *. cbn [snd] in Td.
  rewrite Hpoll, Td, Tp, Hw2, T1. now rewrite <- !app_assoc.
Qed.

(** ** The classes of the phases *)

Ltac class_side :=
  solve [ intros []; simpl; intros; solve [reflexivity | discriminate]
        | intros; reflexivity
        | intros [] ].

Lemma sat_quiet_start_jupyter_lab :
  sat (inv (fun e => quiet e = true) False) (start_jupyter_lab E).
Proof. apply Steps.sat_start_jupyter_lab; class_side. Qed.

Lemma sat_nowrite_start_mcp_server :
  sat (inv (fun e => is_write e = false) False) (start_mcp_server E).
Proof. apply Steps.sat_start_mcp_server; class_side. Qed.

Lemma sat_nospawn_generate_configurations :
  sat (inv (fun e => is_bridge_spawn e = false) False)
    (generate_configurations E).
Proof. apply Steps.sat_generate_configurations; class_side. Qed.

Lemma sat_nospawn_monitor_processes :
  sat (inv (fun e => is_bridge_spawn e = false) False) (monitor_processes E).
Proof. apply Steps.sat_monitor_processes; class_side. Qed.

Lemma sat_quiet_cleanup :
  sat (inv (fun e => quiet e = true) False) (cleanup E).
Proof. apply Phases.sat_cleanup; class_side. Qed.

(** ** [run_steps] and [run] *)

Lemma ordered_quiet evs : Forall (fun e => quiet e = true) evs -> ordered evs.
Proof.
  intros F. split.
  - apply facts_before_launch_quiet.
    eapply Forall_impl; [exact F | exact quiet_no_spawn].
  - apply running_before_write_quiet.
    eapply Forall_impl; [exact F | exact quiet_no_write].
Qed.

Lemma ordered_app evs tail :
  ordered evs -> Forall (fun e => quiet e = true) tail -> ordered (evs ++ tail).
Proof.
  intros [H1 H2] F. split.
  - apply facts_before_launch_app; [exact H1|].
    eapply Forall_impl; [exact F | exact quiet_no_spawn].
  - apply running_before_write_app; [exact H2|].
    eapply Forall_impl; [exact F | exact quiet_no_write].
Qed.

(** The three shapes of what [run_steps] adds to the trace. *)
Lemma ordered_startup_then_bridge evsJ evsM line self0 self1 :
  Forall (fun e => quiet e = true) evsJ ->
  In (EReadline line) evsJ ->
  _extract_jupyter_details line self0 = (true, self1) ->
  Forall (fun e => is_write e = false) evsM ->
  ordered (evsJ ++ evsM).
Proof.
  intros FJ Hin Ex FM. split.
  - intros a b cmd env Heq.
    destruct (cut_after is_bridge_spawn evsJ _ a b (ESpawn Mcp cmd env)
                ltac:(eapply Forall_impl; [exact FJ | exact quiet_no_spawn])
                eq_refl Heq) as (a' & -> & _).
    exists line, self0, self1. split; [|exact Ex].
    apply in_or_app. now left.
  - apply running_before_write_quiet. apply Forall_app. split; [|exact FM].
    eapply Forall_impl; [exact FJ | exact quiet_no_write].
Qed.

Lemma ordered_all_phases evsJ cmd env evsR line self0 self1 :
  Forall (fun e => quiet e = true) evsJ ->
  In (EReadline line) evsJ ->
  _extract_jupyter_details line self0 = (true, self1) ->
  Forall (fun e => is_bridge_spawn e = false) evsR ->
  ordered (evsJ ++ [ESpawn Mcp cmd env; ESleep 20; EPoll Mcp None] ++ evsR).
Proof.
  intros FJ Hin Ex FR. split.
  - intros a b cmd' env' Heq.
    destruct (cut_after is_bridge_spawn evsJ _ a b (ESpawn Mcp cmd' env')
                ltac:(eapply Forall_impl; [exact FJ | exact quiet_no_spawn])
                eq_refl Heq) as (a' & -> & _).
    exists line, self0, self1. split; [|exact Ex].
    apply in_or_app. now left.
  - intros a b e Heq Hw.
    destruct (cut_after is_write _ _ _ _ _
                ltac:(eapply Forall_impl; [exact FJ | exact quiet_no_write])
                Hw Heq) as (a' & -> & Heq').
    destruct (cut_after is_write
                [ESpawn Mcp cmd env; ESleep 20; EPoll Mcp None] _ _ _ _
                ltac:(repeat constructor) Hw Heq') as (a'' & -> & _).
    now exists evsJ, a'', cmd, env.
Qed.

Lemma run_steps_ordered s :
  exists evs, tr (snd (run_steps E s)) = tr s ++ evs /\ ordered evs.
Proof.
  unfold run_steps. rewrite bind_unfold.
  destruct (sat_quiet_start_jupyter_lab s) as (evsJ & TJ & [FJ _]).
  destruct (start_jupyter_lab E s) as [[[]| |] s1] eqn:EJ;
    cbn [fst snd negb] in *;
    try (exists evsJ; split; [exact TJ | now apply ordered_quiet]).
  apply start_jupyter_lab_found in EJ as (evs' & line & self0 & T' & Hin & Ex).
  rewrite TJ in T'. apply app_inv_head in T'. subst evs'.
  rewrite bind_unfold.
  destruct (sat_nowrite_start_mcp_server s1) as (evsM & TM & [FM _]).
  destruct (start_mcp_server E s1) as [[[]| |] s2] eqn:EM;
    cbn [fst snd negb] in *;
    try (exists (evsJ ++ evsM);
         split; [unfold ret; cbn [snd]; rewrite TM, TJ; now rewrite app_assoc
                | now apply (ordered_startup_then_bridge _ _ line self0 (fst s1))]).
  apply start_mcp_server_true in EM as (env & T').
  rewrite TM in T'. apply app_inv_head in T'. subst evsM.
  assert (HR : sat (inv (fun e => is_bridge_spawn e = false) False)
                 (ok3 <- generate_configurations E;;
                  if negb ok3 then ret false else monitor_processes E)).
  { pose proof sat_nospawn_generate_configurations.
    pose proof sat_nospawn_monitor_processes. sat_go. }
  destruct (HR s2) as (evsR & TR & [FR _]).
  eexists. split.
  - rewrite TR, TM, TJ. rewrite <- !app_assoc. reflexivity.
  - now apply (ordered_all_phases _ _ _ _ line self0 (fst s1)).
Qed.

Lemma run_ordered s :
  exists evs, tr (snd (run E s)) = tr s ++ evs /\ ordered evs.
Proof.
  unfold run, try_finally. rewrite try_except_unfold.
  destruct (run_steps_ordered s) as (evs0 & T0 & O0).
  assert (Hbody : exists o s1 evs1,
             match run_steps E s with
             | (Raise e, s') =>
                 match on_Exception
                         (fun e => lift (log Error
                                           (if is_ServerSetupError e
                                            then exn_str e
                                            else "Unexpected error: "
                                                   +:+ exn_str e)) ;;
                                   ret false) e with
                 | Some h => h s'
                 | None => (Raise e, s')
                 end
             | r => r
             end = (o, s1)
             /\ tr s1 = tr s ++ evs1 /\ ordered evs1).
  { destruct (run_steps E s) as [[b|e|] s1]; cbn [fst snd] in *.
    - now exists (Ret b), s1, evs0.
    - unfold on_Exception. destruct (is_Exception e).
      + do 3 eexists. split; [reflexivity|]. cbn. unfold tr, traced_object in *.
        cbn [snd]. rewrite T0. rewrite <- app_assoc. split; [reflexivity|].
        apply ordered_app; [exact O0 | now repeat constructor].
      + now exists (Raise e), s1, evs0.
    - now exists Spin, s1, evs0. }
  destruct Hbody as (o & s1 & evs1 & -> & T1 & O1).
  destruct (sat_quiet_cleanup s1) as (evsC & TC & [FC _]).
  assert (OC : ordered (evs1 ++ evsC)) by now apply ordered_app.
  assert (TT : tr (snd (cleanup E s1)) = tr s ++ evs1 ++ evsC)
    by (rewrite TC, T1; now rewrite app_assoc).
  destruct o as [b|e|];
    [ | | exists evs1; now split ];
    destruct (cleanup E s1) as [[[]|e'|] s2]; cbn [fst snd] in *;
    exists (evs1 ++ evsC); now split.
Qed.

End Run.

End Order.

(** C8.  In what any [run] adds to the trace, every launch of the bridge
    comes after a line read from the notebook server on which
    [_extract_jupyter_details] succeeded, and every write of a
    configuration file ([open] for writing or [json.dump]) comes after
    the launch of the bridge, the two-second delay and a [poll()] that
    found the bridge still running, in this order and with nothing
    between them. *)
Theorem launch_and_write_order (E : environment) (self : setup) (w : world) :
  exists evs,
    trace (snd (snd (run E (self, w)))) = trace w ++ evs
    /\ facts_before_launch evs
    /\ running_before_write evs.
Proof. exact (Order.run_ordered E (self, w)). Qed.

(** The order is not kept by an empty trace: on the example machine the
    run launches the bridge and writes both files. *)
Lemma launch_and_write_happen :
  let evs := trace (snd (snd (run Example.env0
                               (Example.self0, Example.world0)))) in
  existsb is_bridge_spawn evs = true /\ existsb is_write evs = true.
Proof. vm_compute. now split. Qed.

(* ===================================================================== *)
(** * Claim C4: signals and exit codes *)
(* ===================================================================== *)

Module Exit.
Import MonadFacts TraceFacts.

Section Codes.

Variable E : environment.
Hypothesis kills : kills_succeed E.

(** Any event; a delivered signal ends the call in [SystemExit(0)]. *)
#[local] Abbreviation T := (inv (fun _ => True) True).

Ltac side := solve [ intros; exact I | intros _; exact kills ].

Lemma sat_try_two {S A} `{Traced S} (m : M S A) (c : exn -> bool)
  (h1 h2 : exn -> M S A) :
  sat T m -> (forall e, c e = true -> is_Exception e = true) ->
  (forall e, sat T (h1 e)) -> (forall e, sat T (h2 e)) ->
  sat T (try_except m
           (fun e => if c e then Some (h1 e) else on_Exception h2 e)).
Proof.
  intros Hm Hc H1 H2. apply sat_try; [exact Hm|]. intros e h Hh.
  destruct (c e) eqn:Ec.
  - injection Hh as <-. split; [|apply H1].
    intros ->. specialize (Hc _ Ec). discriminate.
  - unfold on_Exception in Hh. destruct (is_Exception e) eqn:Ee; [|discriminate].
    injection Hh as <-. split; [|apply H2]. intros ->. discriminate.
Qed.

Lemma sat_run_caught :
  sat T
    (try_except (run_steps E)
       (on_Exception
          (fun e =>
             lift (log Error (if is_ServerSetupError e then exn_str e
                              else "Unexpected error: " +:+ exn_str e)) ;;
             ret false))).
Proof. apply Steps.sat_run_body; side. Qed.

Lemma cleanup_no_signal s :
  exists s' evs,
    cleanup E s = (Ret tt, s') /\ tr s' = tr s ++ evs
    /\ existsb is_signal evs = false.
Proof.
  destruct s as [self w].
  destruct (Cleanup.cleanup_spec E kills self w) as (w' & ? & ? & ? & Eq & _).
  destruct (Phases.sat_cleanup E (fun e => stop_event e = true) False
              (fun _ H => H) (self, w)) as (evs & Tr & [F _]).
  rewrite Eq in Tr. cbn [fst snd] in Tr.
  exists (self, w'), evs. split; [exact Eq|]. split; [exact Tr|].
  clear - F. induction F as [|e evs He _ IH]; [reflexivity|].
  simpl. rewrite IH. now destruct e.
Qed.

Lemma sat_run : sat T (run E).
Proof.
  intros s. unfold run, try_finally.
  destruct (sat_run_caught s) as (evs1 & T1 & [_ S1]).
  destruct (try_except (run_steps E) _ s) as [o s1]. cbn [fst snd] in *.
  destruct (cleanup_no_signal s1) as (s2 & evsC & Eq & TC & NC).
  destruct o as [b|e|]; rewrite ?Eq; cbn [fst snd kind_of] in *.
  - exists (evs1 ++ evsC). split; [rewrite TC, T1; now rewrite app_assoc|].
    split; [now apply Forall_forall|]. intros _ Hs.
    rewrite existsb_app, NC, orb_false_r in Hs. now apply S1.
  - exists (evs1 ++ evsC). split; [rewrite TC, T1; now rewrite app_assoc|].
    split; [now apply Forall_forall|]. intros _ Hs.
    rewrite existsb_app, NC, orb_false_r in Hs. now apply S1.
  - exists evs1. split; [exact T1|]. split; [now apply Forall_forall|].
    intros _ Hs. now apply S1.
Qed.

Lemma sat_resolve_configuration_paths output_dir :
  sat T (resolve_configuration_paths E output_dir).
Proof. unfold resolve_configuration_paths. sat_go. Qed.

Lemma sat_init notebook kw : sat T (init E notebook kw).
Proof.
  unfold init. pose proof sat_resolve_configuration_paths. sat_go.
Qed.

Lemma sat_setup_jupyter_mcp_server notebook kw :
  sat T (setup_jupyter_mcp_server E notebook kw).
Proof.
  intros w. unfold setup_jupyter_mcp_server.
  destruct (sat_init notebook kw w) as (evs1 & T1 & I1).
  destruct (init E notebook kw w) as [[self|e|] w1]; cbn [fst snd] in *;
    try (exists evs1; now split).
  destruct (sat_run (self, w1)) as (evs2 & T2 & I2).
  destruct (run E (self, w1)) as [o s2]. cbn [fst snd] in *.
  exists (evs1 ++ evs2). split.
  - unfold tr, traced_object in T2. cbn [snd] in T2.
    unfold tr, traced_world in *. rewrite T2, T1. now rewrite app_assoc.
  - now apply inv_seq.
Qed.

(** ** The installer *)

Lemma sat_check_existing_installation project :
  sat T (check_existing_installation E project).
Proof. unfold check_existing_installation. sat_go. Qed.

Lemma sat_as_installation_error (m : M world unit) prefix :
  sat T m -> sat T (try_except m (as_installation_error prefix)).
Proof.
  intros Hm. unfold as_installation_error.
  apply sat_try_on_Exception; [exact Hm|]. intros e. sat_go.
Qed.

Lemma sat_install_each python deps : sat T (install_each E python deps).
Proof. induction deps as [|dep deps IH]; cbn [install_each]; sat_go. Qed.

Lemma sat_install project force : sat T (install E project force).
Proof.
  unfold install.
  apply (sat_try_two _ is_InstallationError (fun e => raise e)
           (fun e => raise (InstallationError
                              ("Unexpected installation error: " +:+ exn_str e))));
    [ | now intros [] | intros; apply sat_raise | intros; apply sat_raise ].
  pose proof sat_check_existing_installation. pose proof sat_install_each.
  unfold check_prerequisites, create_virtual_environment, upgrade_pip,
    install_dependencies, validate_installation.
  repeat first
    [ apply sat_as_installation_error
    | match goal with
      | |- sat _ (bind _ _) => apply sat_bind; [| intros ?]
      end
    | progress sat_go ].
Qed.

(** ** The three phases of [main] *)

Lemma sat_run_installation_phase force :
  sat T (run_installation_phase E force).
Proof.
  unfold run_installation_phase.
  apply (sat_try_two _ is_InstallationError (fun e => raise e)
           (fun e => raise (InstallationError
                              ("Installation phase error: " +:+ exn_str e))));
    [ | now intros [] | intros; apply sat_raise | intros; apply sat_raise ].
  pose proof sat_install. sat_go.
Qed.

Lemma sat_run_validation_phase : sat T (run_validation_phase E).
Proof.
  unfold run_validation_phase.
  apply (sat_try_two _ is_ValidationError (fun e => raise e)
           (fun e => raise (ValidationError
                              ("Validation phase error: " +:+ exn_str e))));
    [ | now intros [] | intros; apply sat_raise | intros; apply sat_raise ].
  sat_go.
Qed.

Lemma sat_run_server_setup_phase a : sat T (run_server_setup_phase E a).
Proof.
  unfold run_server_setup_phase.
  apply (sat_try_two _ is_ServerSetupError (fun e => raise e)
           (fun e => raise (ServerSetupError
                              ("Server setup phase error: " +:+ exn_str e))));
    [ | now intros [] | intros; apply sat_raise | intros; apply sat_raise ].
  pose proof sat_setup_jupyter_mcp_server. sat_go.
Qed.

Lemma sat_phases a : sat T (phases E a).
Proof.
  unfold phases. pose proof sat_run_installation_phase.
  pose proof sat_run_validation_phase. pose proof sat_run_server_setup_phase.
  sat_go.
Qed.

(** The handler is [cleanup] followed by [sys.exit(0)]. *)
Lemma deliver_exits sig st :
  exists st',
    deliver E sig st = (Raise (SystemExit 0), st')
    /\ cleanup E (fst st, emit (ESignal sig) (snd st)) = (Ret tt, st').
Proof.
  destruct st as [self w].
  destruct (Cleanup.cleanup_spec E kills self (emit (ESignal sig) w))
    as (w' & ? & ? & ? & Eq & _).
  exists (self, w'). split; [|exact Eq].
  unfold deliver, _signal_handler.
  rewrite (bind_ret _ _ _ tt (self, emit (ESignal sig) w)) by reflexivity.
  now rewrite (bind_ret _ _ _ _ _ Eq).
Qed.

Lemma main_after_signal a w evs :
  trace (snd (main E a w)) = trace w ++ evs ->
  existsb is_signal evs = true ->
  fst (main E a w) = ExitCode 0.
Proof.
  unfold main. destruct (sat_phases a w) as (evs' & T' & [_ Sg]).
  destruct (phases E a w) as [[u|e|] w'] eqn:Ep; cbn [fst snd kind_of] in *.
  - intros Tr Hs. unfold tr, traced_world in T'. rewrite T' in Tr.
    apply app_inv_head in Tr. subst evs'. discriminate (Sg I Hs).
  - assert (Hcase : forall l msg,
               trace (emit (ELog l msg) w') = trace w ++ evs ->
               existsb is_signal evs = true -> e = SystemExit 0).
    { intros l msg Tr Hs. cbn [trace emit] in Tr.
      unfold tr, traced_world in T'. rewrite T', <- app_assoc in Tr.
      apply app_inv_head in Tr. subst evs.
      rewrite existsb_app in Hs. cbn in Hs. rewrite orb_false_r in Hs.
      injection (Sg I Hs) as ->. reflexivity. }
    assert (Hplain : trace w' = trace w ++ evs ->
                     existsb is_signal evs = true -> e = SystemExit 0).
    { intros Tr Hs. unfold tr, traced_world in T'. rewrite T' in Tr.
      apply app_inv_head in Tr. subst evs'.
      injection (Sg I Hs) as ->. reflexivity. }
    destruct (is_InstallationError e || is_ValidationError e
              || is_ServerSetupError e) eqn:E1;
      [intros Tr Hs; rewrite (Hcase _ _ Tr Hs) in E1; discriminate|].
    destruct (is_SetupError e) eqn:E2;
      [intros Tr Hs; rewrite (Hcase _ _ Tr Hs) in E2; discriminate|].
    destruct (is_KeyboardInterrupt e) eqn:E3;
      [intros Tr Hs; rewrite (Hplain Tr Hs) in E3; discriminate|].
    destruct (is_Exception e) eqn:E4;
      [intros Tr Hs; rewrite (Hcase _ _ Tr Hs) in E4; discriminate|].
    intros Tr Hs. destruct e; try discriminate.
    cbn [fst snd] in *. now injection (Hplain Tr Hs) as ->.
  - intros Tr Hs. unfold tr, traced_world in T'. rewrite T' in Tr.
    apply app_inv_head in Tr. subst evs'. discriminate (Sg I Hs).
Qed.

Lemma main_keyboard_interrupt a w w' :
  phases E a w = (Raise KeyboardInterrupt, w') ->
  main E a w = (ExitCode 130, w').
Proof. unfold main. now intros ->. Qed.

End Codes.

End Exit.




(* ===================================================================== *)
(** * Claims C3 and C9: the discovery document *)
(* ===================================================================== *)

Module Discovery.
Import MonadFacts TraceFacts Order.

Section Write.

Variable E : environment.

Lemma open_w_ret p w w' :
  open_w p w = (Ret tt, w') ->
  w' = set_nodes (emit (EOpenW p) w) (<[p := Raw ""]> (nodes w)).
Proof.
  unfold open_w. destruct (bool_decide _); [discriminate|].
  destruct (nodes w !! p) as [[]|]; intros H; try discriminate H;
    now injection H.
Qed.

Lemma generate_mcp_config_ret s s' :
  _generate_mcp_config E s = (Ret tt, s') ->
  nodes (snd s') !! mcp_config_path (fst s)
  = Some (Doc (mcp_config (sys_executable E) ["-m"; "jupyter_mcp_server"]
                 (env_vars_of (default "" (jupyter_url (fst s)))
                    (default "" (jupyter_token (fst s)))
                    (get_relative_path_for_document_id (fst s))))).
Proof.
  unfold _generate_mcp_config. intros H.
  apply bind_inv_ret in H as (self & s0 & Hself & H).
  injection Hself as <- <-.
  apply bind_inv_ret in H as (env & s1 & He & H).
  apply create_environment_ret in He as [_ ->].
  apply lift_inv in H as [H _].
  apply bind_inv_ret in H as ([] & w1 & Ho & H).
  unfold json_dump in H. injection H as <-.
  cbn [nodes set_nodes]. apply lookup_insert_eq.
Qed.

(** The write in place, step by step. *)
Lemma write_steps_observable p j w :
  p ∉ denied w -> nodes w !! p <> Some Dir ->
  exists w1 w2,
    observable (write_steps p j) w = [w; w1; w2]
    /\ nodes w1 = <[p := Raw ""]> (nodes w)
    /\ nodes w2 = <[p := Doc j]> (nodes w)
    /\ trace w2 = trace w ++ [EOpenW p; EDump p j]
    /\ (open_w p ;; json_dump p j) w = (Ret tt, w2).
Proof.
  intros Hd Hn. unfold write_steps. cbn [observable].
  rewrite (Settings.open_w_file p w Hd Hn). cbn [json_dump].
  do 2 eexists. split; [reflexivity|].
  cbn [nodes set_nodes emit trace]. split; [reflexivity|].
  split; [apply insert_insert_eq|].
  split; [now rewrite <- app_assoc|].
  erewrite bind_ret by (now apply Settings.open_w_file). reflexivity.
Qed.

End Write.

End Discovery.







(* ===================================================================== *)
(** * Claim C10: what cleanup leaves alone *)
(* ===================================================================== *)

Module Frame.
Import MonadFacts Cleanup.

Section World.

Variable E : environment.
Variable p : string.

Lemma keeps_world_ret {A} (a : A) : keeps_world p (ret a).
Proof. now intros w. Qed.

Lemma keeps_world_raise {A} e : keeps_world p (raise (A := A) e).
Proof. now intros w. Qed.

Lemma keeps_world_bind {A B} (m : M world A) (k : A -> M world B) :
  keeps_world p m -> (forall a, keeps_world p (k a)) ->
  keeps_world p (bind m k).
Proof.
  intros Hm Hk w. unfold bind. specialize (Hm w).
  destruct (m w) as [[a|e|] w1]; cbn [snd] in *; [|exact Hm..].
  now rewrite Hk.
Qed.

Lemma keeps_world_try {A} (m : M world A) handler :
  keeps_world p m -> (forall e h, handler e = Some h -> keeps_world p h) ->
  keeps_world p (try_except m handler).
Proof.
  intros Hm Hh w. unfold try_except. specialize (Hm w).
  destruct (m w) as [[a|e|] w1]; cbn [snd] in *; [exact Hm| |exact Hm].
  destruct (handler e) as [h|] eqn:Eh; [|exact Hm].
  now rewrite (Hh e h Eh).
Qed.

Lemma keeps_world_emit e : keeps_world p (modify (emit e)).
Proof. now intros w. Qed.

Lemma keeps_world_get_world : keeps_world p get_world.
Proof. now intros w. Qed.

Lemma keeps_world_poll r answer : keeps_world p (poll r answer).
Proof.
  intros w. unfold poll.
  destruct (state_of r w); [|destruct answer|]; cbn [snd];
    rewrite ?nodes_set_state; reflexivity.
Qed.

Lemma keeps_world_terminate r : keeps_world p (terminate E r).
Proof.
  intros w. unfold terminate.
  now destruct (state_of r w), (terminate_error (stop E r)).
Qed.

Lemma keeps_world_wait r t : keeps_world p (wait E r t).
Proof.
  intros w. unfold wait.
  destruct (state_of r w); [|destruct (wait_outcome (stop E r))|];
    cbn [snd]; rewrite ?nodes_set_state; reflexivity.
Qed.

Lemma keeps_world_kill r : keeps_world p (kill E r).
Proof.
  intros w. unfold kill.
  destruct (state_of r w), (kill_error (stop E r));
    cbn [snd]; rewrite ?nodes_set_state; reflexivity.
Qed.

Lemma keeps_world_unlink q : q <> p -> keeps_world p (unlink q).
Proof.
  intros Hq w. unfold unlink.
  destruct (bool_decide _); [reflexivity|].
  destruct (nodes w !! q); [|reflexivity].
  cbn [snd nodes set_nodes emit]. now apply lookup_delete_ne.
Qed.

Lemma keeps_world_stop_process r t name :
  keeps_world p (stop_process E r t name).
Proof.
  unfold stop_process. apply keeps_world_try.
  - apply keeps_world_bind; [apply keeps_world_terminate|].
    intros _. apply keeps_world_wait.
  - intros e h Hh. destruct (is_TimeoutExpired e).
    + injection Hh as <-. apply keeps_world_kill.
    + unfold on_Exception in Hh. destruct (is_Exception e); [|discriminate].
      injection Hh as <-. apply keeps_world_emit.
Qed.

Lemma keeps_world_remove_config q : q <> p -> keeps_world p (remove_config q).
Proof.
  intros Hq. unfold remove_config. apply keeps_world_try.
  - apply keeps_world_bind; [apply keeps_world_get_world|].
    intros w. destruct (path_exists q w);
      [now apply keeps_world_unlink | apply keeps_world_ret].
  - intros e h Hh. unfold on_Exception in Hh.
    destruct (is_Exception e); [|discriminate].
    injection Hh as <-. apply keeps_world_emit.
Qed.

End World.

Section Object.

Variable E : environment.
Variable p : string.
Variable self : setup.
Hypothesis Hp : p <> mcp_config_path self.

Lemma keeps_ret {A} (a : A) : keeps p self (ret a).
Proof. now intros w. Qed.

Lemma keeps_raise {A} e : keeps p self (raise (A := A) e).
Proof. now intros w. Qed.

Lemma keeps_spin {A} : keeps p self (spin (A := A)).
Proof. now intros w. Qed.

Lemma keeps_bind {A B} (m : M (setup * world) A) k :
  keeps p self m -> (forall a : A, keeps p self (k a)) ->
  keeps p self (bind (B := B) m k).
Proof.
  intros Hm Hk w. unfold bind. destruct (Hm w) as [N F].
  destruct (m (self, w)) as [[a|e|] [self1 w1]]; cbn [fst snd] in *;
    [|now split..].
  subst self1. destruct (Hk a w1) as [N' F']. split; [congruence | exact F'].
Qed.

(** After [self <- get_self] the continuation runs on the object itself. *)
Lemma keeps_get_self {B} (k : setup -> M (setup * world) B) :
  keeps p self (k self) -> keeps p self (bind get_self k).
Proof. intros Hk w. exact (Hk w). Qed.

Lemma keeps_try {A} (m : M (setup * world) A) handler :
  keeps p self m -> (forall e h, handler e = Some h -> keeps p self h) ->
  keeps p self (try_except m handler).
Proof.
  intros Hm Hh w. unfold try_except. destruct (Hm w) as [N F].
  destruct (m (self, w)) as [[a|e|] [self1 w1]]; cbn [fst snd] in *;
    [now split| |now split].
  destruct (handler e) as [h|] eqn:Eh; [|now split].
  subst self1. destruct (Hh e h Eh w1) as [N' F']. split; [congruence | exact F'].
Qed.

Lemma keeps_finally {A} (m : M (setup * world) A) fin :
  keeps p self m -> keeps p self fin -> keeps p self (try_finally m fin).
Proof.
  intros Hm Hf w. unfold try_finally. destruct (Hm w) as [N F].
  destruct (m (self, w)) as [o [self1 w1]]; cbn [fst snd] in *. subst self1.
  destruct (Hf w1) as [N' F'].
  destruct o as [a|e|]; [| |now split];
    destruct (fin (self, w1)) as [[[]|e'|] [self2 w2]]; cbn [fst snd] in *;
    (split; [congruence | exact F']).
Qed.

Lemma keeps_lift {A} (m : M world A) : keeps_world p m -> keeps p self (lift m).
Proof.
  intros Hm w. unfold lift. cbn [fst snd]. specialize (Hm w).
  destruct (m w) as [o w1]. now split.
Qed.

Lemma keeps_cleanup : keeps p self (cleanup E).
Proof.
  unfold cleanup. apply keeps_get_self.
  apply keeps_bind.
  { destruct (mcp_process self);
      [apply keeps_lift, keeps_world_stop_process | apply keeps_ret]. }
  intros _. apply keeps_bind.
  { destruct (jupyter_process self);
      [apply keeps_lift, keeps_world_stop_process | apply keeps_ret]. }
  intros _. destruct (cleanup_on_exit self); [|apply keeps_ret].
  apply keeps_lift, keeps_world_remove_config. congruence.
Qed.

Lemma keeps_deliver sig : keeps p self (deliver E sig).
Proof.
  unfold deliver, _signal_handler.
  apply keeps_bind; [apply keeps_lift, keeps_world_emit|]. intros _.
  apply keeps_bind; [apply keeps_cleanup|]. intros _. apply keeps_raise.
Qed.

Lemma keeps_delay i n : keeps p self (delay E i n).
Proof.
  unfold delay. apply keeps_bind; [apply keeps_lift, keeps_world_emit|].
  intros _. destruct i;
    [apply keeps_ret | apply keeps_deliver | apply keeps_raise].
Qed.

Lemma keeps_check_alive r answer msg :
  keeps p self (check_alive r answer msg).
Proof.
  unfold check_alive. destruct r as [r|]; [|apply keeps_ret].
  apply keeps_bind; [apply keeps_lift, keeps_world_poll|].
  intros [c|]; [apply keeps_raise | apply keeps_ret].
Qed.

Lemma keeps_monitor_loop ticks : keeps p self (monitor_loop E ticks).
Proof.
  induction ticks as [|t ticks IH]; cbn [monitor_loop]; [apply keeps_spin|].
  apply keeps_get_self.
  apply keeps_bind; [apply keeps_check_alive|]. intros _.
  apply keeps_bind; [apply keeps_check_alive|]. intros _.
  apply keeps_bind; [apply keeps_delay|]. intros _. exact IH.
Qed.

Lemma keeps_monitor_processes : keeps p self (monitor_processes E).
Proof.
  unfold monitor_processes. apply keeps_try; [apply keeps_monitor_loop|].
  intros e h Hh. destruct (is_KeyboardInterrupt e); [|discriminate].
  injection Hh as <-. apply keeps_ret.
Qed.

Lemma keeps_resume o : keeps p self (resume E o).
Proof.
  destruct o as [[]|e|]; cbn [resume negb];
    [apply keeps_monitor_processes | apply keeps_ret
    | apply keeps_raise | apply keeps_spin].
Qed.

Lemma keeps_run_after_config o : keeps p self (run_after_config E o).
Proof.
  unfold run_after_config. apply keeps_finally; [|apply keeps_cleanup].
  apply keeps_try; [apply keeps_resume|].
  intros e h Hh. unfold on_Exception in Hh.
  destruct (is_Exception e); [|discriminate]. injection Hh as <-.
  apply keeps_bind; [apply keeps_lift, keeps_world_emit|].
  intros _. apply keeps_ret.
Qed.

End Object.

(** Once the two launches have returned [True], [run] is what remains
    after [generate_configurations]. *)
Lemma run_from_config E s s1 s2 o s3 :
  start_jupyter_lab E s = (Ret true, s1) ->
  start_mcp_server E s1 = (Ret true, s2) ->
  generate_configurations E s2 = (o, s3) ->
  run E s = run_after_config E o s3.
Proof.
  intros H1 H2 H3. unfold run, run_after_config, try_finally.
  rewrite !try_except_unfold. unfold run_steps.
  rewrite bind_unfold, H1. cbn [negb]. cbv beta iota.
  rewrite bind_unfold, H2. cbn [negb]. cbv beta iota.
  rewrite bind_unfold, H3.
  destruct o as [ok|e|]; reflexivity.
Qed.

(** The two file names differ in their sixth character from the end. *)
Lemma mcp_json_is_not_settings dir project :
  path_join dir ".mcp.json" <> get_claude_config_path project.
Proof.
  unfold get_claude_config_path, path_join. intros H.
  change (dir +:+ "/" +:+ ".mcp.json") with (dir +:+ "/.mc" +:+ "p.json") in H.
  change ((project +:+ "/" +:+ ".claude") +:+ "/" +:+ "settings.local.json")
    with ((project +:+ "/" +:+ ".claude") +:+ "/settings.loca" +:+ "l.json") in H.
  rewrite <- !StrFacts.app_assoc in H.
  apply StrFacts.app_inj_tail in H; [discriminate | reflexivity].
Qed.

(** A settings write that reports success has left a document there. *)
Lemma generate_claude_settings_true project server w w' :
  generate_claude_settings project server w = (Ret true, w') ->
  exists settings j,
    update_enabled_mcp_servers server settings = Ret j
    /\ nodes w' !! get_claude_config_path project = Some (Doc j).
Proof.
  unfold generate_claude_settings. intros H.
  apply Order.try_inv_ret in H as [H|(e & w1 & k & _ & Hk & H)].
  2:{ unfold on_Exception in Hk. destruct (is_Exception e); [|discriminate].
      injection Hk as <-. discriminate H. }
  apply Order.bind_inv_ret in H as (ok & w1 & _ & H).
  destruct ok; [|discriminate]. cbn [negb] in H.
  apply Order.bind_inv_ret in H as (settings & w2 & _ & H).
  apply Order.bind_inv_ret in H as (j & w3 & Hu & H).
  apply Order.bind_inv_ret in H as ([] & w4 & _ & H).
  apply Order.bind_inv_ret in H as ([] & w5 & Hd & H).
  injection H as <-. injection Hd as <-. injection Hu as Hu _.
  exists settings, j. split; [exact Hu|].
  cbn [nodes set_nodes]. apply lookup_insert_eq.
Qed.

End Frame.

(** C10.  [cleanup] leaves every path other than [mcp_config_path] as it
    was; the client settings file is never that path, whatever the output
    and project directories; a settings write that reported success has
    left the merged document in the file; and once the configuration
    phase has been reached and has ended, however it ended, whatever
    [run] still does (monitoring, the log of a fatal error, the handler
    of a signal, the final [cleanup]) leaves every path other than
    [mcp_config_path], the client settings file among them, as the
    configuration phase left it. *)
Theorem settings_survive_cleanup (E : environment) :
  (forall self w p,
      p <> mcp_config_path self ->
      nodes (snd (snd (cleanup E (self, w)))) !! p = nodes w !! p)
  /\ (forall dir project,
         path_join dir ".mcp.json" <> get_claude_config_path project)
  /\ (forall project server w w',
         generate_claude_settings project server w = (Ret true, w') ->
         exists settings j,
           update_enabled_mcp_servers server settings = Ret j
           /\ nodes w' !! get_claude_config_path project = Some (Doc j))
  /\ (forall s s1 s2 o s3 p,
         start_jupyter_lab E s = (Ret true, s1) ->
         start_mcp_server E s1 = (Ret true, s2) ->
         generate_configurations E s2 = (o, s3) ->
         p <> mcp_config_path (fst s3) ->
         nodes (snd (snd (run E s))) !! p = nodes (snd s3) !! p)
  /\ (forall s s1 s2 o s3 dir project,
         start_jupyter_lab E s = (Ret true, s1) ->
         start_mcp_server E s1 = (Ret true, s2) ->
         generate_configurations E s2 = (o, s3) ->
         mcp_config_path (fst s3) = path_join dir ".mcp.json" ->
         nodes (snd (snd (run E s))) !! get_claude_config_path project
         = nodes (snd s3) !! get_claude_config_path project).
Proof.
  assert (Hrun : forall s s1 s2 o s3 p,
             start_jupyter_lab E s = (Ret true, s1) ->
             start_mcp_server E s1 = (Ret true, s2) ->
             generate_configurations E s2 = (o, s3) ->
             p <> mcp_config_path (fst s3) ->
             nodes (snd (snd (run E s))) !! p = nodes (snd s3) !! p).
  { intros s s1 s2 o [self3 w3] p H1 H2 H3 Hp.
    rewrite (Frame.run_from_config E s s1 s2 o _ H1 H2 H3).
    now apply (Frame.keeps_run_after_config E p self3 Hp o w3). }
  split; [|split; [|split; [|split]]].
  - intros self w p Hp. now apply (Frame.keeps_cleanup E p self Hp w).
  - exact Frame.mcp_json_is_not_settings.
  - exact Frame.generate_claude_settings_true.
  - exact Hrun.
  - intros s s1 s2 o s3 dir project H1 H2 H3 Hd.
    apply (Hrun s s1 s2 o s3 _ H1 H2 H3). rewrite Hd.
    intros Heq. now apply (Frame.mcp_json_is_not_settings dir project).
Qed.

Lemma settings_survive_cleanup_witness :
  let s := (Example.self0, Example.world0) in
  nodes (snd (snd (run Example.env0 s))) !! Example.settings0
  = Some (Doc (JObj [("theme", JStr "dark");
                     ("enabledMcpjsonServers", JArr [JStr "jupyter"])]))
  /\ nodes (snd (snd (run Example.env0 s))) !! "/work/.mcp.json" = None.
Proof.
  intros s.
  pose (s1 := snd (start_jupyter_lab Example.env0 s)).
  pose (s2 := snd (start_mcp_server Example.env0 s1)).
  pose (s3 := snd (generate_configurations Example.env0 s2)).
  split.
  - change Example.settings0 with (get_claude_config_path "/work").
    rewrite (proj2 (proj2 (proj2 (proj2
               (settings_survive_cleanup Example.env0))))
               s s1 s2 (Ret true) s3 "/work" "/work").
    + vm_compute. reflexivity.
    + vm_compute. reflexivity.
    + vm_compute. reflexivity.
    + vm_compute. reflexivity.
    + vm_compute. reflexivity.
  - vm_compute. reflexivity.
Defined.

(* ===================================================================== *)
(** * Claim C6: installing over a valid installation *)
(* ===================================================================== *)

Module Installer.
Import MonadFacts.

Section FastPath.

Variable E : environment.
Variable project : string.

(** The one command of the fast path. *)
Let smoke : event := ERun (smoke_import_cmd (venv_python_path project)).

Lemma smoke_not_destructive : is_destructive smoke = false.
Proof. reflexivity. Qed.

Lemma valid_python_exists w :
  valid_installation E project w ->
  path_exists (venv_python_path project) w = true.
Proof.
  intros (_ & Hs & _). unfold validate_project_structure in Hs.
  now apply andb_prop in Hs.
Qed.

Lemma valid_handle w :
  valid_installation E project w ->
  get_virtual_env_python project w = (Ret (venv_python_path project), w).
Proof.
  intros Hv. pose proof (valid_python_exists w Hv) as Hx.
  destruct Hv as (_ & _ & Hexec & _).
  unfold get_virtual_env_python, check_file_permissions_x.
  rewrite Hx. cbn [negb andb].
  now rewrite (bool_decide_eq_true_2 _ Hexec).
Qed.

Lemma valid_emit e w :
  valid_installation E project w -> valid_installation E project (emit e w).
Proof.
  intros (Hd & Hs & Hx & Hc).
  split; [exact Hd|]. split; [exact Hs|]. split; [exact Hx|].
  intros w' Hn He. now apply Hc.
Qed.

Lemma check_existing_installation_valid w :
  valid_installation E project w ->
  check_existing_installation E project w = (Ret true, emit smoke w).
Proof.
  intros Hv. pose proof (valid_handle w Hv) as Hh.
  destruct Hv as (Hd & Hs & Hx & Hc).
  unfold check_existing_installation.
  erewrite bind_ret by reflexivity. cbv beta.
  rewrite Hd. cbn [negb]. rewrite Hs.
  rewrite (bind_ret _ _ w true (emit smoke w)); [reflexivity|].
  apply try_ret.
  erewrite bind_ret by exact Hh.
  rewrite (bind_ret _ _ w 0%Z (emit smoke w)); [reflexivity|].
  unfold run_command. now rewrite (Hc w eq_refl eq_refl).
Qed.

Lemma install_valid w :
  check_python_version E (3, 10) = true ->
  valid_installation E project w ->
  install E project false w = (Ret true, emit smoke w).
Proof.
  intros Hpy Hv. unfold install. apply try_ret.
  erewrite bind_ret;
    [|unfold check_prerequisites; rewrite Hpy; reflexivity].
  erewrite bind_ret by (apply check_existing_installation_valid, Hv).
  reflexivity.
Qed.

End FastPath.

End Installer.

(** C6.  On a valid installation (the environment directory, the two
    files of the structural check, an executable interpreter, a smoke
    import that succeeds) [install] without [force_reinstall] returns
    [True] having run the smoke import and nothing else, and leaves a
    valid installation; so does a second call after it: its only event is
    the smoke import, which is no removal, no creation of the
    environment and no [pip] command, the files and their permissions
    are as they were, and the interpreter of the environment is found at
    the same path as after the first call. *)
Theorem install_twice_takes_fast_path (E : environment) (project : string)
  (w : world) :
  check_python_version E (3, 10) = true ->
  valid_installation E project w ->
  let smoke := ERun (smoke_import_cmd (venv_python_path project)) in
  let w1 := snd (install E project false w) in
  let w2 := snd (install E project false w1) in
  install E project false w = (Ret true, w1)
  /\ install E project false w1 = (Ret true, w2)
  /\ trace w2 = trace w1 ++ [smoke]
  /\ is_destructive smoke = false
  /\ nodes w2 = nodes w1 /\ exec w2 = exec w1 /\ denied w2 = denied w1
  /\ get_virtual_env_python project w1 = (Ret (venv_python_path project), w1)
  /\ get_virtual_env_python project w2 = (Ret (venv_python_path project), w2)
  /\ valid_installation E project w2.
Proof.
  intros Hpy Hv smoke w1 w2.
  pose proof (Installer.install_valid E project w Hpy Hv) as H1.
  assert (Hv1 : valid_installation E project w1).
  { subst w1. rewrite H1. now apply Installer.valid_emit. }
  pose proof (Installer.install_valid E project w1 Hpy Hv1) as H2.
  assert (Hv2 : valid_installation E project w2).
  { subst w2. rewrite H2. now apply Installer.valid_emit. }
  assert (Hw2 : w2 = emit smoke w1) by (subst w2; now rewrite H2).
  split; [subst w1; now rewrite H1|].
  split; [subst w2; now rewrite H2|].
  split; [now rewrite Hw2|].
  split; [reflexivity|].
  split; [now rewrite Hw2|].
  split; [now rewrite Hw2|].
  split; [now rewrite Hw2|].
  split; [now apply Installer.valid_handle with (E := E)|].
  split; [now apply Installer.valid_handle with (E := E)|].
  exact Hv2.
Qed.

Lemma install_twice_takes_fast_path_witness :
  let w1 := snd (install Example.env0 "/work" false Example.world0) in
  let w2 := snd (install Example.env0 "/work" false w1) in
  install Example.env0 "/work" false w1 = (Ret true, w2)
  /\ trace w2
     = trace w1 ++ [ERun [Example.python0; "-c";
                          "import jupyter_mcp_server; print('OK')"]]
  /\ nodes w2 = Example.nodes0.
Proof.
  intros w1 w2.
  assert (Hpy : check_python_version Example.env0 (3, 10) = true)
    by (vm_compute; reflexivity).
  assert (Hv : valid_installation Example.env0 "/work" Example.world0).
  { split; [vm_compute; reflexivity|].
    split; [vm_compute; reflexivity|].
    split; [apply (bool_decide_unpack _); vm_compute; exact I|].
    intros w' _ _. reflexivity. }
  destruct (install_twice_takes_fast_path Example.env0 "/work" Example.world0
              Hpy Hv) as (H1 & H2 & Ht & _ & Hn & _).
  split; [exact H2|]. split; [exact Ht|].
  fold w1 w2 in Hn. rewrite Hn. vm_compute. reflexivity.
Defined.

(* ===================================================================== *)
(** * Further properties: scraping and the bridge environment *)
(* ===================================================================== *)

Module Captures.
Import Re.

Lemma splits_runs cls s :
  Forall (fun pr => fst pr <> EmptyString /\ Str.all cls (fst pr) = true)
    (splits cls s).
Proof.
  induction s as [|c s IH]; cbn [splits]; [constructor|].
  destruct (cls c) eqn:Hc; [|constructor].
  apply Forall_app. split.
  - apply Forall_map. eapply Forall_impl; [exact IH|].
    intros [run rest] [Hne Hall]. cbn [fst snd] in *. split; [discriminate|].
    cbn [Str.all]. now rewrite Hc.
  - constructor; [|constructor]. cbn [fst Str.all]. split; [discriminate|].
    now rewrite Hc.
Qed.

Lemma first_some_inv {A B} (f : A -> option B) l y :
  first_some f l = Some y -> exists x, In x l /\ f x = Some y.
Proof.
  induction l as [|x l IH]; cbn [first_some]; [discriminate|].
  destruct (f x) as [z|] eqn:Hx.
  - intros [= <-]. exists x. split; [now left | exact Hx].
  - intros H. destruct (IH H) as (x' & Hin & Hf). exists x'.
    split; [now right | exact Hf].
Qed.

Lemma match_here_captures r bos s caps :
  match_here r bos s = Some caps -> captures_of r caps.
Proof.
  revert bos s caps. induction r as [|i r IH]; intros bos s caps H.
  - cbn in H. now injection H as <-.
  - destruct i as [c|capture cls| |]; cbn [match_here] in H.
    + destruct s as [|d s]; [discriminate|].
      destruct (Ascii.eqb c d); [|discriminate]. exact (IH _ _ _ H).
    + apply first_some_inv in H as ([run rest] & Hin & H).
      cbn [fst snd] in H.
      destruct (match_here r false rest) as [caps'|] eqn:Hm; [|discriminate].
      injection H as <-.
      pose proof (splits_runs cls s) as Hr.
      rewrite List.Forall_forall in Hr.
      destruct (Hr _ Hin) as [Hne Hall]. cbn [fst] in *.
      destruct capture; cbn [captures_of].
      * split; [exact Hne|]. split; [exact Hall|]. exact (IH _ _ _ Hm).
      * exact (IH _ _ _ Hm).
    + destruct bos; [|discriminate]. exact (IH _ _ _ H).
    + destruct (at_eol s); [|discriminate]. exact (IH _ _ _ H).
Qed.

Lemma search_from_captures r bos s caps :
  search_from r bos s = Some caps -> captures_of r caps.
Proof.
  revert bos. induction s as [|c s IH]; intros bos; cbn [search_from].
  - destruct (match_here r bos EmptyString) as [x|] eqn:Hm; [|discriminate].
    intros [= <-]. exact (match_here_captures _ _ _ _ Hm).
  - destruct (match_here r bos (String c s)) as [x|] eqn:Hm.
    + intros [= <-]. exact (match_here_captures _ _ _ _ Hm).
    + apply IH.
Qed.

Lemma captures_lits p r caps : captures_of (lits p ++ r) caps <-> captures_of r caps.
Proof. induction p as [|c p IH]; cbn [lits app captures_of]; [reflexivity | exact IH]. Qed.

(** Both groups of a URL pattern: digits, then lowercase hex digits. *)
Lemma url_pattern_captures host path caps :
  captures_of (url_pattern host path) caps ->
  exists digits tok,
    caps = [digits; tok]
    /\ digits <> EmptyString /\ Str.all digit digits = true
    /\ tok <> EmptyString /\ Str.all lower_hex tok = true.
Proof.
  unfold url_pattern. rewrite !captures_lits. cbn [captures_of].
  destruct caps as [|digits caps]; [contradiction|].
  intros (Hd & Hda & H). rewrite !captures_lits in H. cbn [captures_of] in H.
  destruct caps as [|tok caps]; [contradiction|].
  destruct H as (Ht & Hta & ->). eauto 10.
Qed.

Lemma extract_loop_sound ps line self :
  Forall (fun p => exists host path, p = url_pattern host path) ps ->
  let r := extract_loop ps line self in
  if fst r
  then exists port token,
      snd r = set_details self port token
                ("http://localhost:" +:+ python_str port)
      /\ (0 < port)%N /\ token <> EmptyString
      /\ Str.all lower_hex token = true
  else snd r = self.
Proof.
  induction 1 as [|p ps (host & path & ->) _ IH]; cbn [extract_loop];
    [reflexivity|].
  destruct (search (url_pattern host path) line) as [caps|] eqn:Hs; [|exact IH].
  apply search_from_captures, url_pattern_captures in Hs
    as (digits & tok & -> & _ & _ & Ht & Hta).
  cbn [group Init.Nat.pred nth].
  destruct (0 <? python_int digits)%N eqn:Hp; [|exact IH].
  cbn [fst snd]. exists (python_int digits), tok.
  split; [reflexivity|]. split; [now apply N.ltb_lt|]. now split.
Qed.

End Captures.


(** X2.  A line in which ["http://"] does not occur is no match: the
    object stays as it was. *)
Theorem extract_jupyter_details_without_url (line : string) (self : setup) :
  Str.find_all "http://" line 0 = [] ->
  _extract_jupyter_details line self = (false, self).
Proof.
  intros H. unfold _extract_jupyter_details, patterns, url_pattern.
  cbn [extract_loop]. unfold Re.search.
  rewrite !(ReFacts.search_no_occurrence "http://" _ true line 0)
    by (assumption || discriminate).
  reflexivity.
Qed.

Lemma extract_jupyter_details_without_url_witness :
  _extract_jupyter_details "[I] Serving notebooks from https://example.org"
    Example.self0
  = (false, Example.self0).
Proof.
  apply (extract_jupyter_details_without_url
           "[I] Serving notebooks from https://example.org" Example.self0).
  reflexivity.
Defined.

Module TokenFacts.

(** The strings [token_accepted] takes: lowercase hex digits, with
    nothing or one newline after them. *)
Lemma token_accepted_iff token :
  token_accepted token = true
  <-> exists run,
      run <> EmptyString /\ Str.all Re.lower_hex run = true
      /\ (token = run \/ token = run +:+ String "010" "").
Proof.
  unfold token_accepted. split.
  - intros H. apply andb_true_iff in H as [Hne Heol].
    exists (Str.take_while Re.lower_hex token).
    apply negb_true_iff, String.eqb_neq in Hne.
    split; [exact Hne|]. split; [apply Token.take_while_all|].
    pose proof (Token.span_app Re.lower_hex token) as Hs.
    destruct (Str.drop_while Re.lower_hex token) as [|c [|d r]];
      cbn [Re.at_eol] in Heol; [| |discriminate].
    + left. now rewrite StrFacts.app_nil_r in Hs.
    + right. apply Ascii.eqb_eq in Heol. now subst c.
  - intros (run & Hne & Hall & [-> | ->]).
    + assert (Ht : Str.take_while Re.lower_hex run = run).
      { clear Hne. induction run as [|c run IH]; [reflexivity|].
        cbn [Str.all] in Hall. apply andb_true_iff in Hall as [Hc Hall].
        cbn [Str.take_while]. rewrite Hc. now rewrite IH. }
      assert (Hd : Str.drop_while Re.lower_hex run = EmptyString).
      { clear Hne Ht. induction run as [|c run IH]; [reflexivity|].
        cbn [Str.all] in Hall. apply andb_true_iff in Hall as [Hc Hall].
        cbn [Str.drop_while]. rewrite Hc. now apply IH. }
      rewrite Ht, Hd. cbn [Re.at_eol]. rewrite andb_true_r.
      apply negb_true_iff, String.eqb_neq. exact Hne.
    + assert (Ht : Str.take_while Re.lower_hex (run +:+ String "010" "") = run).
      { clear Hne. induction run as [|c run IH]; [reflexivity|].
        cbn [Str.all] in Hall. apply andb_true_iff in Hall as [Hc Hall].
        cbn [String.append Str.take_while]. rewrite Hc. now rewrite IH. }
      assert (Hd : Str.drop_while Re.lower_hex (run +:+ String "010" "")
                   = String "010" "").
      { clear Hne Ht. induction run as [|c run IH]; [reflexivity|].
        cbn [Str.all] in Hall. apply andb_true_iff in Hall as [Hc Hall].
        cbn [String.append Str.drop_while]. rewrite Hc. now apply IH. }
      rewrite Ht, Hd. cbn [Re.at_eol]. rewrite andb_true_r.
      apply negb_true_iff, String.eqb_neq. exact Hne.
Qed.

Lemma validate_token_eq token name w :
  validate_token token name w
  = if Nat.ltb (String.length token) 8
    then (Ret false,
          emit (ELog Error ("Invalid " +:+ name
                              +:+ ": too short (minimum 8 characters)")) w)
    else if token_accepted token
         then (Ret true, w)
         else (Ret false,
               emit (ELog Error ("Invalid " +:+ name
                                   +:+ ": must be hexadecimal")) w).
Proof.
  unfold validate_token. rewrite Token.rmatch_token_pattern.
  destruct (String.eqb token "") eqn:He.
  - apply String.eqb_eq in He. subst token. reflexivity.
  - cbn [orb]. destruct (Nat.ltb (String.length token) 8); [reflexivity|].
    now destruct (token_accepted token).
Qed.

End TokenFacts.

(** X3.  [validate_token] never raises.  It answers [True], logging
    nothing, exactly on the strings of eight or more characters that
    consist of lowercase hex digits followed by nothing or by one
    newline; on every other string it answers [False] and logs one
    error: "too short" below eight characters, "must be hexadecimal"
    otherwise. *)
Theorem validate_token_decides (token name : string) (w : world) :
  validate_token token name w
  = (if Nat.ltb (String.length token) 8
     then (Ret false,
           emit (ELog Error ("Invalid " +:+ name
                               +:+ ": too short (minimum 8 characters)")) w)
     else if token_accepted token
          then (Ret true, w)
          else (Ret false,
                emit (ELog Error ("Invalid " +:+ name
                                    +:+ ": must be hexadecimal")) w))
  /\ (token_accepted token = true
      <-> exists run,
          run <> EmptyString /\ Str.all Re.lower_hex run = true
          /\ (token = run \/ token = run +:+ String "010" "")).
Proof.
  split; [apply TokenFacts.validate_token_eq | apply TokenFacts.token_accepted_iff].
Qed.

Module EnvFacts.
Import MonadFacts.

Lemma validate_url_eq E url name w :
  exists msg,
    validate_url E url name w
    = if url_valid E url then (Ret true, w)
      else (Ret false, emit (ELog Error msg) w).
Proof.
  unfold validate_url, url_valid.
  destruct (urlparse E url) as [[scheme netloc]|]; [|eexists; reflexivity].
  destruct (negb (String.eqb scheme "") && negb (String.eqb netloc ""));
    [exists EmptyString; reflexivity | eexists; reflexivity].
Qed.

Lemma check_not_empty_env url token nb w :
  check_not_empty (env_vars_of url token nb) w
  = if String.eqb url ""
    then (Raise (Builtin ValueError "Empty environment variable: DOCUMENT_URL"), w)
    else if String.eqb token ""
    then (Raise (Builtin ValueError "Empty environment variable: DOCUMENT_TOKEN"), w)
    else if String.eqb nb ""
    then (Raise (Builtin ValueError "Empty environment variable: DOCUMENT_ID"), w)
    else (Ret tt, w).
Proof.
  unfold env_vars_of. cbn [check_not_empty]. cbn [String.eqb Ascii.eqb Bool.eqb].
  destruct (String.eqb url ""); [reflexivity|].
  destruct (String.eqb token ""); [reflexivity|].
  destruct (String.eqb nb ""); reflexivity.
Qed.

Lemma token_valid_nonempty token :
  token_valid token = true -> String.eqb token "" = false.
Proof.
  unfold token_valid. intros H. apply andb_true_iff in H as [H _].
  apply Nat.leb_le in H. destruct token; [cbn in H; lia | reflexivity].
Qed.

Lemma same_machine_refl w : same_machine w w.
Proof. repeat split. Qed.

Lemma same_machine_emit e w : same_machine w (emit e w).
Proof. repeat split. Qed.

Lemma same_machine_trans w1 w2 w3 :
  same_machine w1 w2 -> same_machine w2 w3 -> same_machine w1 w3.
Proof.
  unfold same_machine. intros (a1 & a2 & a3 & a4 & a5 & a6)
                              (b1 & b2 & b3 & b4 & b5 & b6).
  repeat split; congruence.
Qed.

End EnvFacts.

Ltac failed_with_logs :=
  repeat split; try discriminate; try reflexivity;
  unfold emit; cbn [trace]; rewrite <- ?app_assoc; reflexivity.

(** X4.  [create_jupyter_environment] succeeds exactly when the URL has
    a scheme and a host, the token passes [validate_token], and neither
    the URL nor the notebook path is empty.  It then returns the eight
    variables, records them as [validated_env] and logs nothing.  In
    every other case it raises a [ServerSetupError], leaves the object
    (and so [validated_env]) as it was, and only adds error lines to the
    log. *)
Theorem create_jupyter_environment_decides (E : environment)
  (url token nb : string) (self : setup) (w : world) :
  let env := env_vars_of url token nb in
  let r := create_jupyter_environment E url token nb (self, w) in
  if url_valid E url && token_valid token
     && negb (String.eqb url "") && negb (String.eqb nb "")
  then r = (Ret env, (set_validated_env self env, w))
  else exists msg logs,
      fst r = Raise (ServerSetupError msg)
      /\ fst (snd r) = self
      /\ same_machine w (snd (snd r))
      /\ trace (snd (snd r)) = trace w ++ logs
      /\ logs <> []
      /\ forallb is_error_log logs = true.
Proof.
  intros env r. subst r env. unfold create_jupyter_environment.
  destruct (EnvFacts.validate_url_eq E url "Jupyter URL" w) as [msg Hu].
  pose proof (TokenFacts.validate_token_eq token "Jupyter token" w) as Ht.
  pose proof (EnvFacts.check_not_empty_env url token nb w) as Hc.
  rewrite MonadFacts.try_except_unfold, MonadFacts.bind_unfold.
  unfold token_valid. rewrite Nat.leb_antisym.
  revert Hu. destruct (url_valid E url); intros Hu;
    rewrite (MonadFacts.lift_eq _ self w _ _ Hu); clear Hu;
    cbn [andb fst snd negb]; cbv beta iota.
  2:{ cbn. eexists _, [_; _]. failed_with_logs. }
  rewrite MonadFacts.bind_unfold.
  revert Ht. destruct (Nat.ltb (String.length token) 8) eqn:Hlen; intros Ht.
  { rewrite (MonadFacts.lift_eq _ self w _ _ Ht). cbn.
    eexists _, [_; _]. failed_with_logs. }
  revert Ht. destruct (token_accepted token) eqn:Hacc; intros Ht;
    rewrite (MonadFacts.lift_eq _ self w _ _ Ht); clear Ht;
    cbn [andb fst snd negb]; cbv beta iota.
  2:{ cbn. eexists _, [_; _]. failed_with_logs. }
  assert (Hne : String.eqb token "" = false).
  { apply EnvFacts.token_valid_nonempty. unfold token_valid.
    rewrite Nat.leb_antisym, Hlen, Hacc. reflexivity. }
  rewrite Hne in Hc. rewrite MonadFacts.bind_unfold.
  revert Hc. destruct (String.eqb url ""); intros Hc.
  { rewrite (MonadFacts.lift_eq _ self w _ _ Hc). cbn.
    eexists _, [_]. failed_with_logs. }
  revert Hc. destruct (String.eqb nb ""); intros Hc;
    rewrite (MonadFacts.lift_eq _ self w _ _ Hc).
  { cbn. eexists _, [_]. failed_with_logs. }
  reflexivity.
Qed.

Module DictMore.

Lemma get_set_eq {V} k (v : V) d : Dict.get k (Dict.set k v d) = Some v.
Proof.
  induction d as [|[k' v'] d IH]; cbn [Dict.set Dict.get].
  - now rewrite String.eqb_refl.
  - destruct (String.eqb k k') eqn:E; cbn [Dict.get]; rewrite E;
      [reflexivity | exact IH].
Qed.

Lemma get_set_ne {V} k k' (v : V) d :
  k' <> k -> Dict.get k' (Dict.set k v d) = Dict.get k' d.
Proof.
  intros Hne. induction d as [|[k2 v2] d IH]; cbn [Dict.set Dict.get].
  - apply String.eqb_neq in Hne. now rewrite Hne.
  - destruct (String.eqb k k2) eqn:E; cbn [Dict.get].
    + apply String.eqb_eq in E. subst k2.
      apply String.eqb_neq in Hne. now rewrite Hne.
    + now rewrite IH.
Qed.

Lemma mem_get {V} k (d : list (string * V)) :
  Dict.mem k d = match Dict.get k d with Some _ => true | None => false end.
Proof.
  induction d as [|[k' v'] d IH]; cbn [Dict.mem Dict.get]; [reflexivity|].
  destruct (String.eqb k k'); [reflexivity | exact IH].
Qed.

Lemma keys_set {V} k (v : V) d :
  map fst (Dict.set k v d)
  = map fst d ++ (if Dict.mem k d then [] else [k]).
Proof.
  induction d as [|[k' v'] d IH]; cbn [Dict.set Dict.mem map fst app];
    [reflexivity|].
  destruct (String.eqb k k') eqn:E; cbn [orb map fst].
  - now rewrite app_nil_r.
  - now rewrite IH.
Qed.

Lemma get_app_last {V} k k' (v' : V) l :
  Dict.get k (l ++ [(k', v')])
  = match Dict.get k l with
    | Some x => Some x
    | None => if String.eqb k k' then Some v' else None
    end.
Proof.
  induction l as [|[k2 v2] l IH]; cbn [Dict.get app]; [reflexivity|].
  destruct (String.eqb k k2); [reflexivity | exact IH].
Qed.

(** [d.update(other)]: the last binding of a key in [other] wins; a key
    that [other] lacks keeps the value it has in [d]. *)
Lemma get_update {V} k (d other : list (string * V)) :
  Dict.get k (Dict.update d other)
  = match Dict.get k (rev other) with
    | Some v => Some v
    | None => Dict.get k d
    end.
Proof.
  unfold Dict.update. revert d.
  induction other as [|[k' v'] other IH]; intros d; cbn [fold_left rev];
    [reflexivity|].
  rewrite IH. cbn [fst snd]. rewrite get_app_last.
  destruct (Dict.get k (rev other)); [reflexivity|].
  destruct (String.eqb k k') eqn:E.
  - apply String.eqb_eq in E. subst k'. apply get_set_eq.
  - apply String.eqb_neq in E. now apply get_set_ne.
Qed.

Lemma get_in_keys {V} k (d : list (string * V)) x :
  Dict.get k d = Some x -> In k (map fst d).
Proof.
  induction d as [|[k2 v2] d IH]; cbn [Dict.get map fst]; [discriminate|].
  destruct (String.eqb k k2) eqn:E.
  - apply String.eqb_eq in E. now left.
  - right. now apply IH.
Qed.

Lemma get_rev_nodup {V} k (d : list (string * V)) :
  List.NoDup (map fst d) -> Dict.get k (rev d) = Dict.get k d.
Proof.
  induction d as [|[k' v'] d IH]; [reflexivity|].
  cbn [map fst rev Dict.get]. intros H. inversion H as [|? ? Hnotin Hnd]; subst.
  rewrite get_app_last, (IH Hnd).
  destruct (Dict.get k d) as [x|] eqn:G.
  - destruct (String.eqb k k') eqn:E; [|reflexivity].
    apply String.eqb_eq in E. subst k'.
    exfalso. apply Hnotin. exact (get_in_keys _ _ _ G).
  - reflexivity.
Qed.

End DictMore.

(** X5.  In the environment handed to the bridge process
    ([merge_with_system_env]) a variable of the custom mapping has the
    custom value, whatever the system environment says, and every other
    variable has the value of the system environment. *)
Theorem merge_with_system_env_lookup (E : environment)
  (custom_env : list (string * string)) (k : string) :
  List.NoDup (map fst custom_env) ->
  Dict.get k (merge_with_system_env E custom_env)
  = match Dict.get k custom_env with
    | Some v => Some v
    | None => Dict.get k (os_environ E)
    end.
Proof.
  intros H. unfold merge_with_system_env.
  rewrite DictMore.get_update. now rewrite DictMore.get_rev_nodup.
Qed.

Lemma merge_with_system_env_lookup_witness :
  let E := mkEnv [("PATH", "/usr/bin"); ("TRANSPORT", "sse")]
             "/usr/bin/python3" "/work" (fun p => p) (fun p => Ret p)
             (3, 11)%nat Example.urlparse0 (fun _ => None) [] Quiet None []
             (fun _ => Example.polite) (fun _ _ => Completed 0) None None
             (Ret true) in
  let env := env_vars_of "http://localhost:8888" "abcdef0123456789" "nb.ipynb" in
  Dict.get "TRANSPORT" (merge_with_system_env E env) = Some "stdio"
  /\ Dict.get "PATH" (merge_with_system_env E env) = Some "/usr/bin".
Proof.
  intros E env.
  assert (Hnd : List.NoDup (map fst env)).
  { unfold env, env_vars_of. cbn [map fst].
    repeat (constructor; [cbn [In]; intros H;
                          repeat (destruct H as [H|H]; [discriminate H|]);
                          exact H|]).
    constructor. }
  split.
  - rewrite (merge_with_system_env_lookup E env "TRANSPORT" Hnd). reflexivity.
  - rewrite (merge_with_system_env_lookup E env "PATH" Hnd). reflexivity.
Defined.

(* ===================================================================== *)
(** * Further properties: the client settings file *)
(* ===================================================================== *)

(** How computations end: rules for [raises], [returns] and [stays]. *)
Module Ends.

Lemma raises_ret {S A} C (a : A) : raises (S := S) C (ret a).
Proof. intros s e H. discriminate H. Qed.

Lemma raises_raise {S A} (C : exn -> Prop) e :
  C e -> raises (S := S) (A := A) C (raise e).
Proof. intros H s e' [= <-]. exact H. Qed.

Lemma raises_spin {S A} C : raises (S := S) (A := A) C spin.
Proof. intros s e H. discriminate H. Qed.

Lemma raises_bind {S A B} C (m : M S A) (k : A -> M S B) :
  raises C m -> (forall a, raises C (k a)) -> raises C (bind m k).
Proof.
  intros Hm Hk s e. unfold bind. specialize (Hm s).
  destruct (m s) as [[a|e'|] s1]; cbn [fst] in *.
  - apply Hk.
  - intros [= <-]. now apply Hm.
  - discriminate.
Qed.

Lemma raises_try {S A} (C C' : exn -> Prop) (m : M S A) handler :
  raises C m ->
  (forall e, C e -> match handler e with
                    | Some h => raises C' h
                    | None => C' e
                    end) ->
  raises C' (try_except m handler).
Proof.
  intros Hm Hh s e. unfold try_except. specialize (Hm s).
  destruct (m s) as [[a|e'|] s1]; cbn [fst] in *; [discriminate| |discriminate].
  specialize (Hh e' (Hm e' eq_refl)).
  destruct (handler e') as [h|].
  - apply Hh.
  - intros [= <-]. exact Hh.
Qed.

Lemma raises_finally {S A} (C : exn -> Prop) (m : M S A) fin :
  raises C m -> raises C fin -> raises C (try_finally m fin).
Proof.
  intros Hm Hf s e. unfold try_finally. specialize (Hm s).
  destruct (m s) as [o s1]. specialize (Hf s1).
  destruct o as [a|e'|]; [| |discriminate];
    destruct (fin s1) as [[[]|e2|] s2]; cbn [fst] in *;
    try discriminate; intros [= <-]; auto.
Qed.

Lemma raises_lift {A} C (m : M world A) : raises C m -> raises C (lift m).
Proof.
  intros Hm [self w] e. unfold lift. cbn [fst snd]. specialize (Hm w e).
  destruct (m w) as [o w1]. exact Hm.
Qed.

Lemma raises_weaken {S A} (C C' : exn -> Prop) (m : M S A) :
  raises C m -> (forall e, C e -> C' e) -> raises C' m.
Proof. intros Hm H s e He. apply H. exact (Hm s e He). Qed.

Lemma raises_plain {S A} C (f : S -> S) (a : A) :
  raises C (fun s => (Ret a, f s)).
Proof. intros s e H. discriminate H. Qed.

(** ** [returns] *)

Lemma returns_ret {S A} (V : A -> Prop) a : V a -> returns (S := S) V (ret a).
Proof. intros H s a' [= <-]. exact H. Qed.

Lemma returns_raise {S A} (V : A -> Prop) e : returns (S := S) V (raise e).
Proof. intros s a H. discriminate H. Qed.

Lemma returns_spin {S A} (V : A -> Prop) : returns (S := S) V spin.
Proof. intros s a H. discriminate H. Qed.

Lemma returns_bind {S A B} (V' : A -> Prop) (V : B -> Prop)
  (m : M S A) (k : A -> M S B) :
  returns V' m -> (forall a, V' a -> returns V (k a)) -> returns V (bind m k).
Proof.
  intros Hm Hk s b. unfold bind. specialize (Hm s).
  destruct (m s) as [[a|e'|] s1]; cbn [fst] in *; [|discriminate..].
  apply Hk. now apply Hm.
Qed.

Lemma returns_try {S A} (V : A -> Prop) (m : M S A) handler :
  returns V m -> (forall e h, handler e = Some h -> returns V h) ->
  returns V (try_except m handler).
Proof.
  intros Hm Hh s a. unfold try_except. specialize (Hm s).
  destruct (m s) as [[a'|e'|] s1]; cbn [fst] in *; [apply Hm| |discriminate].
  destruct (handler e') as [h|] eqn:E; [|discriminate].
  exact (Hh e' h E s1 a).
Qed.

Lemma returns_finally {S A} (V : A -> Prop) (m : M S A) fin :
  returns V m -> returns V (try_finally m fin).
Proof.
  intros Hm s a. unfold try_finally. specialize (Hm s).
  destruct (m s) as [o s1].
  destruct o as [a'|e'|]; [| |discriminate];
    destruct (fin s1) as [[[]|e2|] s2]; cbn [fst] in *;
    try discriminate. apply Hm.
Qed.

Lemma returns_any {S A} (m : M S A) : returns (fun _ => True) m.
Proof. intros s a _. exact I. Qed.

(** ** [stays] *)

Section Stays.

Context {S : Type} (R : S -> S -> Prop).
Hypothesis R_refl : forall s, R s s.
Hypothesis R_trans : forall s1 s2 s3, R s1 s2 -> R s2 s3 -> R s1 s3.

Lemma stays_ret {A} (a : A) : stays R (ret a).
Proof. intros s. apply R_refl. Qed.

Lemma stays_raise {A} e : stays R (raise (A := A) e).
Proof. intros s. apply R_refl. Qed.

Lemma stays_spin {A} : stays R (spin (A := A)).
Proof. intros s. apply R_refl. Qed.

Lemma stays_bind {A B} (m : M S A) (k : A -> M S B) :
  stays R m -> (forall a, stays R (k a)) -> stays R (bind m k).
Proof.
  intros Hm Hk s. unfold bind. specialize (Hm s).
  destruct (m s) as [[a|e|] s1]; cbn [snd] in *; [|exact Hm..].
  eapply R_trans; [exact Hm | apply Hk].
Qed.

Lemma stays_try {A} (m : M S A) handler :
  stays R m -> (forall e h, handler e = Some h -> stays R h) ->
  stays R (try_except m handler).
Proof.
  intros Hm Hh s. unfold try_except. specialize (Hm s).
  destruct (m s) as [[a|e|] s1]; cbn [snd] in *; [exact Hm| |exact Hm].
  destruct (handler e) as [h|] eqn:E; [|exact Hm].
  eapply R_trans; [exact Hm | exact (Hh e h E s1)].
Qed.

Lemma stays_finally {A} (m : M S A) fin :
  stays R m -> stays R fin -> stays R (try_finally m fin).
Proof.
  intros Hm Hf s. unfold try_finally. specialize (Hm s).
  destruct (m s) as [o s1]. specialize (Hf s1). cbn [snd] in *.
  destruct o as [a|e|]; [| |exact Hm];
    destruct (fin s1) as [[[]|e2|] s2]; cbn [snd] in *;
    (eapply R_trans; [exact Hm | exact Hf]).
Qed.

End Stays.

(** ** [settles] *)

Lemma settles_ret {S A} C (a : A) : settles (S := S) C (ret a).
Proof. intros s. exact I. Qed.

Lemma settles_raise {S A} (C : exn -> Prop) e :
  C e -> settles (S := S) (A := A) C (raise e).
Proof. intros H s. exact H. Qed.

Lemma settles_plain {S A} C (f : S -> S) (a : A) :
  settles C (fun s => (Ret a, f s)).
Proof. intros s. exact I. Qed.

Lemma settles_log C l msg : settles C (log l msg).
Proof. intros s. exact I. Qed.

Lemma settles_get_world C : settles C get_world.
Proof. intros s. exact I. Qed.

Lemma settles_get_self C : settles C get_self.
Proof. intros s. exact I. Qed.

Lemma settles_put_self C self : settles C (put_self self).
Proof. intros s. exact I. Qed.

Lemma settles_bind {S A B} C (m : M S A) (k : A -> M S B) :
  settles C m -> (forall a, settles C (k a)) -> settles C (bind m k).
Proof.
  intros Hm Hk s. unfold bind. specialize (Hm s).
  destruct (m s) as [[a|e|] s1]; cbn [fst] in *; [apply Hk | exact Hm..].
Qed.

Lemma settles_try {S A} (C C' : exn -> Prop) (m : M S A) handler :
  settles C m ->
  (forall e, C e -> match handler e with
                    | Some h => settles C' h
                    | None => C' e
                    end) ->
  settles C' (try_except m handler).
Proof.
  intros Hm Hh s. unfold try_except. specialize (Hm s).
  destruct (m s) as [[a|e|] s1]; cbn [fst] in *; [exact I| |exact Hm].
  specialize (Hh e Hm). destruct (handler e) as [h|]; [apply Hh | exact Hh].
Qed.

Lemma settles_weaken {S A} (C C' : exn -> Prop) (m : M S A) :
  settles C m -> (forall e, C e -> C' e) -> settles C' m.
Proof.
  intros Hm H s. specialize (Hm s).
  destruct (fst (m s)); [exact I | now apply H | exact Hm].
Qed.

Lemma settles_lift {A} C (m : M world A) : settles C m -> settles C (lift m).
Proof.
  intros Hm [self w]. unfold lift. cbn [fst snd]. specialize (Hm w).
  destruct (m w) as [o w1]. exact Hm.
Qed.

Lemma settles_raises {S A} C (m : M S A) : settles C m -> raises C m.
Proof. intros Hm s e He. specialize (Hm s). now rewrite He in Hm. Qed.

(** What the operations on files raise is caught by [except Exception]. *)
Lemma settles_ensure_directory p : settles ordinary (ensure_directory p).
Proof.
  intros w. unfold ensure_directory.
  destruct (nodes w !! p) as [[]|]; try reflexivity; try exact I.
  destruct (bool_decide _); [reflexivity | exact I].
Qed.

Lemma settles_open_w p : settles ordinary (open_w p).
Proof.
  intros w. unfold open_w. destruct (bool_decide _); [reflexivity|].
  destruct (nodes w !! p) as [[]|]; try reflexivity; exact I.
Qed.

Lemma settles_json_dump C p j : settles C (json_dump p j).
Proof. intros w. exact I. Qed.

Lemma settles_json_load p : settles ordinary (json_load p).
Proof.
  intros w. unfold json_load. destruct (bool_decide _); [reflexivity|].
  destruct (nodes w !! p) as [[]|]; try reflexivity; exact I.
Qed.

Lemma settles_unlink p : settles ordinary (unlink p).
Proof.
  intros w. unfold unlink. destruct (bool_decide _); [reflexivity|].
  destruct (nodes w !! p); [exact I | reflexivity].
Qed.

Lemma settles_get_virtual_env_python project :
  settles (fun e => is_SetupError e = true) (get_virtual_env_python project).
Proof.
  intros w. unfold get_virtual_env_python.
  destruct (negb _); [reflexivity|]. destruct (negb _); [reflexivity | exact I].
Qed.

(** A command can also be interrupted from the keyboard. *)
Lemma settles_run_command E cmd :
  settles (fun e => ordinary e \/ e = KeyboardInterrupt) (run_command E cmd).
Proof.
  intros w. unfold run_command.
  destruct (command_result E cmd w) as [[| |]| | |]; cbn [fst];
    try exact I; try (left; reflexivity). now right.
Qed.

(** A handler [except Exception as e: h e] that itself ends well. *)
Lemma settles_on_Exception {S A} (C C' : exn -> Prop) (m : M S A) h :
  settles C m ->
  (forall e, C e -> is_Exception e = true -> settles C' (h e)) ->
  (forall e, C e -> is_Exception e = false -> C' e) ->
  settles C' (try_except m (on_Exception h)).
Proof.
  intros Hm Hh Hn. apply (settles_try C); [exact Hm|].
  intros e He. unfold on_Exception.
  destruct (is_Exception e) eqn:Hx; [now apply Hh | now apply Hn].
Qed.

(** A relation on worlds, read on the world of the orchestrator. *)
Lemma stays_lift {A} (R : world -> world -> Prop) (m : M world A) :
  stays R m -> stays (fun s s' => fst s' = fst s /\ R (snd s) (snd s')) (lift m).
Proof.
  intros Hm [self w]. unfold lift. cbn [fst snd]. specialize (Hm w).
  destruct (m w) as [o w1]. now split.
Qed.

End Ends.

Module SettingsMore.
Import MonadFacts.

Lemma mem_set {V} k (v : V) d : Dict.mem k (Dict.set k v d) = true.
Proof. rewrite DictMore.mem_get. now rewrite DictMore.get_set_eq. Qed.

Lemma listed_app server items :
  listed server (items ++ [JStr server]) = true.
Proof.
  unfold listed. rewrite existsb_app. cbn [existsb].
  rewrite String.eqb_refl. now rewrite orb_true_r.
Qed.

Lemma update_present server members enabled :
  Dict.get enabled_key members = Some enabled ->
  py_contains server enabled = Some true ->
  update_enabled_mcp_servers server (JObj members) = Ret (JObj members).
Proof.
  intros Hg Hc. unfold update_enabled_mcp_servers. fold enabled_key.
  rewrite DictMore.mem_get, Hg. cbn [negb]. now rewrite Hg, Hc.
Qed.

(** A document that is no object cannot be subscripted with the key. *)
Lemma update_not_object server j :
  (forall members, j <> JObj members) ->
  exists e, update_enabled_mcp_servers server j = Raise e.
Proof.
  intros H. destruct j; try (eexists; reflexivity). now destruct (H members).
Qed.

End SettingsMore.

(** X6.  Whenever [update_enabled_mcp_servers] returns, the settings
    were a JSON object and the result is that object in which the value
    of ["enabledMcpjsonServers"] contains the server name: every other
    key has the value it had, the keys keep their order (a new
    ["enabledMcpjsonServers"] goes last), a list that had the name is
    unchanged and one that lacked it has the name appended after its
    entries, a missing key becomes the one-element list; and a second
    call on the result returns the result unchanged. *)
Theorem update_enabled_mcp_servers_merge (server : string) (settings j : json) :
  update_enabled_mcp_servers server settings = Ret j ->
  exists members members' enabled',
    settings = JObj members /\ j = JObj members'
    /\ Dict.get enabled_key members' = Some enabled'
    /\ py_contains server enabled' = Some true
    /\ (forall k, k <> enabled_key ->
                  Dict.get k members' = Dict.get k members)
    /\ map fst members'
       = map fst members
           ++ (if Dict.mem enabled_key members then [] else [enabled_key])
    /\ (forall items,
           Dict.get enabled_key members = Some (JArr items) ->
           enabled' = JArr (if listed server items then items
                            else items ++ [JStr server]))
    /\ (Dict.mem enabled_key members = false -> enabled' = JArr [JStr server])
    /\ update_enabled_mcp_servers server j = Ret j.
Proof.
  destruct settings as [| | | | |members]; try discriminate.
  unfold update_enabled_mcp_servers at 1. fold enabled_key.
  destruct (Dict.mem enabled_key members) eqn:Hmem; cbn [negb].
  - (* the key is there *)
    rewrite DictMore.mem_get in Hmem.
    destruct (Dict.get enabled_key members) as [enabled|] eqn:Hg;
      [clear Hmem | discriminate].
    destruct (py_contains server enabled) as [[]|] eqn:Hc; [| |discriminate].
    + intros [= <-]. exists members, members, enabled.
      repeat (split; [reflexivity || assumption|]).
      split; [rewrite DictMore.mem_get, Hg; now rewrite app_nil_r|].
      split.
      { intros items Hi. rewrite Hg in Hi. injection Hi as ->.
        cbn [py_contains] in Hc. injection Hc as Hc.
        fold (listed server items) in Hc. now rewrite Hc. }
      split; [rewrite DictMore.mem_get, Hg; discriminate|].
      now apply (SettingsMore.update_present server members enabled).
    + destruct enabled as [| | | |items|]; try discriminate.
      intros [= <-].
      exists members, (Dict.set enabled_key (JArr (items ++ [JStr server])) members),
        (JArr (items ++ [JStr server])).
      split; [reflexivity|]. split; [reflexivity|].
      split; [apply DictMore.get_set_eq|].
      split.
      { cbn [py_contains]. fold (listed server (items ++ [JStr server])).
        now rewrite SettingsMore.listed_app. }
      split; [intros k Hk; now apply DictMore.get_set_ne|].
      split.
      { rewrite DictMore.keys_set, DictMore.mem_get, Hg. reflexivity. }
      split.
      { intros items' Hi. rewrite Hg in Hi. injection Hi as <-.
        cbn [py_contains] in Hc. injection Hc as Hc.
        fold (listed server items) in Hc. now rewrite Hc. }
      split; [rewrite DictMore.mem_get, Hg; discriminate|].
      apply (SettingsMore.update_present server _ (JArr (items ++ [JStr server]))).
      * apply DictMore.get_set_eq.
      * cbn [py_contains]. fold (listed server (items ++ [JStr server])).
        now rewrite SettingsMore.listed_app.
  - (* the key is missing *)
    rewrite DictMore.get_set_eq. cbn [py_contains existsb].
    intros [= <-]. cbn [app].
    exists members,
      (Dict.set enabled_key (JArr [JStr server])
         (Dict.set enabled_key (JArr []) members)),
      (JArr [JStr server]).
    split; [reflexivity|]. split; [reflexivity|].
    split; [apply DictMore.get_set_eq|].
    split; [cbn [py_contains existsb]; now rewrite String.eqb_refl|].
    split; [intros k Hk; now rewrite !DictMore.get_set_ne by exact Hk|].
    split.
    { rewrite !DictMore.keys_set, SettingsMore.mem_set, Hmem.
      cbv iota. now rewrite app_nil_r. }
    split.
    { intros items Hg. rewrite DictMore.mem_get, Hg in Hmem. discriminate. }
    split; [reflexivity|].
    apply (SettingsMore.update_present server _ (JArr [JStr server])).
    + apply DictMore.get_set_eq.
    + cbn [py_contains existsb]. now rewrite String.eqb_refl.
Qed.

Lemma update_enabled_mcp_servers_merge_witness :
  exists members',
    update_enabled_mcp_servers "jupyter"
      (JObj [("enabledMcpjsonServers", JArr [JStr "github"]);
             ("theme", JStr "dark")])
    = Ret (JObj members')
    /\ Dict.get enabled_key members'
       = Some (JArr [JStr "github"; JStr "jupyter"])
    /\ map fst members' = ["enabledMcpjsonServers"; "theme"].
Proof.
  destruct (update_enabled_mcp_servers_merge "jupyter"
              (JObj [("enabledMcpjsonServers", JArr [JStr "github"]);
                     ("theme", JStr "dark")])
              (JObj [("enabledMcpjsonServers",
                      JArr [JStr "github"; JStr "jupyter"]);
                     ("theme", JStr "dark")])
              eq_refl)
    as (members & members' & enabled' & Hs & Hj & Hg & _ & _ & Hk & Hi & _).
  injection Hs as <-. exists members'.
  split; [rewrite <- Hj; reflexivity|].
  split.
  - rewrite Hg. f_equal. exact (Hi [JStr "github"] eq_refl).
  - rewrite Hk. reflexivity.
Defined.

Module SettingsFile.
Import MonadFacts.

Section Project.

Variable project : string.

Let dir : string := path_join project ".claude".
Let path : string := get_claude_config_path project.

Lemma ensure_claude_directory_created w :
  nodes w !! dir = None -> dir ∉ denied w ->
  ensure_claude_directory project w
  = (Ret true, set_nodes (emit (EMkdir dir) w) (<[dir := Dir]> (nodes w))).
Proof.
  intros Hn Hd. unfold ensure_claude_directory. fold dir. apply try_ret.
  erewrite bind_ret.
  2:{ unfold ensure_directory. rewrite Hn.
      rewrite bool_decide_false by exact Hd. reflexivity. }
  erewrite bind_ret by reflexivity.
  unfold access_w, path_exists. cbn [nodes denied set_nodes emit].
  rewrite lookup_insert_eq. rewrite bool_decide_false by exact Hd.
  reflexivity.
Qed.

Lemma load_missing w :
  nodes w !! path = None ->
  load_existing_claude_settings project w = (Ret (JObj []), w).
Proof.
  intros Hn. unfold load_existing_claude_settings. fold path.
  erewrite bind_ret by reflexivity.
  unfold path_exists. now rewrite Hn.
Qed.

Lemma load_raw content w :
  nodes w !! path = Some (Raw content) -> path ∉ unreadable w ->
  load_existing_claude_settings project w
  = (Ret (JObj []),
     emit (ELog Warning
             "Invalid JSON in Claude settings, starting fresh: Expecting value")
       w).
Proof.
  intros Hn Hr. unfold load_existing_claude_settings. fold path.
  erewrite bind_ret by reflexivity.
  unfold path_exists. rewrite Hn. cbn [negb].
  rewrite try_except_unfold. unfold json_load.
  rewrite bool_decide_false by exact Hr. rewrite Hn. reflexivity.
Qed.

Lemma load_unreadable f w :
  nodes w !! path = Some f -> path ∈ unreadable w ->
  load_existing_claude_settings project w
  = (Ret (JObj []),
     emit (ELog Error
             ("Error loading Claude settings: Permission denied: " +:+ path))
       w).
Proof.
  intros Hn Hr. unfold load_existing_claude_settings. fold path.
  erewrite bind_ret by reflexivity.
  unfold path_exists. rewrite Hn. cbn [negb].
  rewrite try_except_unfold. unfold json_load.
  rewrite bool_decide_true by exact Hr. reflexivity.
Qed.

(** What [update_enabled_mcp_servers] raises is a [TypeError] or an
    [AttributeError]. *)
Lemma update_raises_exception server settings e :
  update_enabled_mcp_servers server settings = Raise e ->
  is_Exception e = true.
Proof.
  unfold update_enabled_mcp_servers.
  destruct settings as [| | | | |members]; try (intros [= <-]; reflexivity).
  match goal with |- context [Dict.get ?k ?m] => destruct (Dict.get k m) as [enabled|] end;
    [|intros [= <-]; reflexivity].
  destruct (py_contains server enabled) as [[]|];
    [discriminate | | intros [= <-]; reflexivity].
  destruct enabled; intros [= <-]; reflexivity.
Qed.

Lemma update_never_spins server settings :
  update_enabled_mcp_servers server settings <> Spin.
Proof.
  unfold update_enabled_mcp_servers.
  destruct settings as [| | | | |members]; try discriminate.
  match goal with |- context [Dict.get ?k ?m] => destruct (Dict.get k m) as [enabled|] end;
    [|discriminate].
  destruct (py_contains server enabled) as [[]|]; try discriminate.
  destruct enabled; discriminate.
Qed.

(** The write itself, once the directory is there and the settings are
    loaded. *)
Lemma generate_steps server w w1 w2 settings :
  ensure_claude_directory project w = (Ret true, w1) ->
  load_existing_claude_settings project w1 = (Ret settings, w2) ->
  path ∉ denied w2 -> nodes w2 !! path <> Some Dir ->
  generate_claude_settings project server w
  = match update_enabled_mcp_servers server settings with
    | Ret j =>
        (Ret true,
         set_nodes (emit (EDump path j) (emit (EOpenW path) w2))
           (<[path := Doc j]> (nodes w2)))
    | Raise e =>
        (Ret false,
         emit (ELog Error ("Failed to generate Claude settings: "
                             +:+ exn_str e)) w2)
    | Spin => (Spin, w2)
    end.
Proof.
  intros He Hl Hd Hn. unfold generate_claude_settings. fold path.
  rewrite try_except_unfold.
  erewrite bind_ret by exact He. cbn [negb].
  erewrite bind_ret by exact Hl.
  rewrite bind_unfold.
  destruct (update_enabled_mcp_servers server settings) as [j|e|] eqn:Hu.
  - erewrite bind_ret by (apply Settings.open_w_file; assumption).
    erewrite bind_ret by reflexivity.
    cbn [ret]. unfold ret. f_equal.
    unfold set_nodes, emit. cbn [nodes denied unreadable exec jupyter_state
                                  mcp_state trace].
    f_equal. apply insert_insert_eq.
  - unfold on_Exception.
    rewrite (update_raises_exception _ _ _ Hu). reflexivity.
  - reflexivity.
Qed.

End Project.

End SettingsFile.

(** X7.  In a project without a settings file, whether the [.claude]
    directory is there or not, [generate_claude_settings] creates what is
    missing and leaves the document
    [{"enabledMcpjsonServers": [server]}] in the file; it returns [True]
    and its steps are the [mkdir], the [open] and the [json.dump]. *)
Theorem generate_claude_settings_fresh (project server : string) (w : world) :
  let dir := path_join project ".claude" in
  let path := get_claude_config_path project in
  let fresh := JObj [(enabled_key, JArr [JStr server])] in
  nodes w !! dir = None \/ nodes w !! dir = Some Dir ->
  dir ∉ denied w -> path ∉ denied w ->
  nodes w !! path = None ->
  exists w',
    generate_claude_settings project server w = (Ret true, w')
    /\ nodes w' = <[path := Doc fresh]> (<[dir := Dir]> (nodes w))
    /\ trace w' = trace w ++ [EMkdir dir; EOpenW path; EDump path fresh].
Proof.
  intros dir path fresh Hdir Hd Hp Hn.
  assert (Hne : dir <> path) by apply Settings.settings_path_not_dir.
  destruct Hdir as [Hdir|Hdir].
  - pose proof (SettingsFile.ensure_claude_directory_created project w Hdir Hd)
      as He.
    assert (Hl : load_existing_claude_settings project
                   (set_nodes (emit (EMkdir dir) w) (<[dir := Dir]> (nodes w)))
                 = (Ret (JObj []),
                    set_nodes (emit (EMkdir dir) w) (<[dir := Dir]> (nodes w)))).
    { apply SettingsFile.load_missing. cbn [nodes set_nodes emit].
      fold dir path. now rewrite lookup_insert_ne. }
    rewrite (SettingsFile.generate_steps project server w _ _ _ He Hl).
    + eexists. split; [reflexivity|].
      cbn [nodes trace set_nodes emit]. split; [reflexivity|].
      now rewrite <- !app_assoc.
    + exact Hp.
    + cbn [nodes set_nodes emit]. fold dir path.
      rewrite lookup_insert_ne by exact Hne. rewrite Hn. discriminate.
  - pose proof (Settings.ensure_claude_directory_ok project w Hdir Hd) as He.
    assert (Hl : load_existing_claude_settings project (emit (EMkdir dir) w)
                 = (Ret (JObj []), emit (EMkdir dir) w))
      by now apply SettingsFile.load_missing.
    rewrite (SettingsFile.generate_steps project server w _ _ _ He Hl).
    + eexists. split; [reflexivity|].
      cbn [nodes trace set_nodes emit]. split.
      * fold dir. now rewrite (insert_id (nodes w) dir Dir Hdir).
      * now rewrite <- !app_assoc.
    + exact Hp.
    + cbn [nodes emit]. fold path. rewrite Hn. discriminate.
Qed.

Lemma generate_claude_settings_fresh_witness :
  exists w',
    generate_claude_settings "/srv" "jupyter" Example.world0 = (Ret true, w')
    /\ nodes w' !! "/srv/.claude/settings.local.json"
       = Some (Doc (JObj [("enabledMcpjsonServers", JArr [JStr "jupyter"])]))
    /\ nodes w' !! "/srv/.claude" = Some Dir.
Proof.
  destruct (generate_claude_settings_fresh "/srv" "jupyter" Example.world0)
    as (w' & Hr & Hn & _).
  - left. vm_compute. reflexivity.
  - apply not_elem_of_empty.
  - apply not_elem_of_empty.
  - vm_compute. reflexivity.
  - exists w'. split; [exact Hr|]. rewrite Hn. split.
    + apply lookup_insert_eq.
    + rewrite lookup_insert_ne by discriminate. apply lookup_insert_eq.
Defined.



(** X9.  A settings document that cannot take the entry is left alone:
    when the file holds valid JSON on which
    [update_enabled_mcp_servers] raises (anything but an object, such as
    a list or a number; or an object whose ["enabledMcpjsonServers"] is
    neither a list nor a container of the name),
    [generate_claude_settings] returns [False], logs the error and
    writes nothing. *)
Theorem generate_claude_settings_rejects_document
  (project server : string) (settings : json) (e : exn) (w : world) :
  let dir := path_join project ".claude" in
  let path := get_claude_config_path project in
  nodes w !! dir = Some Dir -> dir ∉ denied w -> path ∉ denied w ->
  path ∉ unreadable w ->
  nodes w !! path = Some (Doc settings) ->
  update_enabled_mcp_servers server settings = Raise e ->
  generate_claude_settings project server w
  = (Ret false,
     emit (ELog Error ("Failed to generate Claude settings: " +:+ exn_str e))
       (emit (EMkdir dir) w))
  /\ (forall j, (forall members, j <> JObj members) ->
                exists e', update_enabled_mcp_servers server j = Raise e').
Proof.
  intros dir path Hdir Hd Hp Hr Hn Hu. split.
  - rewrite (SettingsFile.generate_steps project server w _ _ settings
               (Settings.ensure_claude_directory_ok project w Hdir Hd)
               (Settings.load_existing_claude_settings_doc project settings
                  (emit (EMkdir dir) w) Hr Hn)).
    + now rewrite Hu.
    + exact Hp.
    + cbn [nodes emit]. fold path. rewrite Hn. discriminate.
  - intros j Hj. now apply SettingsMore.update_not_object.
Qed.

Lemma generate_claude_settings_rejects_document_witness :
  let w := set_nodes Example.world0
             (<[Example.settings0 := Doc (JArr [JStr "jupyter"])]>
                Example.nodes0) in
  exists msg,
    generate_claude_settings "/work" "jupyter" w
    = (Ret false,
       emit (ELog Error msg) (emit (EMkdir "/work/.claude") w)).
Proof.
  intros w. eexists.
  apply (generate_claude_settings_rejects_document "/work" "jupyter"
           (JArr [JStr "jupyter"])
           (Builtin TypeError "indices must be integers") w).
  - vm_compute. reflexivity.
  - apply not_elem_of_empty.
  - apply not_elem_of_empty.
  - apply not_elem_of_empty.
  - vm_compute. reflexivity.
  - reflexivity.
Defined.

Module SettingsEnds.
Import Ends.

Lemma settles_ensure_claude_directory project :
  settles nothing (ensure_claude_directory project).
Proof.
  unfold ensure_claude_directory.
  apply (settles_on_Exception ordinary).
  - apply settles_bind; [apply settles_ensure_directory|]. intros _.
    apply settles_bind; [apply settles_get_world|]. intros w.
    destruct (negb _); [apply settles_raise; reflexivity | apply settles_ret].
  - intros e _ _. apply settles_bind; [apply settles_log|]. intros _.
    apply settles_ret.
  - intros e He Hx. unfold ordinary in He. congruence.
Qed.

Lemma settles_load_existing_claude_settings project :
  settles nothing (load_existing_claude_settings project).
Proof.
  unfold load_existing_claude_settings.
  apply settles_bind; [apply settles_get_world|]. intros w.
  destruct (negb _); [apply settles_ret|].
  apply (settles_try ordinary); [apply settles_json_load|].
  intros e He. destruct (is_JSONDecodeError e).
  - apply settles_bind; [apply settles_log|]. intros _. apply settles_ret.
  - unfold on_Exception. rewrite He.
    apply settles_bind; [apply settles_log|]. intros _. apply settles_ret.
Qed.

Lemma settles_generate_claude_settings project server :
  settles nothing (generate_claude_settings project server).
Proof.
  unfold generate_claude_settings.
  apply (settles_on_Exception ordinary).
  - apply settles_bind.
    { eapply settles_weaken; [apply settles_ensure_claude_directory|].
      intros e []. }
    intros ok. destruct (negb ok); [apply settles_ret|].
    apply settles_bind.
    { eapply settles_weaken; [apply settles_load_existing_claude_settings|].
      intros e []. }
    intros settings. apply settles_bind.
    { intros w. cbn [fst].
      destruct (update_enabled_mcp_servers server settings) as [j|e|] eqn:Hu;
        [exact I | | ].
      - exact (SettingsFile.update_raises_exception _ _ _ Hu).
      - exact (SettingsFile.update_never_spins _ _ Hu). }
    intros j. apply settles_bind; [apply settles_open_w|]. intros _.
    apply settles_bind; [apply settles_json_dump|]. intros _.
    apply settles_ret.
  - intros e _ _. apply settles_bind; [apply settles_log|]. intros _.
    apply settles_ret.
  - intros e He Hx. unfold ordinary in He. congruence.
Qed.

(** ** What the settings write leaves alone *)

Lemma keeps_world_ensure_directory p q :
  q <> p -> keeps_world p (ensure_directory q).
Proof.
  intros Hq w. unfold ensure_directory.
  destruct (nodes w !! q) as [[]|]; try reflexivity.
  destruct (bool_decide _); [reflexivity|].
  cbn [snd nodes set_nodes emit]. now apply lookup_insert_ne.
Qed.

Lemma keeps_world_open_w p q : q <> p -> keeps_world p (open_w q).
Proof.
  intros Hq w. unfold open_w. destruct (bool_decide _); [reflexivity|].
  destruct (nodes w !! q) as [[]|]; try reflexivity;
    cbn [snd nodes set_nodes emit]; now apply lookup_insert_ne.
Qed.

Lemma keeps_world_json_dump p q j : q <> p -> keeps_world p (json_dump q j).
Proof.
  intros Hq w. cbn [json_dump snd nodes set_nodes emit].
  now apply lookup_insert_ne.
Qed.

Lemma keeps_world_json_load p q : keeps_world p (json_load q).
Proof.
  intros w. unfold json_load. destruct (bool_decide _); [reflexivity|].
  now destruct (nodes w !! q) as [[]|].
Qed.

Lemma keeps_world_plain {A} p (f : world -> world) (a : A) :
  (forall w, nodes (f w) = nodes w) ->
  keeps_world p (fun w => (Ret a, f w)).
Proof. intros H w. cbn [snd]. now rewrite H. Qed.

Lemma keeps_world_on_Exception {A} p (m : M world A) h :
  keeps_world p m -> (forall e, keeps_world p (h e)) ->
  keeps_world p (try_except m (on_Exception h)).
Proof.
  intros Hm Hh. apply Frame.keeps_world_try; [exact Hm|].
  intros e k Hk. unfold on_Exception in Hk.
  destruct (is_Exception e); [|discriminate]. injection Hk as <-. apply Hh.
Qed.

Lemma keeps_world_log_then {A} p l msg (a : A) :
  keeps_world p (log l msg ;; ret a).
Proof.
  apply Frame.keeps_world_bind; [apply Frame.keeps_world_emit|].
  intros _. apply Frame.keeps_world_ret.
Qed.

Lemma keeps_world_generate_claude_settings project server p :
  p <> path_join project ".claude" -> p <> get_claude_config_path project ->
  keeps_world p (generate_claude_settings project server).
Proof.
  intros Hd Hp. unfold generate_claude_settings.
  apply keeps_world_on_Exception; [|intros e; apply keeps_world_log_then].
  apply Frame.keeps_world_bind.
  { unfold ensure_claude_directory.
    apply keeps_world_on_Exception; [|intros e; apply keeps_world_log_then].
    apply Frame.keeps_world_bind;
      [apply keeps_world_ensure_directory; congruence|]. intros _.
    apply Frame.keeps_world_bind; [apply Frame.keeps_world_get_world|].
    intros w. destruct (negb _);
      [apply Frame.keeps_world_raise | apply Frame.keeps_world_ret]. }
  intros ok. destruct (negb ok); [apply Frame.keeps_world_ret|].
  apply Frame.keeps_world_bind.
  { unfold load_existing_claude_settings.
    apply Frame.keeps_world_bind; [apply Frame.keeps_world_get_world|].
    intros w. destruct (negb _); [apply Frame.keeps_world_ret|].
    apply Frame.keeps_world_try; [apply keeps_world_json_load|].
    intros e h Hh. destruct (is_JSONDecodeError e).
    - injection Hh as <-. apply keeps_world_log_then.
    - unfold on_Exception in Hh. destruct (is_Exception e); [|discriminate].
      injection Hh as <-. apply keeps_world_log_then. }
  intros settings. apply Frame.keeps_world_bind.
  { intros w. reflexivity. }
  intros j. apply Frame.keeps_world_bind;
    [apply keeps_world_open_w; congruence|]. intros _.
  apply Frame.keeps_world_bind;
    [apply keeps_world_json_dump; congruence|]. intros _.
  apply Frame.keeps_world_ret.
Qed.

End SettingsEnds.

(** X10.  [generate_claude_settings] never raises: whatever the state of
    the file system, it returns [True] or [False].  And it touches
    nothing but the [.claude] directory of the project and the settings
    file in it: every other path is as it was. *)
Theorem generate_claude_settings_contained
  (project server : string) (w : world) :
  let r := generate_claude_settings project server w in
  (fst r = Ret true \/ fst r = Ret false)
  /\ (forall p,
         p <> path_join project ".claude" ->
         p <> get_claude_config_path project ->
         nodes (snd r) !! p = nodes w !! p).
Proof.
  intros r. subst r. split.
  - pose proof (SettingsEnds.settles_generate_claude_settings project server w)
      as H.
    destruct (fst (generate_claude_settings project server w)) as [[]|e|];
      [now left | now right | destruct H | destruct H].
  - intros p Hd Hp.
    exact (SettingsEnds.keeps_world_generate_claude_settings
             project server p Hd Hp w).
Qed.

(* ===================================================================== *)
(** * Further properties: paths and the construction of the object *)
(* ===================================================================== *)

Module PathFacts.

Lemma prefix_split p s :
  String.prefix p s = true -> s = p +:+ Str.drop (String.length p) s.
Proof.
  revert s. induction p as [|c p IH]; intros s H; [reflexivity|].
  destruct s as [|d s]; [discriminate|]. cbn [String.prefix] in H.
  destruct (ascii_dec c d) as [->|]; [|discriminate].
  cbn [String.append String.length Str.drop]. f_equal. now apply IH.
Qed.

Lemma drop_app p s : Str.drop (String.length p) (p +:+ s) = s.
Proof. induction p as [|c p IH]; [reflexivity | exact IH]. Qed.

Lemma eqb_app_longer base s : s <> EmptyString -> String.eqb (base +:+ s) base = false.
Proof.
  intros Hs. apply String.eqb_neq. intros H.
  apply (f_equal String.length) in H. rewrite StrFacts.app_length in H.
  destruct s; [congruence|]. cbn in H. lia.
Qed.

Lemma relative_to_join base rel :
  relative_to (path_join base rel) base = Some rel.
Proof.
  unfold relative_to, path_join.
  rewrite eqb_app_longer by discriminate.
  change (base +:+ "/" +:+ rel) with (base +:+ ("/" +:+ rel)).
  rewrite <- StrFacts.app_assoc. rewrite StrFacts.prefix_app.
  replace (String.length base + 1) with (String.length (base +:+ "/"))
    by (rewrite StrFacts.app_length; reflexivity).
  now rewrite drop_app.
Qed.

Lemma relative_to_sound p base rel :
  relative_to p base = Some rel ->
  (p = base /\ rel = ".") \/ path_join base rel = p.
Proof.
  unfold relative_to. destruct (String.eqb p base) eqn:E.
  - apply String.eqb_eq in E. intros [= <-]. now left.
  - destruct (String.prefix (base +:+ "/") p) eqn:Hp; [|discriminate].
    intros [= <-]. right. unfold path_join.
    apply prefix_split in Hp.
    rewrite StrFacts.app_length in Hp. cbn [String.length] in Hp.
    rewrite StrFacts.app_assoc in Hp. now symmetry.
Qed.

(** ** [path.parent] *)

Lemma last_slash_app a b i best :
  last_slash (a +:+ b) i best
  = last_slash b (i + String.length a) (last_slash a i best).
Proof.
  revert i best. induction a as [|c a IH]; intros i best.
  - cbn [String.append String.length last_slash]. now rewrite Nat.add_0_r.
  - cbn [String.append String.length last_slash]. rewrite IH.
    now rewrite Nat.add_succ_r.
Qed.

Lemma last_slash_no_slash name i best :
  no_slash name = true -> last_slash name i best = best.
Proof.
  unfold no_slash. revert i best.
  induction name as [|c name IH]; intros i best H; [reflexivity|].
  cbn [Str.all] in H. apply andb_true_iff in H as [Hc H].
  cbn [last_slash]. apply negb_true_iff in Hc. rewrite Hc. now apply IH.
Qed.

Lemma substring_app d r : String.substring 0 (String.length d) (d +:+ r) = d.
Proof.
  induction d as [|c d IH]; cbn [String.length String.append String.substring].
  - now destruct r.
  - now rewrite IH.
Qed.

Lemma last_slash_join d name :
  no_slash name = true ->
  last_slash (path_join d name) 0 None = Some (String.length d).
Proof.
  intros H. unfold path_join. rewrite last_slash_app.
  cbn [String.append last_slash Ascii.eqb Bool.eqb Nat.add].
  now apply last_slash_no_slash.
Qed.

Lemma parent_join d name :
  d <> EmptyString -> no_slash name = true -> parent (path_join d name) = d.
Proof.
  intros Hd H. unfold parent. rewrite (last_slash_join d name H).
  destruct d as [|c d]; [congruence|].
  unfold path_join. apply substring_app.
Qed.

End PathFacts.


Module InitFacts.
Import MonadFacts.

Lemma ensure_directory_usable p w :
  usable_directory p w = true ->
  exists w1,
    ensure_directory p w = (Ret tt, w1)
    /\ nodes w1 = <[p := Dir]> (nodes w)
    /\ denied w1 = denied w
    /\ trace w1 = trace w ++ [EMkdir p]
    /\ access_w p w1 = true.
Proof.
  unfold usable_directory, ensure_directory, access_w, path_exists.
  destruct (nodes w !! p) as [[]|] eqn:Hn; try discriminate; intros Hd.
  - eexists. split; [reflexivity|]. cbn [nodes denied trace emit].
    rewrite (insert_id _ _ _ Hn), Hn, Hd. auto.
  - apply negb_true_iff in Hd. rewrite Hd. eexists. split; [reflexivity|].
    cbn [nodes denied trace emit set_nodes].
    rewrite lookup_insert_eq, Hd. auto.
Qed.

Lemma ensure_directory_unusable p w :
  usable_directory p w = false ->
  exists o w1,
    ensure_directory p w = (o, w1)
    /\ nodes w1 = nodes w /\ denied w1 = denied w
    /\ trace w1 = trace w ++ [EMkdir p]
    /\ (o = Ret tt -> access_w p w1 = false)
    /\ (forall e, o = Raise e -> is_Exception e = true)
    /\ o <> Spin.
Proof.
  unfold usable_directory, ensure_directory, access_w, path_exists.
  destruct (nodes w !! p) as [[]|] eqn:Hn; intros Hd.
  - eexists _, _. split; [reflexivity|]. cbn [nodes denied trace emit].
    apply negb_false_iff in Hd. rewrite Hn, Hd.
    repeat split; try discriminate.
  - eexists _, _. split; [reflexivity|]. cbn [nodes denied trace emit].
    repeat split; try discriminate. now intros e [= <-].
  - eexists _, _. split; [reflexivity|]. cbn [nodes denied trace emit].
    repeat split; try discriminate. now intros e [= <-].
  - apply negb_false_iff in Hd. rewrite Hd.
    eexists _, _. split; [reflexivity|]. cbn [nodes denied trace emit].
    repeat split; try discriminate. now intros e [= <-].
Qed.

Lemma resolve_configuration_paths_eq (E : environment)
  (output_dir : string) (w : world) :
  let out := resolve E output_dir in
  let r := resolve_configuration_paths E output_dir w in
  if usable_directory out w
  then fst r = Ret (path_join out ".mcp.json")
       /\ nodes (snd r) = <[out := Dir]> (nodes w)
       /\ trace (snd r) = trace w ++ [EMkdir out]
  else exists msg,
      fst r = Raise (ServerSetupError
                       ("Failed to resolve configuration paths: " +:+ msg))
      /\ nodes (snd r) = nodes w
      /\ trace (snd r)
         = trace w ++ [EMkdir out;
                       ELog Error ("Failed to resolve configuration paths: "
                                     +:+ msg)].
Proof.
  intros out r. subst r. unfold resolve_configuration_paths. fold out.
  rewrite MonadFacts.try_except_unfold, MonadFacts.bind_unfold.
  destruct (usable_directory out w) eqn:Hu.
  - destruct (ensure_directory_usable out w Hu)
      as (w1 & -> & Hn & _ & Ht & Ha).
    rewrite MonadFacts.bind_unfold.
    cbn [get_world fst snd]. cbv beta iota. rewrite Ha. cbn [negb].
    cbn [ret fst snd]. unfold ret. cbn [fst snd]. auto.
  - destruct (ensure_directory_unusable out w Hu)
      as (o & w1 & -> & Hn & _ & Ht & Ha & Hx & Hs).
    destruct o as [[]|e|]; [| |congruence].
    + rewrite MonadFacts.bind_unfold.
      cbn [get_world fst snd]. cbv beta iota. rewrite (Ha eq_refl).
      cbn [negb raise on_Exception is_Exception].
      eexists. cbn [fst snd bind log modify emit raise exn_str nodes trace].
      split; [reflexivity|]. split; [exact Hn|].
      rewrite Ht, <- app_assoc. reflexivity.
    + unfold on_Exception. rewrite (Hx e eq_refl).
      eexists. cbn [fst snd bind log modify emit raise nodes trace].
      split; [reflexivity|]. split; [exact Hn|].
      rewrite Ht, <- app_assoc. reflexivity.
Qed.

End InitFacts.



(** X14.  The command line of the notebook server.  For a notebook
    [d/name] it is the interpreter of the environment with
    [-m jupyter lab], then [--port] with the custom port, or [0] when
    none was given or the one given is 0, then
    [--IdentityProvider.token] with the custom token unless none or the
    empty one was given, then [--no-browser --allow-root] and
    [--notebook-dir=d], the directory that holds the notebook. *)
Theorem jupyter_cmd_shape (self : setup) (venv_python d name : string) :
  d <> EmptyString -> no_slash name = true ->
  notebook_path self = path_join d name ->
  jupyter_cmd self venv_python
  = [venv_python; "-m"; "jupyter"; "lab"; "--port";
     match custom_port self with
     | Some p => if (p =? 0)%Z then "0" else python_str_Z p
     | None => "0"
     end]
      ++ match custom_token self with
         | Some t => if String.eqb t "" then []
                     else ["--IdentityProvider.token"; t]
         | None => []
         end
      ++ ["--no-browser"; "--allow-root"; "--notebook-dir=" +:+ d].
Proof.
  intros Hd Hn Hp. unfold jupyter_cmd. rewrite Hp.
  rewrite (PathFacts.parent_join d name Hd Hn).
  unfold truthy_port, truthy_str.
  destruct (custom_port self) as [p|]; [destruct (p =? 0)%Z|];
    (destruct (custom_token self) as [t|]; [destruct (String.eqb t "")|]);
    reflexivity.
Qed.

Lemma jupyter_cmd_shape_witness :
  jupyter_cmd Example.self0 Example.python0
  = [Example.python0; "-m"; "jupyter"; "lab"; "--port"; "0";
     "--no-browser"; "--allow-root"; "--notebook-dir=/work"].
Proof.
  apply (jupyter_cmd_shape Example.self0 Example.python0 "/work" "nb.ipynb").
  - discriminate.
  - reflexivity.
  - reflexivity.
Defined.

(* ===================================================================== *)
(** * Further properties: the supervised processes *)
(* ===================================================================== *)

Module Stopping.
Import MonadFacts Cleanup.

Lemma state_of_set_state_eq r st w : state_of r (set_state r st w) = st.
Proof. now destruct r. Qed.

Lemma state_of_set_state_ne r r' st w :
  r' <> r -> state_of r' (set_state r st w) = state_of r' w.
Proof. destruct r, r'; congruence || reflexivity. Qed.

Section Steps.

Variable E : environment.

Lemma stop_process_stops r t name w :
  stoppable E r ->
  exists w1,
    stop_process E r t name w = (Ret tt, w1)
    /\ state_of r w1 <> Running
    /\ (forall r', r' <> r -> state_of r' w1 = state_of r' w)
    /\ nodes w1 = nodes w /\ denied w1 = denied w.
Proof.
  intros (Ht & Hw & Hk).
  unfold stop_process, try_except, bind, terminate, wait, kill.
  cbv beta zeta. rewrite Ht, Hk.
  assert (Fin : forall w1 : world,
             state_of r w1 <> Running ->
             (forall r', r' <> r -> state_of r' w1 = state_of r' w) ->
             nodes w1 = nodes w -> denied w1 = denied w ->
             exists w2, (Ret tt, w1) = (Ret tt, w2)
                        /\ state_of r w2 <> Running
                        /\ (forall r', r' <> r -> state_of r' w2 = state_of r' w)
                        /\ nodes w2 = nodes w /\ denied w2 = denied w)
    by (intros w1; eauto 10).
  destruct (state_of r w) eqn:Es; rewrite ?state_of_emit, ?Es.
  - apply Fin; rewrite ?state_of_emit, ?Es; try reflexivity; try discriminate;
      intros r' _; now rewrite !state_of_emit.
  - destruct (wait_outcome (stop E r)) as [c| |c] eqn:Ew;
      [| |now destruct (Hw c)].
    + apply Fin;
        rewrite ?state_of_set_state_eq, ?nodes_set_state, ?denied_set_state;
        try reflexivity; try discriminate;
        intros r' Hr; rewrite state_of_set_state_ne by exact Hr;
        now rewrite !state_of_emit.
    + cbn [is_TimeoutExpired]. rewrite !state_of_emit, Es.
      apply Fin;
        rewrite ?state_of_set_state_eq, ?nodes_set_state, ?denied_set_state;
        try reflexivity; try discriminate;
        intros r' Hr; rewrite state_of_set_state_ne by exact Hr;
        now rewrite !state_of_emit.
  - apply Fin; rewrite ?state_of_emit, ?Es; try reflexivity; try discriminate;
      intros r' _; now rewrite !state_of_emit.
Qed.

(** [terminate] or [wait] raising something else than a timeout: the
    error is logged, [kill] is not tried, the process is left running. *)
Lemma stop_process_gives_up r t name c w :
  state_of r w = Running ->
  terminate_error (stop E r) = Some c
  \/ (terminate_error (stop E r) = None
      /\ wait_outcome (stop E r) = WaitRaises c) ->
  exists evs msg,
    stop_process E r t name w
    = (Ret tt, emit (ELog Error ("Error stopping " +:+ name +:+ ": " +:+ msg))
                 (fold_left (fun w e => emit e w) evs w))
    /\ (evs = [ETerminate r] \/ evs = [ETerminate r; EWait r t]).
Proof.
  intros Es H.
  unfold stop_process, try_except, bind, terminate, wait. cbv beta zeta.
  rewrite Es. destruct H as [Ht|[Ht Hw]]; rewrite Ht.
  - cbn [is_TimeoutExpired on_Exception is_Exception exn_str].
    exists [ETerminate r], "terminate failed". split; [reflexivity | now left].
  - rewrite state_of_emit, Es, Hw.
    cbn [is_TimeoutExpired on_Exception is_Exception exn_str].
    exists [ETerminate r; EWait r t], "wait failed".
    split; [reflexivity | now right].
Qed.

Lemma remove_config_returns path w :
  exists w1,
    remove_config path w = (Ret tt, w1)
    /\ (forall r, state_of r w1 = state_of r w)
    /\ (path ∉ denied w -> nodes w1 !! path = None).
Proof.
  unfold remove_config, try_except, bind, get_world, path_exists, unlink.
  cbv beta zeta.
  destruct (nodes w !! path) eqn:En; cbv beta iota.
  - destruct (bool_decide (path ∈ denied w)) eqn:Ed; cbv beta iota zeta;
      rewrite ?En; cbn [on_Exception is_Exception]; unfold log, modify.
    + eexists. split; [reflexivity|]. split; [now intros []|].
      intros Hd. apply bool_decide_eq_true_1 in Ed. contradiction.
    + eexists. split; [reflexivity|]. split; [now intros []|].
      intros _. cbn [nodes set_nodes emit]. apply lookup_delete_eq.
  - eexists. split; [reflexivity|]. split; [reflexivity|]. now intros _.
Qed.

Lemma optional_stop_stops (p : option role) t name self w :
  (forall r, stoppable E r) ->
  exists w1,
    (match p with
     | Some r => lift (stop_process E r t name)
     | None => ret tt
     end) (self, w) = (Ret tt, (self, w1))
    /\ (forall r, p = Some r -> state_of r w1 <> Running)
    /\ (forall r, state_of r w <> Running -> state_of r w1 <> Running)
    /\ nodes w1 = nodes w /\ denied w1 = denied w.
Proof.
  intros Hs. destruct p as [r|].
  - destruct (stop_process_stops r t name w (Hs r))
      as (w1 & Eq & Hr & Ho & Hn & Hd).
    exists w1. split; [now apply lift_eq|].
    split; [now intros r' [= <-]|]. split; [|now split].
    intros r' Hr'.
    assert (Hdec : r' = r \/ r' <> r) by (destruct r, r'; auto; right; discriminate).
    destruct Hdec as [->|Hne]; [exact Hr|].
    now rewrite (Ho r' Hne).
  - exists w. split; [reflexivity|]. split; [discriminate|]. auto.
Qed.

Lemma cleanup_stops self w :
  (forall r, stoppable E r) ->
  exists w',
    cleanup E (self, w) = (Ret tt, (self, w'))
    /\ (forall r,
           mcp_process self = Some r \/ jupyter_process self = Some r ->
           state_of r w' <> Running)
    /\ (forall r, state_of r w <> Running -> state_of r w' <> Running)
    /\ (cleanup_on_exit self = true ->
        mcp_config_path self ∉ denied w ->
        nodes w' !! mcp_config_path self = None).
Proof.
  intros Hs. unfold cleanup.
  erewrite bind_ret by reflexivity. cbn [fst].
  destruct (optional_stop_stops (mcp_process self) 5 "MCP server" self w Hs)
    as (w1 & E1 & Hm1 & Hk1 & Hn1 & Hd1).
  erewrite bind_ret by exact E1.
  destruct (optional_stop_stops (jupyter_process self) 10 "Jupyter Lab"
              self w1 Hs) as (w2 & E2 & Hm2 & Hk2 & Hn2 & Hd2).
  erewrite bind_ret by exact E2.
  destruct (cleanup_on_exit self).
  - destruct (remove_config_returns (mcp_config_path self) w2)
      as (w3 & E3 & Hst & Hrm).
    exists w3. split; [now apply lift_eq|].
    split; [|split].
    + intros r [Hr|Hr]; rewrite Hst; [apply Hk2, Hm1, Hr | apply Hm2, Hr].
    + intros r Hr. rewrite Hst. now apply Hk2, Hk1.
    + intros _ Hd. apply Hrm. now rewrite Hd2, Hd1.
  - exists w2. split; [reflexivity|]. split; [|split].
    + intros r [Hr|Hr]; [apply Hk2, Hm1, Hr | apply Hm2, Hr].
    + intros r Hr. now apply Hk2, Hk1.
    + discriminate.
Qed.

End Steps.

End Stopping.



(** X16.  A [terminate] or a [wait] that raises anything but a timeout
    makes the stopping step give up: the error is logged, no [kill] is
    tried, the call returns normally and the process is still
    running. *)
Theorem stop_process_gives_up_on_error (E : environment) (r : role) (t : N)
  (name : string) (c : pyclass) (w : world) :
  state_of r w = Running ->
  terminate_error (stop E r) = Some c
  \/ (terminate_error (stop E r) = None
      /\ wait_outcome (stop E r) = WaitRaises c) ->
  exists w' evs msg,
    stop_process E r t name w = (Ret tt, w')
    /\ trace w' = trace w ++ evs
                    ++ [ELog Error ("Error stopping " +:+ name +:+ ": " +:+ msg)]
    /\ (evs = [ETerminate r] \/ evs = [ETerminate r; EWait r t])
    /\ state_of r w' = Running.
Proof.
  intros Es H.
  destruct (Stopping.stop_process_gives_up E r t name c w Es H)
    as (evs & msg & Eq & Hevs).
  eexists _, evs, msg. split; [exact Eq|].
  destruct Hevs as [-> | ->]; cbn [fold_left trace emit app];
    rewrite <- ?app_assoc; cbn [app];
    rewrite ?Cleanup.state_of_emit; auto.
Qed.

Lemma stop_process_gives_up_on_error_witness :
  let E := mkEnv [] "/usr/bin/python3" "/work" (fun p => p)
             (fun p => Ret p) (3, 11)%nat Example.urlparse0 (fun _ => None)
             [] Quiet None []
             (fun _ => mkStopping (Some OSError) (WaitExits 0) None)
             (fun _ _ => Completed 0) None None (Ret true) in
  let w := mkWorld Example.nodes0 ∅ ∅ ∅ Running Running [] in
  exists w' msg,
    stop_process E Mcp 5 "MCP server" w = (Ret tt, w')
    /\ trace w' = [ETerminate Mcp; ELog Error msg]
    /\ mcp_state w' = Running.
Proof.
  intros E w.
  destruct (stop_process_gives_up_on_error E Mcp 5 "MCP server" OSError w)
    as (w' & evs & msg & Eq & Ht & Hevs & Hs).
  - reflexivity.
  - left. reflexivity.
  - destruct Hevs as [-> | ->].
    + eexists _, _. split; [exact Eq|]. split; [exact Ht | exact Hs].
    + exfalso. vm_compute in Eq. injection Eq as <-.
      vm_compute in Ht. discriminate Ht.
Defined.

(* ===================================================================== *)
(** * Further properties: how a run ends *)
(* ===================================================================== *)

Module Raising.
Import Ends.

Ltac expected_side :=
  first [ assumption
        | left; reflexivity
        | right; reflexivity
        | right; left; reflexivity
        | right; right; reflexivity ].

(** A primitive: all its cases, one by one. *)
Ltac by_cases :=
  intros ? ?;
  repeat (match goal with
          | |- context [match ?x with _ => _ end] => destruct x eqn:?
          end; cbn [fst snd] in *);
  try discriminate;
  try (intros [= <-]; expected_side).

Section Walk.

Variable E : environment.

Lemma raises_log l msg : raises interruptible (log l msg).
Proof. intros w e H. discriminate H. Qed.

Lemma raises_emit ev : raises interruptible (modify (emit ev)).
Proof. intros w e H. discriminate H. Qed.

Lemma raises_sleep n : raises interruptible (sleep n).
Proof. intros w e H. discriminate H. Qed.

Lemma raises_get_world : raises interruptible get_world.
Proof. intros w e H. discriminate H. Qed.

Lemma raises_get_self : raises interruptible get_self.
Proof. intros w e H. discriminate H. Qed.

Lemma raises_put_self self : raises interruptible (put_self self).
Proof. intros w e H. discriminate H. Qed.

Lemma raises_ensure_directory p : raises interruptible (ensure_directory p).
Proof. unfold ensure_directory. by_cases. Qed.

Lemma raises_open_w p : raises interruptible (open_w p).
Proof. unfold open_w. by_cases. Qed.

Lemma raises_json_dump p j : raises interruptible (json_dump p j).
Proof. intros w e H. discriminate H. Qed.

Lemma raises_json_load p : raises interruptible (json_load p).
Proof. unfold json_load. by_cases. Qed.

Lemma raises_unlink p : raises interruptible (unlink p).
Proof. unfold unlink. by_cases. Qed.

Lemma raises_get_virtual_env_python p :
  raises interruptible (get_virtual_env_python p).
Proof. unfold get_virtual_env_python. by_cases. Qed.

Lemma raises_popen r cmd env : raises interruptible (popen E r cmd env).
Proof. unfold popen. by_cases. Qed.

Lemma raises_poll r a : raises interruptible (poll r a).
Proof. unfold poll. by_cases. Qed.

Lemma raises_terminate r : raises interruptible (terminate E r).
Proof. unfold terminate. by_cases. Qed.

Lemma raises_wait r t : raises interruptible (wait E r t).
Proof. unfold wait. by_cases. Qed.

Lemma raises_kill r : raises interruptible (kill E r).
Proof. unfold kill. by_cases. Qed.

Lemma raises_run_command cmd : raises interruptible (run_command E cmd).
Proof. unfold run_command. by_cases. Qed.

Lemma raises_rmtree p : raises interruptible (rmtree E p).
Proof. unfold rmtree. by_cases. Qed.

Lemma raises_venv_create p : raises interruptible (venv_create E p).
Proof. unfold venv_create. by_cases. Qed.

End Walk.

Lemma interruptible_expected e : interruptible e -> expected e.
Proof. intros [H| ->]; [now left | right; now left]. Qed.

Lemma raises_up {S A} (m : M S A) : raises interruptible m -> raises expected m.
Proof. intros H. eapply raises_weaken; [exact H | exact interruptible_expected]. Qed.


End Raising.

Create HintDb raising.

#[local] Hint Resolve Raising.raises_log Raising.raises_emit
  Raising.raises_sleep Raising.raises_get_world Raising.raises_get_self
  Raising.raises_put_self Raising.raises_ensure_directory
  Raising.raises_open_w Raising.raises_json_dump Raising.raises_json_load
  Raising.raises_unlink Raising.raises_get_virtual_env_python
  Raising.raises_popen Raising.raises_poll Raising.raises_terminate
  Raising.raises_wait Raising.raises_kill Raising.raises_run_command
  Raising.raises_rmtree Raising.raises_venv_create Raising.raises_up
  : raising.

(** One handler: its cases, each either a re-raise or a body. *)
Ltac raises_handler He go :=
  cbv beta;
  try unfold reraise_as_setup_error;
  try unfold as_installation_error;
  try unfold on_Exception;
  repeat match goal with
         | |- context [if ?b then _ else _] => destruct b eqn:?
         end;
  try exact He; go.

Ltac raises_walk C :=
  repeat first
    [ assumption
    | solve [ auto with raising ]
    | match goal with
      | |- raises _ (bind _ _) => apply Ends.raises_bind; [|intros ?]
      | |- raises _ (ret _) => apply Ends.raises_ret
      | |- raises _ (raise _) => apply Ends.raises_raise; Raising.expected_side
      | |- raises _ spin => apply Ends.raises_spin
      | |- raises _ (lift _) => apply Ends.raises_lift
      | |- raises _ (try_except _ _) =>
          let e := fresh "e" in
          let He := fresh "He" in
          apply (Ends.raises_try C);
          [| intros e He; raises_handler He ltac:(idtac) ]
      | |- raises _ (if ?b then _ else _) => destruct b
      | |- raises _ (match ?x with _ => _ end) => destruct x
      end ].

Ltac raises_go := raises_walk expected.

Module Raising2.
Import Ends.

Section Walk.

Variable E : environment.

Lemma raises_stop_process r t name : raises expected (stop_process E r t name).
Proof. unfold stop_process. raises_go. Qed.

Lemma raises_remove_config p : raises expected (remove_config p).
Proof. unfold remove_config. raises_go. Qed.

Lemma raises_cleanup : raises expected (cleanup E).
Proof.
  unfold cleanup.
  pose proof raises_stop_process. pose proof raises_remove_config.
  raises_go.
Qed.

Lemma raises_deliver s : raises expected (deliver E s).
Proof. unfold deliver, _signal_handler. pose proof raises_cleanup. raises_go. Qed.

Lemma raises_delay i n : raises expected (delay E i n).
Proof. unfold delay. pose proof raises_deliver. raises_go. Qed.

Lemma raises_validate_url url name : raises expected (validate_url E url name).
Proof. unfold validate_url. raises_go. Qed.

Lemma raises_validate_token token name :
  raises expected (validate_token token name).
Proof. unfold validate_token. raises_go. Qed.

Lemma raises_check_not_empty env : raises expected (check_not_empty env).
Proof. induction env as [|[k v] env IH]; cbn [check_not_empty]; raises_go. Qed.

Lemma raises_create_jupyter_environment url token nb :
  raises expected (create_jupyter_environment E url token nb).
Proof.
  unfold create_jupyter_environment.
  pose proof raises_validate_url. pose proof raises_validate_token.
  pose proof raises_check_not_empty. raises_go.
Qed.

Lemma raises_generate_claude_settings project server :
  raises expected (generate_claude_settings project server).
Proof.
  eapply raises_weaken;
    [apply settles_raises, SettingsEnds.settles_generate_claude_settings|].
  intros e [].
Qed.

Lemma raises_read_step o : raises expected (read_step E o).
Proof. unfold read_step. pose proof raises_deliver. raises_go. Qed.

Lemma raises_startup_loop obs : raises expected (startup_loop E obs).
Proof.
  pose proof raises_read_step.
  induction obs as [|o obs IH]; cbn [startup_loop]; raises_go.
Qed.

Lemma raises_start_jupyter_lab : raises expected (start_jupyter_lab E).
Proof. unfold start_jupyter_lab. pose proof raises_startup_loop. raises_go. Qed.

Lemma raises_start_mcp_server : raises expected (start_mcp_server E).
Proof.
  unfold start_mcp_server.
  pose proof raises_create_jupyter_environment. pose proof raises_delay.
  raises_go.
Qed.

Lemma raises_generate_mcp_config : raises expected (_generate_mcp_config E).
Proof.
  unfold _generate_mcp_config.
  pose proof raises_create_jupyter_environment. raises_go.
Qed.

Lemma raises_generate_configurations :
  raises expected (generate_configurations E).
Proof.
  unfold generate_configurations.
  pose proof raises_generate_mcp_config.
  pose proof raises_generate_claude_settings. raises_go.
Qed.

Lemma raises_check_alive p a msg : raises expected (check_alive p a msg).
Proof. unfold check_alive. raises_go. Qed.

Lemma raises_monitor_loop ticks : raises expected (monitor_loop E ticks).
Proof.
  pose proof raises_check_alive. pose proof raises_delay.
  induction ticks as [|t ticks IH]; cbn [monitor_loop]; raises_go.
Qed.

Lemma raises_monitor_processes : raises expected (monitor_processes E).
Proof. unfold monitor_processes. pose proof raises_monitor_loop. raises_go. Qed.

Lemma raises_run_steps : raises expected (run_steps E).
Proof.
  unfold run_steps.
  pose proof raises_start_jupyter_lab. pose proof raises_start_mcp_server.
  pose proof raises_generate_configurations.
  pose proof raises_monitor_processes. raises_go.
Qed.

Lemma raises_run : raises expected (run E).
Proof.
  unfold run. apply raises_finally; [|apply raises_cleanup].
  pose proof raises_run_steps. raises_go.
Qed.

End Walk.

End Raising2.

Module Raising3.
Import Ends.

Section Walk.

Variable E : environment.
Hypothesis notebook_expected :
  forall nb, expected_outcome (notebook_validation E nb).
Hypothesis validation_expected : expected_outcome (validation_phase E).

Lemma raises_oracle {A} (o : outcome A) :
  expected_outcome o -> raises expected (fun w : world => (o, w)).
Proof. intros H w e He. cbn [fst] in He. subst o. exact H. Qed.

Lemma raises_resolve_configuration_paths output_dir :
  raises expected (resolve_configuration_paths E output_dir).
Proof. unfold resolve_configuration_paths. raises_go. Qed.

Lemma raises_init notebook kw : raises expected (init E notebook kw).
Proof.
  unfold init.
  pose proof raises_resolve_configuration_paths.
  pose proof (fun nb => raises_oracle _ (notebook_expected nb)).
  raises_go.
Qed.

Lemma raises_setup_jupyter_mcp_server notebook kw :
  raises expected (setup_jupyter_mcp_server E notebook kw).
Proof.
  intros w e. unfold setup_jupyter_mcp_server.
  pose proof (raises_init notebook kw w) as Hi.
  destruct (init E notebook kw w) as [[self|e'|] w1]; cbn [fst] in *.
  - pose proof (Raising2.raises_run E (self, w1)) as Hr.
    destruct (run E (self, w1)) as [o s]. cbn [fst] in *. apply Hr.
  - intros [= <-]. now apply Hi.
  - discriminate.
Qed.

Lemma raises_check_existing_installation project :
  raises expected (check_existing_installation E project).
Proof. unfold check_existing_installation. raises_go. Qed.

Lemma raises_create_virtual_environment project :
  raises expected (create_virtual_environment E project).
Proof. unfold create_virtual_environment. raises_go. Qed.

Lemma raises_upgrade_pip project : raises expected (upgrade_pip E project).
Proof. unfold upgrade_pip. raises_go. Qed.

Lemma raises_install_each python deps :
  raises expected (install_each E python deps).
Proof. induction deps as [|d deps IH]; cbn [install_each]; raises_go. Qed.

Lemma raises_install_dependencies project :
  raises expected (install_dependencies E project).
Proof. unfold install_dependencies. pose proof raises_install_each. raises_go. Qed.

Lemma raises_validate_installation project :
  raises expected (validate_installation E project).
Proof. unfold validate_installation. raises_go. Qed.

Lemma raises_install project force : raises expected (install E project force).
Proof.
  unfold install, check_prerequisites.
  pose proof raises_check_existing_installation.
  pose proof raises_create_virtual_environment.
  pose proof raises_upgrade_pip. pose proof raises_install_dependencies.
  pose proof raises_validate_installation. raises_go.
Qed.

Lemma raises_phases a : raises expected (phases E a).
Proof.
  unfold phases, run_installation_phase, run_validation_phase,
    run_server_setup_phase.
  pose proof raises_install. pose proof raises_setup_jupyter_mcp_server.
  pose proof (raises_oracle _ validation_expected).
  raises_go.
Qed.

End Walk.

End Raising3.

Module RunEnds.
Import MonadFacts.

(** With [cleanup] returning, [run] ends as its [try] block does, and
    that block catches every [Exception]. *)
Lemma run_raises_no_exception E s e :
  kills_succeed E -> fst (run E s) = Raise e -> is_Exception e = false.
Proof.
  intros Hk. unfold run, try_finally.
  match goal with
  | |- context [try_except ?m ?h s] =>
      assert (Hb : forall e', fst (try_except m h s) = Raise e' ->
                              is_Exception e' = false)
  end.
  { intros e'. rewrite try_except_unfold.
    destruct (run_steps E s) as [[b|e0|] s1]; cbn [fst]; try discriminate.
    unfold on_Exception. destruct (is_Exception e0) eqn:Hx.
    - cbn. discriminate.
    - intros [= <-]. exact Hx. }
  destruct (try_except (run_steps E) _ s) as [o [self1 w1]].
  destruct (Cleanup.cleanup_spec E Hk self1 w1) as (w' & ? & ? & ? & -> & _).
  cbn [fst] in *. destruct o as [b|e0|]; cbn [fst]; try discriminate.
  intros [= <-]. now apply Hb.
Qed.

End RunEnds.

(** X17.  When no forced kill fails, [run] never raises an [Exception]:
    whatever goes wrong in its steps, [ServerSetupError] included, is
    caught and logged.  A call of [run] returns a boolean, is still
    monitoring, or is ended by a [KeyboardInterrupt] or by the
    [SystemExit(0)] of the signal handler. *)
Theorem run_outcomes (E : environment) (s : setup * world) :
  kills_succeed E ->
  match fst (run E s) with
  | Ret _ | Spin => True
  | Raise e => e = KeyboardInterrupt \/ e = SystemExit 0
  end.
Proof.
  intros Hk. destruct (fst (run E s)) as [b|e|] eqn:Hr; [exact I| |exact I].
  pose proof (RunEnds.run_raises_no_exception E s e Hk Hr) as Hx.
  destruct (Raising2.raises_run E s e Hr) as [H|[H|H]]; auto. congruence.
Qed.

Lemma run_outcomes_witness :
  fst (run Example.env0 (Example.self0, Example.world0)) = Raise (SystemExit 0).
Proof.
  pose proof (run_outcomes Example.env0 (Example.self0, Example.world0)
                (fun r => eq_refl)) as H.
  destruct (fst (run Example.env0 (Example.self0, Example.world0)))
    as [b|e|] eqn:Hr.
  - vm_compute in Hr. discriminate Hr.
  - destruct H as [-> | ->]; [vm_compute in Hr; discriminate Hr | reflexivity].
  - vm_compute in Hr. discriminate Hr.
Defined.



(** X19.  With an interpreter older than 3.10 nothing is installed,
    validated or started: [install] raises an [InstallationError] at
    once, and [cli.main] logs it and exits with code 1, the log line
    being its only trace. *)
Theorem old_python_stops_everything (E : environment) (a : cli_args)
  (w : world) :
  check_python_version E (3, 10) = false ->
  (forall project force,
      exists msg,
        install E project force w = (Raise (InstallationError msg), w))
  /\ exists msg, main E a w = (ExitCode 1, emit (ELog Error msg) w).
Proof.
  intros Hv.
  assert (Hi : forall project force,
             install E project force w
             = (Raise (InstallationError
                         "Python version is too old (requires >= 3.10)"), w)).
  { intros project force. unfold install, check_prerequisites.
    rewrite Hv. reflexivity. }
  split; [intros project force; eexists; apply Hi|].
  unfold main, phases, run_installation_phase.
  rewrite MonadFacts.bind_unfold, MonadFacts.try_except_unfold,
    MonadFacts.bind_unfold, Hi.
  cbn. eexists. reflexivity.
Qed.

Lemma old_python_stops_everything_witness :
  let E := mkEnv [] "/usr/bin/python3" "/work" (fun p => p)
             (fun p => Ret p) (3, 9)%nat Example.urlparse0 (fun _ => None)
             [] Quiet None [] (fun _ => Example.polite)
             (fun _ _ => Completed 0) None None (Ret true) in
  exists msg,
    main E Example.args0 Example.world0
    = (ExitCode 1, emit (ELog Error msg) Example.world0).
Proof.
  intros E.
  exact (proj2 (old_python_stops_everything E Example.args0 Example.world0
                  eq_refl)).
Defined.

(* ===================================================================== *)
(** * Further properties: what a run reports *)
(* ===================================================================== *)

Module Returning.
Import Ends.

Lemma returns_try' {S A} (V : A -> Prop) (m : M S A) handler :
  returns V m ->
  (forall e, match handler e with
             | Some h => returns V h
             | None => True
             end) ->
  returns V (try_except m handler).
Proof.
  intros Hm Hh. apply returns_try; [exact Hm|].
  intros e h Eh. specialize (Hh e). now rewrite Eh in Hh.
Qed.

End Returning.

(** A call that returns nothing but [True]. *)
Ltac returns_go :=
  repeat first
    [ assumption
    | solve [ auto ]
    | match goal with
      | |- returns _ (bind _ _) =>
          apply (Ends.returns_bind (fun _ => True));
          [apply Ends.returns_any | intros ? _]
      | |- returns _ (ret true) => apply Ends.returns_ret; reflexivity
      | |- returns _ (raise _) => apply Ends.returns_raise
      | |- returns _ spin => apply Ends.returns_spin
      | |- returns _ (try_except _ _) =>
          let e := fresh "e" in
          apply Returning.returns_try';
          [| intros e; cbv beta;
             try unfold reraise_as_setup_error;
             try unfold on_Exception;
             repeat match goal with
                    | |- context [if ?b then _ else _] => destruct b eqn:?
                    end;
             try exact I ]
      | |- returns _ (if ?b then _ else _) => destruct b
      | |- returns _ (match ?x with _ => _ end) => destruct x
      end ].

Module Reports.
Import MonadFacts Ends.

Section Steps.

Variable E : environment.

Lemma startup_loop_true obs :
  returns (fun b => b = true) (startup_loop E obs).
Proof. induction obs as [|o obs IH]; cbn [startup_loop]; returns_go. Qed.

Lemma start_jupyter_lab_true :
  returns (fun b => b = true) (start_jupyter_lab E).
Proof. unfold start_jupyter_lab. pose proof startup_loop_true. returns_go. Qed.

Lemma start_mcp_server_returns_true :
  returns (fun b => b = true) (start_mcp_server E).
Proof. unfold start_mcp_server. returns_go. Qed.

Lemma generate_configurations_true :
  returns (fun b => b = true) (generate_configurations E).
Proof. unfold generate_configurations. returns_go. Qed.

Lemma monitor_loop_never_returns ticks :
  returns (fun b => b = true) (monitor_loop E ticks).
Proof. induction ticks as [|t ticks IH]; cbn [monitor_loop]; returns_go. Qed.

Lemma monitor_processes_true :
  returns (fun b => b = true) (monitor_processes E).
Proof.
  unfold monitor_processes. pose proof monitor_loop_never_returns. returns_go.
Qed.

Lemma run_steps_true : returns (fun b => b = true) (run_steps E).
Proof.
  unfold run_steps.
  apply (returns_bind (fun b => b = true)); [apply start_jupyter_lab_true|].
  intros ok1 ->. cbn [negb].
  apply (returns_bind (fun b => b = true));
    [apply start_mcp_server_returns_true|].
  intros ok2 ->. cbn [negb].
  apply (returns_bind (fun b => b = true));
    [apply generate_configurations_true|].
  intros ok3 ->. cbn [negb]. apply monitor_processes_true.
Qed.

(** The trace only grows. *)
Lemma run_steps_grows s :
  exists evs, trace (snd (snd (run_steps E s))) = trace (snd s) ++ evs.
Proof.
  assert (Hs : sat (inv (fun _ => True) False) (run_steps E))
    by (apply Steps.sat_run_steps; intros; try exact I; contradiction).
  exact (Order.grows (run_steps E) Hs s).
Qed.

Lemma cleanup_grows s :
  exists evs, trace (snd (snd (cleanup E s))) = trace (snd s) ++ evs.
Proof.
  assert (Hs : sat (inv (fun _ => True) False) (cleanup E))
    by (apply Phases.sat_cleanup; intros; exact I).
  exact (Order.grows (cleanup E) Hs s).
Qed.

(** [run] answers [False] only from its [except] clause, which logs. *)
Lemma run_false_logged s :
  fst (run E s) = Ret false ->
  exists evs msg evs',
    trace (snd (snd (run E s)))
    = trace (snd s) ++ evs ++ ELog Error msg :: evs'.
Proof.
  unfold run, try_finally. rewrite try_except_unfold.
  destruct (run_steps_grows s) as (evs & Hg).
  pose proof (run_steps_true s) as Ht.
  destruct (run_steps E s) as [[b|e|] [self1 w1]]; cbn [fst snd] in *.
  - rewrite (Ht b eq_refl).
    destruct (cleanup E (self1, w1)) as [[[]|e'|] s2]; discriminate.
  - unfold on_Exception. destruct (is_Exception e).
    + rewrite bind_unfold. cbn [lift log modify fst snd ret].
      match goal with
      | |- context [cleanup E ?s1] =>
          destruct (cleanup_grows s1) as (evs' & Hc);
          destruct (cleanup E s1) as [[[]|e'|] s2]
      end; cbn [fst snd] in *; try discriminate.
      intros _. eexists evs, _, evs'. rewrite Hc. cbn [trace emit].
      rewrite Hg. now rewrite <- !app_assoc.
    + destruct (cleanup E (self1, w1)) as [[[]|e'|] s2]; discriminate.
  - discriminate.
Qed.

End Steps.

End Reports.

(** X20.  None of the three steps of [run] ever returns [False]:
    [start_jupyter_lab], [start_mcp_server] and
    [generate_configurations] return [True] or raise, and
    [monitor_processes] returns only when interrupted, with [True].  So
    the [return False] lines of [run] after each step are never taken,
    and whenever [run] answers [False] it has logged an error during that
    run. *)
Theorem run_false_is_logged (E : environment) (s : setup * world) :
  (forall s' b,
      fst (start_jupyter_lab E s') = Ret b
      \/ fst (start_mcp_server E s') = Ret b
      \/ fst (generate_configurations E s') = Ret b
      \/ fst (monitor_processes E s') = Ret b ->
      b = true)
  /\ (fst (run E s) = Ret false ->
      exists evs msg evs',
        trace (snd (snd (run E s)))
        = trace (snd s) ++ evs ++ ELog Error msg :: evs').
Proof.
  split.
  - intros s' b [H|[H|[H|H]]].
    + exact (Reports.start_jupyter_lab_true E s' b H).
    + exact (Reports.start_mcp_server_returns_true E s' b H).
    + exact (Reports.generate_configurations_true E s' b H).
    + exact (Reports.monitor_processes_true E s' b H).
  - apply Reports.run_false_logged.
Qed.

Lemma run_false_is_logged_witness :
  let w := mkWorld ∅ ∅ ∅ ∅ NotStarted NotStarted [] in
  exists evs msg evs',
    trace (snd (snd (run Example.env0 (Example.self0, w))))
    = evs ++ ELog Error msg :: evs'.
Proof.
  intros w.
  apply (proj2 (run_false_is_logged Example.env0 (Example.self0, w))).
  vm_compute. reflexivity.
Defined.

Module Orphans.
Import MonadFacts Ends.

Lemma same_refl s : same_processes s s.
Proof. now split. Qed.

Lemma same_trans s1 s2 s3 :
  same_processes s1 s2 -> same_processes s2 s3 -> same_processes s1 s3.
Proof. intros [a b] [c d]. split; congruence. Qed.

Lemma kt_refl s : keeps_tracked s s.
Proof. intros H. exact H. Qed.

Lemma kt_trans s1 s2 s3 :
  keeps_tracked s1 s2 -> keeps_tracked s2 s3 -> keeps_tracked s1 s3.
Proof. unfold keeps_tracked. auto. Qed.

Lemma stays_try' {S A} (R : S -> S -> Prop) (m : M S A) handler :
  (forall s, R s s) -> (forall s1 s2 s3, R s1 s2 -> R s2 s3 -> R s1 s3) ->
  stays R m ->
  (forall e, match handler e with
             | Some h => stays R h
             | None => True
             end) ->
  stays R (try_except m handler).
Proof.
  intros Hr Ht Hm Hh. apply (stays_try R Ht); auto.
  intros e h Eh. specialize (Hh e). now rewrite Eh in Hh.
Qed.

Lemma same_lift {A} (m : M world A) : stays same_processes (lift m).
Proof.
  intros [self w]. unfold lift. cbn [fst snd].
  destruct (m w) as [o w1]. now split.
Qed.

Lemma same_get_self : stays same_processes get_self.
Proof. intros s. apply same_refl. Qed.

(** [self <- get_self ;; put_self (f self) ;; k self]. *)
Lemma stays_update {A} (R : setup * world -> setup * world -> Prop)
  (f : setup -> setup) (k : setup -> M (setup * world) A) :
  (forall s1 s2 s3, R s1 s2 -> R s2 s3 -> R s1 s3) ->
  (forall s, R s (f (fst s), snd s)) ->
  (forall self, stays R (k self)) ->
  stays R (bind get_self (fun self => bind (put_self (f self)) (fun _ => k self))).
Proof.
  intros Ht Hf Hk s. unfold bind, get_self, put_self. cbn [fst snd].
  eapply Ht; [apply Hf | apply Hk].
Qed.

End Orphans.

Ltac same_go :=
  repeat first
    [ assumption
    | solve [ auto ]
    | match goal with
      | |- stays _ (bind get_self (fun self => bind (put_self _) _)) =>
          apply Orphans.stays_update;
          [ exact Orphans.same_trans
          | intros ?; split; reflexivity
          | intros ? ]
      | |- stays _ (bind _ _) =>
          apply (Ends.stays_bind _ Orphans.same_trans);
          [|intros ?]
      | |- stays _ (ret _) => apply (Ends.stays_ret _ Orphans.same_refl)
      | |- stays _ (raise _) => apply (Ends.stays_raise _ Orphans.same_refl)
      | |- stays _ spin => apply (Ends.stays_spin _ Orphans.same_refl)
      | |- stays _ (lift _) => apply Orphans.same_lift
      | |- stays _ get_self => apply Orphans.same_get_self
      | |- stays _ (try_except _ _) =>
          let e := fresh "e" in
          apply (Orphans.stays_try' _ _ _ Orphans.same_refl Orphans.same_trans);
          [| intros e; cbv beta;
             try unfold reraise_as_setup_error;
             try unfold on_Exception;
             repeat match goal with
                    | |- context [if ?b then _ else _] => destruct b eqn:?
                    end;
             try exact I ]
      | |- stays _ (if ?b then _ else _) => destruct b
      | |- stays _ (match ?x with _ => _ end) => destruct x
      end ].

Module Orphans2.
Import MonadFacts Ends Orphans.

Section Walk.

Variable E : environment.

Lemma same_cleanup : stays same_processes (cleanup E).
Proof. unfold cleanup. same_go. Qed.

Lemma same_deliver sig : stays same_processes (deliver E sig).
Proof. unfold deliver, _signal_handler. pose proof same_cleanup. same_go. Qed.

Lemma same_delay i n : stays same_processes (delay E i n).
Proof. unfold delay. pose proof same_deliver. same_go. Qed.

Lemma extract_same line self :
  jupyter_process (snd (_extract_jupyter_details line self))
  = jupyter_process self
  /\ mcp_process (snd (_extract_jupyter_details line self)) = mcp_process self.
Proof.
  unfold _extract_jupyter_details.
  assert (Hps : Forall (fun p => exists host path, p = url_pattern host path)
                  patterns)
    by (unfold patterns; repeat constructor; eauto).
  pose proof (Captures.extract_loop_sound patterns line self Hps) as H.
  cbv zeta in H.
  destruct (fst (extract_loop patterns line self)).
  - destruct H as (port & token & -> & _). now split.
  - rewrite H. now split.
Qed.

Lemma same_read_step o : stays same_processes (read_step E o).
Proof.
  pose proof same_deliver.
  destruct o as [c| |line|c|sig]; cbn [read_step].
  3:{ apply (stays_bind _ same_trans); [apply same_lift|]. intros _.
      cbv zeta.
      apply (stays_update same_processes
               (fun self => snd (_extract_jupyter_details line self))
               (fun self => if fst (_extract_jupyter_details line self)
                            then ret Found else ret Again)).
      - exact same_trans.
      - intros s. apply extract_same.
      - intros self. same_go. }
  all: same_go.
Qed.

Lemma same_startup_loop obs : stays same_processes (startup_loop E obs).
Proof.
  pose proof same_read_step.
  induction obs as [|o obs IH]; cbn [startup_loop]; same_go.
Qed.

Lemma same_create_jupyter_environment url token nb :
  stays same_processes (create_jupyter_environment E url token nb).
Proof. unfold create_jupyter_environment. same_go. Qed.

Lemma same_generate_configurations :
  stays same_processes (generate_configurations E).
Proof.
  unfold generate_configurations, _generate_mcp_config.
  pose proof same_create_jupyter_environment. same_go.
Qed.

Lemma same_check_alive p a msg : stays same_processes (check_alive p a msg).
Proof. unfold check_alive. same_go. Qed.

Lemma same_monitor_loop ticks : stays same_processes (monitor_loop E ticks).
Proof.
  pose proof same_check_alive. pose proof same_delay.
  induction ticks as [|t ticks IH]; cbn [monitor_loop]; same_go.
Qed.

Lemma same_monitor_processes : stays same_processes (monitor_processes E).
Proof. unfold monitor_processes. pose proof same_monitor_loop. same_go. Qed.

End Walk.

End Orphans2.

Module Orphans3.
Import MonadFacts Ends Orphans.

Lemma no_spawn_down e : down_event e = true -> no_spawn e.
Proof. destruct e; cbn; try discriminate; intros; exact I. Qed.

Lemma no_spawn_stop e : stop_event e = true -> no_spawn e.
Proof. destruct e; cbn; try discriminate; intros; exact I. Qed.

Lemma no_spawn_config e : config_event e = true -> no_spawn e.
Proof. destruct e; cbn; try discriminate; intros; exact I. Qed.

(** No launch in what was added, and the same processes held: the
    launches of the trace stay covered. *)
Lemma calm_keeps {A} (m : M (setup * world) A) :
  sat (inv no_spawn False) m -> stays same_processes m ->
  stays keeps_tracked m.
Proof.
  intros Hs Hp s Ht r cmd env Hin.
  destruct (Hs s) as (evs & Tr & [F _]). destruct (Hp s) as [Hj Hm].
  unfold tr, traced_object in Tr. rewrite Tr in Hin.
  apply in_app_or in Hin as [Hin|Hin].
  - specialize (Ht r cmd env Hin). destruct r; cbn [process_of] in *; congruence.
  - rewrite List.Forall_forall in F. destruct (F _ Hin).
Qed.

Section Walk.

Variable E : environment.

Lemma kt_startup_loop obs : stays keeps_tracked (startup_loop E obs).
Proof.
  apply calm_keeps; [|apply Orphans2.same_startup_loop].
  apply Steps.sat_startup_loop; intros; try exact I;
    [now apply no_spawn_down | contradiction].
Qed.

Lemma kt_delay i n : stays keeps_tracked (delay E i n).
Proof.
  apply calm_keeps; [|apply Orphans2.same_delay].
  apply Steps.sat_delay; intros; try exact I;
    [now apply no_spawn_down | contradiction].
Qed.

Lemma kt_create_jupyter_environment url token nb :
  stays keeps_tracked (create_jupyter_environment E url token nb).
Proof.
  apply calm_keeps; [|apply Orphans2.same_create_jupyter_environment].
  apply Steps.sat_create_jupyter_environment; intros; exact I.
Qed.

Lemma kt_generate_configurations :
  stays keeps_tracked (generate_configurations E).
Proof.
  apply calm_keeps; [|apply Orphans2.same_generate_configurations].
  apply Steps.sat_generate_configurations; intros; try exact I.
  now apply no_spawn_config.
Qed.

Lemma kt_monitor_processes : stays keeps_tracked (monitor_processes E).
Proof.
  apply calm_keeps; [|apply Orphans2.same_monitor_processes].
  apply Steps.sat_monitor_processes; intros; try exact I;
    [now apply no_spawn_down | contradiction].
Qed.

Lemma kt_poll r a : stays keeps_tracked (lift (poll r a)).
Proof.
  apply calm_keeps; [|apply same_lift].
  apply TraceFacts.sat_lift, TraceFacts.sat_poll. intros; exact I.
Qed.

Lemma kt_log l msg : stays keeps_tracked (lift (log l msg)).
Proof.
  apply calm_keeps; [|apply same_lift].
  apply TraceFacts.sat_lift, TraceFacts.sat_log. exact I.
Qed.

(** A launch followed by the assignment of the process attribute. *)
Lemma tracked_after_spawn r cmd env self w :
  tracked (self, w) ->
  tracked (match r with
           | Jupyter => set_jupyter_process self (Some Jupyter)
           | Mcp => set_mcp_process self (Some Mcp)
           end,
           set_state r Running (emit (ESpawn r cmd env) w)).
Proof.
  intros Ht r' cmd' env' Hin. cbn [fst snd] in *.
  assert (Htr : trace (set_state r Running (emit (ESpawn r cmd env) w))
                = trace w ++ [ESpawn r cmd env]) by now destruct r.
  rewrite Htr in Hin. apply in_app_or in Hin as [Hin|[Hin|[]]].
  - specialize (Ht r' cmd' env' Hin). cbn [fst] in Ht.
    destruct r, r'; cbn [process_of set_jupyter_process set_mcp_process
                           jupyter_process mcp_process] in *;
      try reflexivity; exact Ht.
  - injection Hin as <- _ _. now destruct r.
Qed.

End Walk.

End Orphans3.

Module Orphans4.
Import MonadFacts Ends Orphans Orphans3.

Section Walk.

Variable E : environment.

Lemma kt_start_jupyter_lab : stays keeps_tracked (start_jupyter_lab E).
Proof.
  intros [self w] Ht.
  unfold start_jupyter_lab, bind, try_except, lift, get_self, put_self, popen,
    get_virtual_env_python, reraise_as_setup_error, on_Exception, raise, ret.
  cbn [fst snd].
  destruct (negb (path_exists _ w)); [exact Ht|].
  destruct (negb (check_file_permissions_x _ w)); [exact Ht|].
  cbv beta iota zeta. cbn [fst snd].
  destruct (popen_error E Jupyter); [exact Ht|].
  cbv beta iota zeta. cbn [fst snd].
  match goal with
  | |- context [startup_loop E ?obs ?s2] =>
      pose proof (kt_startup_loop E obs s2
                    (tracked_after_spawn Jupyter _ _ self w Ht)) as H3;
      destruct (startup_loop E obs s2) as [[b|e|] s3]
  end; cbn [snd] in H3; cbv beta iota zeta; [exact H3| |exact H3].
  destruct (is_Exception e); [|exact H3].
  destruct (is_ServerSetupError e); exact H3.
Qed.

Lemma kt_start_mcp_server : stays keeps_tracked (start_mcp_server E).
Proof.
  intros [self w] Ht.
  unfold start_mcp_server.
  rewrite (bind_ret get_self _ (self, w) self (self, w)) by reflexivity.
  destruct (details_missing self); [exact Ht|].
  rewrite bind_unfold, try_except_unfold, bind_unfold.
  pose proof (kt_create_jupyter_environment E
                (default "" (jupyter_url self))
                (default "" (jupyter_token self))
                (get_relative_path_for_document_id self) (self, w) Ht) as H1.
  destruct (create_jupyter_environment E _ _ _ (self, w))
    as [[env|e|] [self1 w1]]; cbn [snd] in H1.
  2:{ unfold on_Exception. destruct (is_Exception e); exact H1. }
  2:{ exact H1. }
  cbn [ret]. unfold ret at 1. cbv beta iota. cbn [fst snd].
  unfold bind, try_except, lift, get_self, put_self, popen,
    get_virtual_env_python, reraise_as_setup_error, on_Exception, raise, ret.
  cbn [fst snd].
  destruct (negb (path_exists _ w1)); [exact H1|].
  destruct (negb (check_file_permissions_x _ w1)); [exact H1|].
  cbv beta iota zeta. cbn [fst snd].
  destruct (popen_error E Mcp); [exact H1|].
  cbv beta iota zeta. cbn [fst snd].
  match goal with
  | |- context [delay E ?i ?n ?s2] =>
      pose proof (kt_delay E i n s2
                    (tracked_after_spawn Mcp _ _ self1 w1 H1)) as H2;
      destruct (delay E i n s2) as [[[]|e|] [self2 w2]]
  end; cbn [fst snd] in *; cbv beta iota zeta.
  - pose proof (kt_poll Mcp (mcp_after_delay E) (self2, w2) H2) as H3.
    unfold lift in H3. cbn [fst snd] in H3.
    destruct (poll Mcp (mcp_after_delay E) w2) as [[[c|]|e|] w3];
      cbn [fst snd] in *; cbv beta iota zeta; try exact H3.
    destruct (is_Exception e); [|exact H3].
    destruct (is_ServerSetupError e); exact H3.
  - destruct (is_Exception e); [|exact H2].
    destruct (is_ServerSetupError e); exact H2.
  - exact H2.
Qed.

Lemma kt_run_steps : stays keeps_tracked (run_steps E).
Proof.
  unfold run_steps.
  apply (stays_bind _ kt_trans); [apply kt_start_jupyter_lab|].
  intros ok1. destruct (negb ok1); [apply (stays_ret _ kt_refl)|].
  apply (stays_bind _ kt_trans); [apply kt_start_mcp_server|].
  intros ok2. destruct (negb ok2); [apply (stays_ret _ kt_refl)|].
  apply (stays_bind _ kt_trans); [apply kt_generate_configurations|].
  intros ok3. destruct (negb ok3); [apply (stays_ret _ kt_refl)|].
  apply kt_monitor_processes.
Qed.

Lemma kt_run_body :
  stays keeps_tracked
    (try_except (run_steps E)
       (on_Exception
          (fun e =>
             lift (log Error (if is_ServerSetupError e then exn_str e
                              else "Unexpected error: " +:+ exn_str e)) ;;
             ret false))).
Proof.
  apply (stays_try' _ _ _ kt_refl kt_trans); [apply kt_run_steps|].
  intros e. unfold on_Exception. destruct (is_Exception e); [|exact I].
  apply (stays_bind _ kt_trans); [apply kt_log|].
  intros _. apply (stays_ret _ kt_refl).
Qed.

(** What [cleanup] adds holds no launch. *)
Lemma cleanup_adds_no_spawn s :
  exists evs,
    trace (snd (snd (cleanup E s))) = trace (snd s) ++ evs
    /\ Forall no_spawn evs.
Proof.
  destruct (Phases.sat_cleanup E no_spawn False no_spawn_stop s)
    as (evs & Tr & [F _]).
  exists evs. split; [exact Tr | exact F].
Qed.

Lemma split_before_tail {A} (l1 l2 pre post : list A) x :
  l1 ++ l2 = pre ++ x :: post -> ~ In x l2 ->
  exists post1, l1 = pre ++ x :: post1 /\ post = post1 ++ l2.
Proof.
  revert pre. induction l1 as [|a l1 IH]; intros pre H Hn.
  - cbn [app] in H. exfalso. apply Hn. rewrite H. apply in_elt.
  - destruct pre as [|b pre]; cbn [app] in H; injection H as <- H.
    + exists l1. now split.
    + destruct (IH pre H Hn) as (post1 & -> & ->). now exists post1.
Qed.

(** Every launch in the trace of a finished [run] is followed by the
    [terminate] of that process. *)
Lemma run_terminates_spawned self w :
  kills_succeed E -> tracked (self, w) ->
  fst (run E (self, w)) <> Spin ->
  forall r pre cmd env post,
    trace (snd (snd (run E (self, w)))) = pre ++ ESpawn r cmd env :: post ->
    In (ETerminate r) post.
Proof.
  intros Hk Ht Hs r pre cmd env post.
  unfold run, try_finally in *.
  pose proof (kt_run_body (self, w) Ht) as H1.
  destruct (try_except (run_steps E) _ (self, w)) as [o [self1 w1]].
  cbn [snd] in H1.
  destruct (Cleanup.cleanup_spec E Hk self1 w1)
    as (w' & em & ej & ec & Eq & Tr & Hm & Hj & Hc).
  destruct (cleanup_adds_no_spawn (self1, w1)) as (evs & Tr' & F).
  rewrite Eq in *. cbn [fst snd] in *.
  assert (Hfinal : trace w' = pre ++ ESpawn r cmd env :: post -> In (ETerminate r) post).
  { intros Hp. rewrite Tr' in Hp.
    apply split_before_tail in Hp as (post1 & Hw1 & ->).
    2:{ intros Hin. rewrite List.Forall_forall in F. exact (F _ Hin). }
    assert (Hin : In (ESpawn r cmd env) (trace w1))
      by (rewrite Hw1; apply in_elt).
    specialize (H1 r cmd env Hin). cbn [fst] in H1.
    apply in_or_app. right.
    rewrite Tr in Tr'. apply app_inv_head in Tr'. rewrite <- Tr'.
    destruct r; cbn [process_of] in H1.
    - rewrite H1 in Hj. destruct Hj as (rest & -> & _).
      apply in_or_app. right. apply in_or_app. left. now left.
    - rewrite H1 in Hm. destruct Hm as (rest & -> & _).
      apply in_or_app. left. now left. }
  destruct o as [b|e|]; cbn [fst snd] in *; [exact Hfinal | exact Hfinal|].
  congruence.
Qed.

End Walk.
End Orphans4.

(** X21.  No orphan is left behind.  When no forced kill fails, every
    process that a [run] has launched is asked to terminate before [run]
    ends: in the trace of a [run] that ended, each launch of the
    notebook server or of the bridge is followed by the [terminate] of
    that process.  (The object is assumed to hold the processes launched
    before the call, as it does when it is new.) *)
Theorem spawned_processes_are_terminated (E : environment) (self : setup)
  (w : world) :
  kills_succeed E -> tracked (self, w) ->
  fst (run E (self, w)) <> Spin ->
  forall r pre cmd env post,
    trace (snd (snd (run E (self, w)))) = pre ++ ESpawn r cmd env :: post ->
    In (ETerminate r) post.
Proof. exact (Orphans4.run_terminates_spawned E self w). Qed.

Lemma spawned_processes_are_terminated_witness :
  exists pre cmd env post,
    trace (snd (snd (run Example.env0 (Example.self0, Example.world0))))
    = pre ++ ESpawn Jupyter cmd env :: post
    /\ In (ETerminate Jupyter) post.
Proof.
  assert (Hs : exists cmd env post,
             trace (snd (snd (run Example.env0
                                (Example.self0, Example.world0))))
             = [] ++ ESpawn Jupyter cmd env :: post).
  { vm_compute. eexists _, _, _. reflexivity. }
  destruct Hs as (cmd & env & post & Hs).
  exists [], cmd, env, post. split; [exact Hs|].
  apply (spawned_processes_are_terminated Example.env0 Example.self0
           Example.world0) with (pre := []) (cmd := cmd) (env := env).
  - intros r. reflexivity.
  - intros r cmd' env' [].
  - vm_compute. discriminate.
  - exact Hs.
Defined.

Module Monitoring.
Import MonadFacts.

Section Steps.

Variable E : environment.
Hypothesis kills : kills_succeed E.

(** The first round of monitoring finds that the process [r] is gone. *)
Lemma monitor_finds_exit self w t rest r c msg :
  monitoring E = t :: rest ->
  (r = Jupyter /\ jupyter_process self = Some Jupyter
   /\ jupyter_state w = Running /\ jupyter_poll t = Some c
   /\ msg = "Jupyter Lab process has stopped unexpectedly")
  \/ (r = Mcp /\ mcp_process self = Some Mcp
      /\ mcp_state w = Running /\ mcp_poll t = Some c
      /\ (jupyter_process self = None
          \/ (jupyter_process self = Some Jupyter
              /\ jupyter_state w = Running /\ jupyter_poll t = None))
      /\ msg = "MCP server process has stopped unexpectedly") ->
  exists w1 polls,
    monitor_processes E (self, w) = (Raise (ServerSetupError msg), (self, w1))
    /\ trace w1 = trace w ++ polls ++ [EPoll r (Some c)]
    /\ Forall (fun e => exists r', e = EPoll r' None) polls
    /\ nodes w1 = nodes w
    /\ state_of r w1 = Exited c.
Proof.
  intros Hm H. unfold monitor_processes. rewrite Hm. cbn [monitor_loop].
  rewrite try_except_unfold.
  erewrite bind_ret by reflexivity. cbn [fst].
  destruct H as [(-> & Hp & Hs & Ha & ->)|(-> & Hp & Hs & Ha & Hj & ->)].
  - rewrite Hp. unfold check_alive at 1.
    rewrite bind_unfold, bind_unfold.
    unfold lift, poll. cbn [fst snd state_of]. rewrite Hs, Ha.
    cbn [fst snd raise is_KeyboardInterrupt].
    eexists _, []. split; [reflexivity|]. cbn [set_state emit trace nodes app].
    repeat split. constructor.
  - destruct Hj as [Hj|(Hj & Hjs & Hja)]; rewrite Hj, Hp.
    + unfold check_alive at 1. rewrite bind_unfold. cbn [ret fst snd].
      unfold ret at 1. cbv beta iota.
      unfold check_alive at 1. rewrite bind_unfold, bind_unfold.
      unfold lift, poll. cbn [fst snd state_of]. rewrite Hs, Ha.
      cbn [fst snd raise is_KeyboardInterrupt].
      eexists _, []. split; [reflexivity|].
      cbn [set_state emit trace nodes app]. repeat split. constructor.
    + unfold check_alive at 1. rewrite bind_unfold, bind_unfold.
      unfold lift at 1, poll at 1. cbn [fst snd state_of]. rewrite Hjs, Hja.
      cbn [fst snd ret]. unfold ret at 1. cbv beta iota.
      unfold check_alive at 1. rewrite bind_unfold, bind_unfold.
      unfold lift, poll. cbn [fst snd state_of emit mcp_state]. rewrite Hs, Ha.
      cbn [fst snd raise is_KeyboardInterrupt].
      eexists _, [EPoll Jupyter None]. split; [reflexivity|].
      cbn [set_state emit trace nodes app]. rewrite <- app_assoc.
      repeat split. constructor; [eauto | constructor].
Qed.

(** What [run] does from there: the error is logged, [cleanup] runs,
    the answer is [False]. *)
Lemma run_after_exit self w t rest r c msg :
  monitoring E = t :: rest ->
  (r = Jupyter /\ jupyter_process self = Some Jupyter
   /\ jupyter_state w = Running /\ jupyter_poll t = Some c
   /\ msg = "Jupyter Lab process has stopped unexpectedly")
  \/ (r = Mcp /\ mcp_process self = Some Mcp
      /\ mcp_state w = Running /\ mcp_poll t = Some c
      /\ (jupyter_process self = None
          \/ (jupyter_process self = Some Jupyter
              /\ jupyter_state w = Running /\ jupyter_poll t = None))
      /\ msg = "MCP server process has stopped unexpectedly") ->
  exists w' polls em ej ec,
    run_after_config E (Ret true) (self, w) = (Ret false, (self, w'))
    /\ trace w'
       = trace w ++ polls ++ [EPoll r (Some c); ELog Error msg]
           ++ em ++ ej ++ ec
    /\ Forall (fun e => exists r', e = EPoll r' None) polls
    /\ stop_step (mcp_process self) 5 em
    /\ stop_step (jupyter_process self) 10 ej
    /\ retract_step (cleanup_on_exit self) (mcp_config_path self)
         (nodes w) (nodes w') ec.
Proof.
  intros Hm H.
  destruct (monitor_finds_exit self w t rest r c msg Hm H)
    as (w1 & polls & Em & Tr1 & Fp & Hn1 & Hs1).
  destruct (Cleanup.cleanup_spec E kills self (emit (ELog Error msg) w1))
    as (w' & em & ej & ec & Eq & Tr & Hem & Hej & Hec).
  exists w', polls, em, ej, ec.
  assert (Ht : try_except (resume E (Ret true))
                 (on_Exception
                    (fun e =>
                       lift (log Error
                               (if is_ServerSetupError e then exn_str e
                                else "Unexpected error: " +:+ exn_str e)) ;;
                       ret false)) (self, w)
               = (Ret false, (self, emit (ELog Error msg) w1))).
  { rewrite try_except_unfold. cbn [resume negb]. rewrite Em.
    cbn [on_Exception is_Exception is_ServerSetupError exn_str].
    rewrite bind_unfold. reflexivity. }
  unfold run_after_config, try_finally. rewrite Ht, Eq.
  split; [reflexivity|]. split.
  { rewrite Tr. cbn [trace emit]. rewrite Tr1. rewrite <- !app_assoc.
    reflexivity. }
  split; [exact Fp|]. split; [exact Hem|]. split; [exact Hej|].
  cbn [nodes emit] in Hec. now rewrite Hn1 in Hec.
Qed.

End Steps.

End Monitoring.

(** X22.  A process that dies during monitoring ends the run.  Take a
    [run] whose three steps have returned [True].  If the first round of
    monitoring finds the notebook server gone, or finds it alive (or
    absent) and the bridge gone, then [run] logs that the process "has
    stopped unexpectedly", runs [cleanup] (the stopping steps of the
    bridge and of the notebook server, then the retraction of the
    discovery file) and answers [False]; this when no forced kill
    fails. *)
Theorem exit_during_monitoring_is_fatal (E : environment)
  (s s1 s2 : setup * world) (self : setup) (w : world)
  (t : tick) (rest : list tick) (r : role) (c : Z) (msg : string) :
  kills_succeed E ->
  start_jupyter_lab E s = (Ret true, s1) ->
  start_mcp_server E s1 = (Ret true, s2) ->
  generate_configurations E s2 = (Ret true, (self, w)) ->
  monitoring E = t :: rest ->
  (r = Jupyter /\ jupyter_process self = Some Jupyter
   /\ jupyter_state w = Running /\ jupyter_poll t = Some c
   /\ msg = "Jupyter Lab process has stopped unexpectedly")
  \/ (r = Mcp /\ mcp_process self = Some Mcp
      /\ mcp_state w = Running /\ mcp_poll t = Some c
      /\ (jupyter_process self = None
          \/ (jupyter_process self = Some Jupyter
              /\ jupyter_state w = Running /\ jupyter_poll t = None))
      /\ msg = "MCP server process has stopped unexpectedly") ->
  exists w' polls em ej ec,
    run E s = (Ret false, (self, w'))
    /\ trace w'
       = trace w ++ polls ++ [EPoll r (Some c); ELog Error msg]
           ++ em ++ ej ++ ec
    /\ Forall (fun e => exists r', e = EPoll r' None) polls
    /\ stop_step (mcp_process self) 5 em
    /\ stop_step (jupyter_process self) 10 ej
    /\ retract_step (cleanup_on_exit self) (mcp_config_path self)
         (nodes w) (nodes w') ec.
Proof.
  intros Hk H1 H2 H3 Hm H.
  rewrite (Frame.run_from_config E s s1 s2 (Ret true) (self, w) H1 H2 H3).
  exact (Monitoring.run_after_exit E Hk self w t rest r c msg Hm H).
Qed.

Lemma exit_during_monitoring_is_fatal_witness :
  let E := mkEnv [("PATH", "/usr/bin")] "/usr/bin/python3" "/work"
             (fun p => if String.eqb p "." then "/work" else p)
             (fun p => Ret ("/work/" +:+ p))
             (3, 11)%nat Example.urlparse0 (fun _ => None)
             [JLine "    http://localhost:8888/lab?token=abcdef0123456789"]
             Quiet None
             [mkTick None (Some 1%Z) Quiet]
             (fun _ => Example.polite)
             (fun _ _ => Completed 0) None None (Ret true) in
  exists self w' evs,
    run E (Example.self0, Example.world0) = (Ret false, (self, w'))
    /\ trace w' = evs
    /\ In (ELog Error "MCP server process has stopped unexpectedly") evs
    /\ In (ETerminate Jupyter) evs.
Proof.
  intros E.
  pose (s := (Example.self0, Example.world0)).
  pose (s1 := snd (start_jupyter_lab E s)).
  pose (s2 := snd (start_mcp_server E s1)).
  pose (s3 := snd (generate_configurations E s2)).
  destruct (exit_during_monitoring_is_fatal E s s1 s2 (fst s3) (snd s3)
              (mkTick None (Some 1%Z) Quiet) [] Mcp 1
              "MCP server process has stopped unexpectedly")
    as (w' & polls & em & ej & ec & Er & Tr & _ & _ & Hj & _).
  - intros r. reflexivity.
  - vm_compute. reflexivity.
  - vm_compute. reflexivity.
  - vm_compute. reflexivity.
  - reflexivity.
  - right. split; [reflexivity|]. split; [vm_compute; reflexivity|].
    split; [vm_compute; reflexivity|]. split; [reflexivity|].
    split; [|reflexivity]. right.
    split; [vm_compute; reflexivity|]. split; vm_compute; reflexivity.
  - exists (fst s3), w', (trace w'). split; [exact Er|].
    split; [reflexivity|].
    assert (Hjp : jupyter_process (fst s3) = Some Jupyter)
      by (vm_compute; reflexivity).
    rewrite Hjp in Hj. cbn [stop_step] in Hj.
    destruct Hj as (rest & -> & _). rewrite Tr.
    split; rewrite !in_app_iff; cbn [In app]; rewrite ?in_app_iff;
      cbn [In]; auto 10.
Defined.

(* ===================================================================== *)
(** * The validator *)
(* ===================================================================== *)

(** A relation kept by every step of a computation on the world. *)
Ltac stays_walk Hr Ht :=
  repeat first
    [ assumption
    | solve [ auto ]
    | match goal with
      | |- stays _ (bind _ _) => apply (Ends.stays_bind _ Ht); [|intros ?]
      | |- stays _ (ret _) => apply (Ends.stays_ret _ Hr)
      | |- stays _ (raise _) => apply (Ends.stays_raise _ Hr)
      | |- stays _ spin => apply (Ends.stays_spin _ Hr)
      | |- stays _ (try_except _ _) =>
          let e := fresh "e" in
          apply (Orphans.stays_try' _ _ _ Hr Ht);
          [| intros e; cbv beta;
             try unfold reraise_as_validation_error;
             try unfold as_validation_error;
             try unfold as_installation_error;
             try unfold on_Exception;
             repeat match goal with
                    | |- context [if ?b then _ else _] => destruct b eqn:?
                    end;
             try exact I ]
      | |- stays _ (if ?b then _ else _) => destruct b
      | |- stays _ (match ?x with _ => _ end) => destruct x
      end ].

(** A computation that ends, whatever the class of what it raises. *)
Ltac settles_walk :=
  repeat first
    [ assumption
    | solve [ auto ]
    | match goal with
      | |- settles _ (bind _ _) => apply Ends.settles_bind; [|intros ?]
      | |- settles _ (ret _) => apply Ends.settles_ret
      | |- settles _ (raise _) =>
          apply Ends.settles_raise;
          first [ left; reflexivity | left; eexists; reflexivity
                | right; reflexivity ]
      | |- settles _ get_world => apply Ends.settles_get_world
      | |- settles _ (log _ _) => apply Ends.settles_log
      | |- settles _ (if ?b then _ else _) => destruct b
      | |- settles _ (match ?x with _ => _ end) => destruct x
      end ].

Module Validating.
Import MonadFacts Ends.

Section Checks.

Variable E : environment.
Variable out : list string -> world -> string.
Variable project : string.

Lemma settles_command cmd : settles interruptible (run_command_output E out cmd).
Proof.
  intros w. unfold run_command_output.
  pose proof (settles_run_command E cmd w) as H.
  destruct (run_command E cmd w) as [[rc|e|] w1]; cbn [fst] in *;
    [exact I | exact H | exact H].
Qed.

Lemma settles_handle : settles interruptible (get_virtual_env_python project).
Proof.
  apply (settles_weaken _ _ _ (settles_get_virtual_env_python project)).
  intros e He. left. destruct e; try discriminate He; reflexivity.
Qed.

(** The two handlers of the checks turn every [Exception] into a
    [ValidationError]. *)
Lemma settles_reraise prefix (m : M world bool) :
  settles interruptible m ->
  settles validation_failure
    (try_except m (reraise_as_validation_error prefix)).
Proof.
  intros Hm. apply (settles_try interruptible); [exact Hm|].
  intros e He. unfold reraise_as_validation_error, on_Exception.
  destruct (is_Exception e) eqn:Hx.
  - destruct (is_ValidationError e) eqn:Hv; apply settles_raise; left.
    + destruct e; try discriminate Hv. eauto.
    + eauto.
  - destruct He as [He| ->]; [congruence | now right].
Qed.

Lemma settles_convert prefix (m : M world bool) :
  settles interruptible m ->
  settles validation_failure (try_except m (as_validation_error prefix)).
Proof.
  intros Hm. apply (settles_try interruptible); [exact Hm|].
  intros e He. unfold as_validation_error, on_Exception.
  destruct (is_Exception e) eqn:Hx.
  - apply settles_raise; left. eauto.
  - destruct He as [He| ->]; [congruence | now right].
Qed.

Lemma settles_check_virtual_environment :
  settles validation_failure (check_virtual_environment project).
Proof. unfold check_virtual_environment. settles_walk. Qed.

Lemma settles_check_python_version_in_venv :
  settles validation_failure (check_python_version_in_venv E out project).
Proof.
  unfold check_python_version_in_venv. apply settles_reraise.
  pose proof settles_command. pose proof settles_handle. settles_walk.
Qed.

Lemma settles_check_package_import :
  settles validation_failure (check_package_import E out project).
Proof.
  unfold check_package_import. apply settles_reraise.
  pose proof settles_command. pose proof settles_handle. settles_walk.
Qed.

Lemma settles_check_cli_availability :
  settles validation_failure (check_cli_availability E out project).
Proof.
  unfold check_cli_availability. apply settles_convert.
  pose proof settles_command. pose proof settles_handle. settles_walk.
Qed.

Lemma settles_check_jupyter_components :
  settles validation_failure (check_jupyter_components E out project).
Proof.
  unfold check_jupyter_components. apply settles_convert.
  pose proof settles_command. pose proof settles_handle. settles_walk.
Qed.

Lemma settles_run_comprehensive_test :
  settles validation_failure (run_comprehensive_test E out project).
Proof.
  unfold run_comprehensive_test. apply settles_reraise.
  pose proof settles_command. pose proof settles_handle. settles_walk.
Qed.

Lemma settles_validate : settles validation_failure (validate E out project).
Proof.
  unfold validate. apply (settles_try validation_failure).
  - pose proof settles_check_virtual_environment.
    pose proof settles_check_python_version_in_venv.
    pose proof settles_check_package_import.
    pose proof settles_check_cli_availability.
    pose proof settles_check_jupyter_components.
    pose proof settles_run_comprehensive_test. settles_walk.
  - intros e He. destruct (is_ValidationError e) eqn:Hv.
    + now apply settles_raise.
    + unfold on_Exception. destruct (is_Exception e) eqn:Hx; [|exact He].
      apply settles_raise. left. eauto.
Qed.

Lemma returns_validate : returns (fun b => b = true) (validate E out project).
Proof. unfold validate. returns_go. Qed.

(** ** Nothing is written *)

Lemma machine_get_world : stays same_machine get_world.
Proof. intros w. apply EnvFacts.same_machine_refl. Qed.

Lemma machine_handle : stays same_machine (get_virtual_env_python project).
Proof.
  intros w. unfold get_virtual_env_python.
  destruct (negb _); [apply EnvFacts.same_machine_refl|].
  destruct (negb _); apply EnvFacts.same_machine_refl.
Qed.

Lemma machine_run_command cmd : stays same_machine (run_command E cmd).
Proof.
  intros w. unfold run_command.
  destruct (command_result E cmd w) as [[| |]| | |]; cbn [snd];
    apply EnvFacts.same_machine_emit.
Qed.

Lemma machine_command cmd : stays same_machine (run_command_output E out cmd).
Proof.
  intros w. unfold run_command_output.
  pose proof (machine_run_command cmd w) as H.
  destruct (run_command E cmd w) as [[rc|e|] w1]; exact H.
Qed.

Ltac machine_go :=
  pose proof machine_get_world; pose proof machine_handle;
  pose proof machine_command;
  stays_walk EnvFacts.same_machine_refl EnvFacts.same_machine_trans.

Lemma machine_validate : stays same_machine (validate E out project).
Proof.
  unfold validate, check_virtual_environment, check_python_version_in_venv,
    check_package_import, check_cli_availability, check_jupyter_components,
    run_comprehensive_test.
  machine_go.
Qed.

End Checks.

End Validating.

(** X23.  The validator reads and runs, and answers [True] or raises.
    Whatever the installation and whatever the commands do, [validate]
    ends; it returns [True] and never [False]; what it raises is a
    [ValidationError], or the [KeyboardInterrupt] of a command that was
    interrupted; and it leaves every file, permission and process as it
    found them. *)
Theorem validate_outcomes (E : environment)
  (out : list string -> world -> string) (project : string) (w : world) :
  same_machine w (snd (validate E out project w))
  /\ match fst (validate E out project w) with
     | Ret b => b = true
     | Raise e => validation_failure e
     | Spin => False
     end.
Proof.
  split; [apply Validating.machine_validate|].
  pose proof (Validating.settles_validate E out project w) as Hs.
  pose proof (Validating.returns_validate E out project w) as Hr.
  destruct (fst (validate E out project w)) as [b|e|];
    [now apply Hr | exact Hs | exact Hs].
Qed.

Module VersionCheck.
Import MonadFacts Ends.

(** A command that returns has exited with status 0. *)
Lemma command_returns_zero E out cmd w r w1 :
  run_command_output E out cmd w = (Ret r, w1) -> returncode r = 0%Z.
Proof.
  unfold run_command_output, run_command.
  destruct (command_result E cmd w) as [[| |]| | |]; intros [= <- _];
    reflexivity.
Qed.

(** What the body of the check raises comes from the interpreter lookup
    or from a command: never the [ValidationError] of its last lines. *)
Lemma body_raises E out project w :
  let body :=
    (python_path <- get_virtual_env_python project ;;
     result <-
       run_command_output E out
         [python_path; "-c";
          "import sys; print(f'{sys.version_info.major}.{sys.version_info.minor}')"] ;;
     let version_str := strip (stdout result) in
     result <-
       run_command_output E out
         [python_path; "-c";
          "import sys; exit(0 if sys.version_info >= (3, 10) else 1)"] ;;
     if negb (returncode result =? 0)%Z
     then raise (ValidationError
                   ("Python version " +:+ version_str
                      +:+ " is too old (requires >= 3.10)"))
     else ret true) in
  match fst (body w) with
  | Ret b => b = true
  | Raise e => is_ValidationError e = false /\ interruptible e
  | Spin => False
  end.
Proof.
  intros body. subst body. unfold bind.
  assert (Hh : match fst (get_virtual_env_python project w) with
               | Ret _ => True
               | Raise e => is_ValidationError e = false /\ interruptible e
               | Spin => False
               end).
  { unfold get_virtual_env_python.
    destruct (negb _); [split; [reflexivity | left; reflexivity]|].
    destruct (negb _); [split; [reflexivity | left; reflexivity] | exact I]. }
  destruct (get_virtual_env_python project w) as [[py|e|] w1];
    cbn [fst] in *; [|exact Hh|exact Hh].
  assert (Hc : forall cmd w0,
             match fst (run_command_output E out cmd w0) with
             | Raise e => is_ValidationError e = false /\ interruptible e
             | _ => True
             end).
  { intros cmd w0. unfold run_command_output, run_command.
    destruct (command_result E cmd w0) as [[| |]| | |]; cbn [fst];
      try exact I; (split; [reflexivity|]);
      first [left; reflexivity | right; reflexivity]. }
  match goal with
  | |- context [run_command_output E out ?c w1] =>
      pose proof (Hc c w1) as H1;
      pose proof (Validating.settles_command E out c w1) as S1;
      destruct (run_command_output E out c w1) as [[r1|e1|] w2] eqn:E1;
      cbn [fst] in *; [|exact H1|exact S1]
  end.
  match goal with
  | |- context [run_command_output E out ?c w2] =>
      pose proof (Hc c w2) as H2;
      pose proof (Validating.settles_command E out c w2) as S2;
      destruct (run_command_output E out c w2) as [[r2|e2|] w3] eqn:E2;
      cbn [fst] in *; [|exact H2|exact S2]
  end.
  rewrite (command_returns_zero _ _ _ _ _ _ E2). reflexivity.
Qed.

End VersionCheck.

(** X24.  The version check of the validator never reports an old
    interpreter as such.  [check_python_version_in_venv] returns [True]
    or raises; a [ValidationError] it raises always reads "Failed to
    check Python version: ..." (a command that exits with a non-zero
    status already fails in [run_command]), so the message "... is too
    old (requires >= 3.10)" of its last lines is never produced; the
    only other exception is the [KeyboardInterrupt] of an interrupted
    command. *)
Theorem version_check_never_says_too_old (E : environment)
  (out : list string -> world -> string) (project : string) (w : world) :
  match fst (check_python_version_in_venv E out project w) with
  | Ret b => b = true
  | Raise e =>
      e = KeyboardInterrupt
      \/ exists msg,
           e = ValidationError ("Failed to check Python version: " +:+ msg)
  | Spin => False
  end.
Proof.
  unfold check_python_version_in_venv.
  rewrite MonadFacts.try_except_unfold.
  pose proof (VersionCheck.body_raises E out project w) as Hb.
  cbv zeta in Hb.
  match goal with
  | H : match fst (?body w) with _ => _ end |- _ =>
      destruct (body w) as [[b|e|] w1]; cbn [fst] in *
  end; [exact Hb| |exact Hb].
  destruct Hb as (Hv & [Hx| ->]).
  - unfold reraise_as_validation_error, on_Exception. rewrite Hx, Hv.
    cbn [fst raise]. right. eauto.
  - cbn. now left.
Qed.

(* ===================================================================== *)
(** * [utils.validate_notebook_path] *)
(* ===================================================================== *)

Module NotebookPath.

Lemma negb_false b : negb b = false -> b = true.
Proof. now destruct b. Qed.

Lemma file_is_document p w :
  is_file p w = true -> p ∉ unreadable w ->
  (exists j, json_load p w = (Ret j, w) /\ nodes w !! p = Some (Doc j))
  \/ (exists msg, json_load p w = (Raise (Builtin JSONDecodeError msg), w)).
Proof.
  unfold is_file, json_load. intros Hf Hu.
  rewrite (bool_decide_eq_false_2 _ Hu).
  destruct (nodes w !! p) as [[|j|c]|]; try discriminate Hf; eauto.
Qed.

End NotebookPath.

(** X25.  What [validate_notebook_path] accepts.  The call changes
    nothing.  The path it returns is the given one, taken from the
    working directory when it is relative, and resolved; it names a
    readable regular file whose content parses as JSON and whose suffix
    is [.ipynb] whatever the case of its letters.  Every failure is a
    [SetupError]. *)
Theorem validate_notebook_path_sound (E : environment) (notebook_path : string)
  (w : world) :
  snd (validate_notebook_path E notebook_path w) = w
  /\ match fst (validate_notebook_path E notebook_path w) with
     | Ret q =>
         q = resolve E (if is_absolute notebook_path then notebook_path
                        else path_join (cwd E) notebook_path)
         /\ (exists j, nodes w !! q = Some (Doc j))
         /\ (q ∉ unreadable w)
         /\ lower (suffix q) = ".ipynb"
     | Raise e => exists msg, e = SetupError msg
     | Spin => False
     end.
Proof.
  unfold validate_notebook_path.
  set (q := resolve E _).
  rewrite MonadFacts.try_except_unfold, MonadFacts.bind_unfold.
  cbn [get_world fst snd].
  destruct (negb (path_exists q w)) eqn:Hx; [cbn; eauto|].
  destruct (negb (is_file q w)) eqn:Hf; [cbn; eauto|].
  destruct (negb (String.eqb (lower (suffix q)) ".ipynb")) eqn:Hs;
    [cbn; eauto|].
  apply NotebookPath.negb_false in Hf, Hs. apply String.eqb_eq in Hs.
  rewrite MonadFacts.bind_unfold, MonadFacts.try_except_unfold,
    MonadFacts.bind_unfold.
  destruct (decide (q ∈ unreadable w)) as [Hu|Hu].
  - unfold json_load. rewrite (bool_decide_eq_true_2 _ Hu). cbn. eauto.
  - destruct (NotebookPath.file_is_document q w Hf Hu)
      as [(j & -> & Hj)|(msg & ->)]; cbn; eauto 10.
Qed.

(* ===================================================================== *)
(** * The installer *)
(* ===================================================================== *)

Module Installing.
Import MonadFacts Ends.

Lemma under_self p : under p p = true.
Proof. unfold under. now rewrite String.eqb_refl. Qed.

Lemma under_join p q name :
  under p q = true -> under p (path_join q name) = true.
Proof.
  unfold under, path_join. intros H. apply orb_true_iff. right.
  apply orb_prop in H. destruct H as [H|H].
  - apply String.eqb_eq in H. subst q.
    rewrite <- (StrFacts.app_assoc p "/" name). apply StrFacts.prefix_app.
  - apply PathFacts.prefix_split in H. rewrite H.
    rewrite StrFacts.app_assoc. apply StrFacts.prefix_app.
Qed.

Lemma not_under p q k : under p q = false -> under p k = true -> k <> q.
Proof. intros Hq Hk ->. congruence. Qed.

Section Steps.

Variable E : environment.
Variable project : string.

Let venv : string := get_virtual_env_path project.
Let R : world -> world -> Prop := installer_step project.

Lemma outside_refl p w : outside p w w.
Proof. unfold outside. repeat split; auto. Qed.

Lemma outside_emit p e w : outside p w (emit e w).
Proof. unfold outside. repeat split; auto. Qed.

Lemma outside_trans p w1 w2 w3 :
  outside p w1 w2 -> outside p w2 w3 -> outside p w1 w3.
Proof.
  intros (a1 & a2 & a3 & a4 & a5 & a6) (b1 & b2 & b3 & b4 & b5 & b6).
  split; [intros q Hq; now rewrite b1, a1|].
  split; [intros q Hq; now rewrite b2, a2|].
  repeat split; congruence.
Qed.

Lemma step_refl w : R w w.
Proof.
  split; [apply outside_refl|]. exists []. now rewrite app_nil_r.
Qed.

Lemma step_trans w1 w2 w3 : R w1 w2 -> R w2 w3 -> R w1 w3.
Proof.
  intros (Ho1 & e1 & T1 & F1) (Ho2 & e2 & T2 & F2).
  split; [exact (outside_trans _ _ _ _ Ho1 Ho2)|].
  exists (e1 ++ e2). rewrite T2, T1, <- app_assoc. split; [reflexivity|].
  rewrite forallb_app, F1, F2. reflexivity.
Qed.

Lemma step_emit e w : installer_event project e = true -> R w (emit e w).
Proof.
  intros He. split; [apply outside_emit|]. exists [e]. split; [reflexivity|].
  cbn [forallb]. now rewrite He.
Qed.

Lemma step_log l msg : stays R (log l msg).
Proof. intros w. now apply step_emit. Qed.

Lemma step_get_world : stays R get_world.
Proof. intros w. apply step_refl. Qed.

Lemma handle_cases w :
  (exists e, get_virtual_env_python project w = (Raise e, w))
  \/ get_virtual_env_python project w = (Ret (venv_python_path project), w).
Proof.
  unfold get_virtual_env_python.
  destruct (negb _); [eauto|]. destruct (negb _); eauto.
Qed.

(** The interpreter that later commands are run with is the one of the
    environment. *)
Lemma step_with_python {A} (k : string -> M world A) :
  stays R (k (venv_python_path project)) ->
  stays R (bind (get_virtual_env_python project) k).
Proof.
  intros Hk w. rewrite bind_unfold.
  destruct (handle_cases w) as [(e & ->)| ->]; [apply step_refl | apply Hk].
Qed.

Lemma step_run_command args :
  stays R (run_command E (venv_python_path project :: args)).
Proof.
  intros w. unfold run_command.
  destruct (command_result E _ w) as [[| |]| | |]; cbn [snd];
    apply step_emit; cbn [installer_event]; apply String.eqb_refl.
Qed.

Lemma step_rmtree : stays R (rmtree E venv).
Proof.
  intros w. unfold rmtree.
  destruct (rmtree_error E); cbn [snd];
    [apply step_emit; apply String.eqb_refl|].
  apply (step_trans _ (emit (ERmtree venv) w));
    [apply step_emit; apply String.eqb_refl|].
  split; [|exists []; now rewrite app_nil_r].
  split; [|split; [intros q Hq; reflexivity | repeat split; reflexivity]].
  intros q Hq. cbn [nodes set_nodes emit].
  destruct (nodes w !! q) as [x|] eqn:Hx.
  - apply map_lookup_filter_Some. split; [exact Hx | exact Hq].
  - apply map_lookup_filter_None. now left.
Qed.

Lemma step_venv_create : stays R (venv_create E venv).
Proof.
  intros w. unfold venv_create.
  destruct (venv_create_error E); cbn [snd];
    [apply step_emit; apply String.eqb_refl|].
  apply (step_trans _ (emit (EVenvCreate venv) w));
    [apply step_emit; apply String.eqb_refl|].
  split; [|exists []; now rewrite app_nil_r].
  pose proof (under_self venv) as U0.
  pose proof (under_join venv venv "bin" U0) as U1.
  pose proof (under_join venv _ "python" U1) as U2.
  pose proof (under_join venv _ "activate" U1) as U3.
  split; [|split; [|repeat split; reflexivity]].
  - intros q Hq. cbn [nodes set_nodes set_exec emit].
    rewrite !lookup_insert_ne; [reflexivity|..];
      apply (not_under venv); assumption.
  - intros q Hq. cbn [exec set_exec set_nodes emit].
    pose proof (not_under venv q _ Hq U2) as Hne.
    rewrite elem_of_union, elem_of_singleton.
    split; [intros [Hp|Hp]; [congruence | exact Hp] | now right].
Qed.

End Steps.

End Installing.

(** The steps of the installer, one by one. *)
Ltac installer_go project :=
  repeat first
    [ assumption
    | solve [ auto ]
    | match goal with
      | |- stays _ (bind (get_virtual_env_python _) _) =>
          apply Installing.step_with_python; cbv beta
      | |- stays _ (run_command _ _) => apply Installing.step_run_command
      | |- stays _ (rmtree _ _) => apply Installing.step_rmtree
      | |- stays _ (venv_create _ _) => apply Installing.step_venv_create
      | |- stays _ (log _ _) => apply Installing.step_log
      | |- stays _ get_world => apply Installing.step_get_world
      | |- stays _ (bind _ _) =>
          apply (Ends.stays_bind _ (Installing.step_trans project));
          [|intros ?]
      | |- stays _ (ret _) =>
          apply (Ends.stays_ret _ (Installing.step_refl project))
      | |- stays _ (raise _) =>
          apply (Ends.stays_raise _ (Installing.step_refl project))
      | |- stays _ (try_except _ _) =>
          let e := fresh "e" in
          apply (Orphans.stays_try' _ _ _ (Installing.step_refl project)
                   (Installing.step_trans project));
          [| intros e; cbv beta;
             try unfold as_installation_error;
             try unfold on_Exception;
             repeat match goal with
                    | |- context [if ?b then _ else _] => destruct b eqn:?
                    end;
             try exact I ]
      | |- stays _ (if ?b then _ else _) => destruct b
      | |- stays _ (match ?x with _ => _ end) => destruct x
      end ].

Module Installing2.
Import MonadFacts Ends.

Section Steps.

Variable E : environment.
Variable project : string.

Let R : world -> world -> Prop := installer_step project.

Lemma step_check_existing_installation :
  stays R (check_existing_installation E project).
Proof. unfold check_existing_installation, smoke_import_cmd. installer_go project. Qed.

Lemma step_create_virtual_environment :
  stays R (create_virtual_environment E project).
Proof. unfold create_virtual_environment. installer_go project. Qed.

Lemma step_upgrade_pip : stays R (upgrade_pip E project).
Proof. unfold upgrade_pip. installer_go project. Qed.

Lemma step_install_each deps :
  stays R (install_each E (venv_python_path project) deps).
Proof.
  induction deps as [|d deps IH]; cbn [install_each]; installer_go project.
Qed.

Lemma step_install_dependencies : stays R (install_dependencies E project).
Proof.
  unfold install_dependencies. pose proof step_install_each.
  installer_go project.
Qed.

Lemma step_validate_installation : stays R (validate_installation E project).
Proof. unfold validate_installation. installer_go project. Qed.

Lemma step_install force : stays R (install E project force).
Proof.
  unfold install, check_prerequisites.
  pose proof step_check_existing_installation.
  pose proof step_create_virtual_environment.
  pose proof step_upgrade_pip. pose proof step_install_dependencies.
  pose proof step_validate_installation.
  installer_go project.
Qed.

End Steps.

End Installing2.


Module Installing3.
Import MonadFacts Ends.

Section Steps.

Variable E : environment.
Variable project : string.

(** ** How the steps end *)

Lemma settles_rmtree p : settles interruptible (rmtree E p).
Proof.
  intros w. unfold rmtree. destruct (rmtree_error E); cbn [fst];
    [left; reflexivity | exact I].
Qed.

Lemma settles_venv_create p : settles interruptible (venv_create E p).
Proof.
  intros w. unfold venv_create. destruct (venv_create_error E); cbn [fst];
    [left; reflexivity | exact I].
Qed.

Lemma settles_installer_command cmd : settles interruptible (run_command E cmd).
Proof. exact (settles_run_command E cmd). Qed.

(** [except Exception as e: raise InstallationError(...)]. *)
Lemma settles_as_installation_error prefix (m : M world unit) :
  settles interruptible m ->
  settles installation_failure (try_except m (as_installation_error prefix)).
Proof.
  intros Hm. apply (settles_try interruptible); [exact Hm|].
  intros e He. unfold as_installation_error, on_Exception.
  destruct (is_Exception e) eqn:Hx.
  - apply settles_raise; left. eauto.
  - destruct He as [He| ->]; [congruence | now right].
Qed.

Ltac prims :=
  pose proof settles_rmtree; pose proof settles_venv_create;
  pose proof settles_installer_command;
  pose proof (Validating.settles_handle project).

Lemma settles_check_existing_installation :
  settles installation_failure (check_existing_installation E project).
Proof.
  unfold check_existing_installation.
  apply settles_bind; [apply settles_get_world|]. intros w.
  destruct (negb _); [apply settles_ret|].
  apply settles_bind; [|intros []; settles_walk].
  destruct (validate_project_structure project w); [|apply settles_ret].
  apply (settles_try interruptible); [prims; settles_walk|].
  intros e He. unfold on_Exception. destruct (is_Exception e) eqn:Hx.
  - settles_walk.
  - destruct He as [He| ->]; [congruence | now right].
Qed.

Lemma settles_create_virtual_environment :
  settles installation_failure (create_virtual_environment E project).
Proof.
  unfold create_virtual_environment. apply settles_as_installation_error.
  prims. settles_walk.
Qed.

Lemma settles_upgrade_pip :
  settles installation_failure (upgrade_pip E project).
Proof.
  unfold upgrade_pip. apply settles_as_installation_error.
  prims. settles_walk.
Qed.

Lemma settles_install_each python deps :
  settles interruptible (install_each E python deps).
Proof.
  induction deps as [|d deps IH]; cbn [install_each]; prims; settles_walk.
Qed.

Lemma settles_install_dependencies :
  settles installation_failure (install_dependencies E project).
Proof.
  unfold install_dependencies. apply settles_as_installation_error.
  pose proof settles_install_each. prims. settles_walk.
Qed.

Lemma settles_validate_installation :
  settles installation_failure (validate_installation E project).
Proof.
  unfold validate_installation. apply settles_as_installation_error.
  prims. settles_walk.
Qed.

Lemma settles_install force :
  settles installation_failure (install E project force).
Proof.
  unfold install. apply (settles_try installation_failure).
  - unfold check_prerequisites.
    pose proof settles_check_existing_installation.
    pose proof settles_create_virtual_environment.
    pose proof settles_upgrade_pip. pose proof settles_install_dependencies.
    pose proof settles_validate_installation. settles_walk.
  - intros e He. destruct (is_InstallationError e) eqn:Hv.
    + now apply settles_raise.
    + unfold on_Exception. destruct (is_Exception e) eqn:Hx; [|exact He].
      apply settles_raise. left. eauto.
Qed.

Lemma returns_install force :
  returns (fun b => b = true) (install E project force).
Proof. unfold install. returns_go. Qed.

(** ** What is in place when [install] returns *)

Lemma stays_at {A} (R : world -> world -> Prop) (m : M world A) w o w' :
  stays R m -> m w = (o, w') -> R w w'.
Proof. intros Hm H. specialize (Hm w). now rewrite H in Hm. Qed.

Lemma installed_iff w :
  installed project w
  <-> validate_project_structure project w = true
      /\ venv_python_path project ∈ exec w.
Proof.
  unfold installed, get_virtual_env_python, check_file_permissions_x.
  split.
  - intros (Hs & Hh). split; [exact Hs|].
    destruct (negb (path_exists _ w)); [discriminate Hh|].
    destruct (path_exists _ w); cbn [andb negb] in Hh; [|discriminate Hh].
    destruct (bool_decide _) eqn:Hb; cbn [negb] in Hh; [|discriminate Hh].
    now apply bool_decide_eq_true_1 in Hb.
  - intros (Hs & Hx). split; [exact Hs|].
    unfold validate_project_structure in Hs. apply andb_prop in Hs.
    destruct Hs as (Hp & _). rewrite Hp. cbn [negb andb].
    now rewrite (bool_decide_eq_true_2 _ Hx).
Qed.

Lemma installed_same w w' :
  same_machine w w' -> installed project w -> installed project w'.
Proof.
  intros (Hn & _ & _ & Hx & _) Hi. apply installed_iff in Hi.
  apply installed_iff. unfold validate_project_structure, path_exists in *.
  now rewrite Hn, Hx.
Qed.

Ltac machine_go :=
  pose proof Validating.machine_get_world;
  pose proof (Validating.machine_handle project);
  pose proof (Validating.machine_run_command E);
  stays_walk EnvFacts.same_machine_refl EnvFacts.same_machine_trans.

Lemma machine_upgrade_pip : stays same_machine (upgrade_pip E project).
Proof. unfold upgrade_pip. machine_go. Qed.

Lemma machine_install_each python deps :
  stays same_machine (install_each E python deps).
Proof. induction deps as [|d deps IH]; cbn [install_each]; machine_go. Qed.

Lemma machine_install_dependencies :
  stays same_machine (install_dependencies E project).
Proof.
  unfold install_dependencies. pose proof machine_install_each. machine_go.
Qed.

Lemma machine_validate_installation :
  stays same_machine (validate_installation E project).
Proof. unfold validate_installation. machine_go. Qed.

Lemma machine_log l msg : stays same_machine (log l msg).
Proof. intros w. apply EnvFacts.same_machine_emit. Qed.

Lemma machine_check_existing_installation :
  stays same_machine (check_existing_installation E project).
Proof.
  unfold check_existing_installation. pose proof machine_log. machine_go.
Qed.

(** A handler that converts never returns. *)
Lemma convert_not_ret prefix e k w (u : unit) w' :
  as_installation_error prefix e = Some k -> k w = (Ret u, w') -> False.
Proof.
  unfold as_installation_error, on_Exception.
  destruct (is_Exception e); [|discriminate]. intros [= <-]. discriminate.
Qed.

Lemma check_existing_installation_true w w1 :
  check_existing_installation E project w = (Ret true, w1) ->
  installed project w1.
Proof.
  intros H.
  apply (installed_same w);
    [exact (stays_at _ _ _ _ _ machine_check_existing_installation H)|].
  revert H. unfold check_existing_installation.
  rewrite bind_unfold. cbn [get_world fst snd].
  destruct (negb _); [discriminate|].
  intros H. apply Order.bind_inv_ret in H. destruct H as (valid & w2 & Hv & Hk).
  destruct valid; [|discriminate Hk].
  destruct (validate_project_structure project w) eqn:Hs; [|discriminate Hv].
  apply Order.try_inv_ret in Hv.
  destruct Hv as [Hv|(e & w3 & k & _ & Hh & Hk')].
  - apply Order.bind_inv_ret in Hv. destruct Hv as (py & w3 & Hp & _).
    split; [exact Hs|].
    destruct (Installing.handle_cases project w) as [(e & He)|He];
      [congruence | exact He].
  - unfold on_Exception in Hh. destruct (is_Exception e); [|discriminate].
    injection Hh as <-. discriminate Hk'.
Qed.

Lemma venv_create_installed w w1 :
  venv_create E (get_virtual_env_path project) w = (Ret tt, w1) ->
  installed project w1.
Proof.
  unfold venv_create. destruct (venv_create_error E); [discriminate|].
  intros [= <-]. apply installed_iff.
  unfold validate_project_structure, path_exists, venv_python_path.
  cbn [nodes exec set_exec set_nodes emit]. split.
  - apply andb_true_intro. split.
    + destruct (decide (path_join (path_join (get_virtual_env_path project)
                                     "bin") "activate"
                        = path_join (path_join (get_virtual_env_path project)
                                       "bin") "python")) as [Heq|Hne].
      * rewrite Heq, lookup_insert_eq. reflexivity.
      * rewrite lookup_insert_ne by exact Hne.
        rewrite lookup_insert_eq. reflexivity.
    + rewrite lookup_insert_eq. reflexivity.
  - apply elem_of_union. left. now apply elem_of_singleton.
Qed.

Lemma create_virtual_environment_ret w w1 :
  create_virtual_environment E project w = (Ret tt, w1) ->
  installed project w1.
Proof.
  unfold create_virtual_environment. intros H.
  apply Order.try_inv_ret in H.
  destruct H as [H|(e & w2 & k & _ & Hh & Hk)];
    [|destruct (convert_not_ret _ _ _ _ _ _ Hh Hk)].
  apply Order.bind_inv_ret in H. destruct H as (w0 & w2 & _ & H).
  apply Order.bind_inv_ret in H. destruct H as ([] & w3 & _ & H).
  exact (venv_create_installed _ _ H).
Qed.

Lemma install_ret force w b w' :
  install E project force w = (Ret b, w') -> installed project w'.
Proof.
  unfold install. intros H. apply Order.try_inv_ret in H.
  destruct H as [H|(e & w2 & k & _ & Hh & Hk)].
  2:{ destruct (is_InstallationError e).
      - injection Hh as <-. discriminate Hk.
      - unfold on_Exception in Hh. destruct (is_Exception e); [|discriminate].
        injection Hh as <-. discriminate Hk. }
  apply Order.bind_inv_ret in H. destruct H as (ok & w1 & _ & H).
  apply Order.bind_inv_ret in H. destruct H as (existing & w2 & Hx & H).
  destruct existing.
  - injection H as _ <-. destruct force; [discriminate Hx|].
    exact (check_existing_installation_true _ _ Hx).
  - apply Order.bind_inv_ret in H. destruct H as ([] & w3 & Hc & H).
    apply Order.bind_inv_ret in H. destruct H as ([] & w4 & Hu & H).
    apply Order.bind_inv_ret in H. destruct H as ([] & w5 & Hd & H).
    apply Order.bind_inv_ret in H. destruct H as ([] & w6 & Hv & H).
    injection H as _ <-.
    apply (installed_same w5);
      [exact (stays_at _ _ _ _ _ machine_validate_installation Hv)|].
    apply (installed_same w4);
      [exact (stays_at _ _ _ _ _ machine_install_dependencies Hd)|].
    apply (installed_same w3);
      [exact (stays_at _ _ _ _ _ machine_upgrade_pip Hu)|].
    exact (create_virtual_environment_ret _ _ Hc).
Qed.

End Steps.

End Installing3.

(** X27.  How [install] ends.  Whatever the state of the project and
    whatever the commands do, [install] ends; it returns [True] and never
    [False]; what it raises is an [InstallationError], or the
    [KeyboardInterrupt] of a command that was interrupted.  When it
    returns, the environment is in place: the interpreter and the
    [activate] script of [jupyter-mcp-env/bin] exist and
    [get_virtual_env_python] finds the interpreter executable. *)
Theorem install_outcomes (E : environment) (project : string)
  (force_reinstall : bool) (w : world) :
  match install E project force_reinstall w with
  | (Ret b, w') =>
      b = true
      /\ validate_project_structure project w' = true
      /\ get_virtual_env_python project w'
         = (Ret (venv_python_path project), w')
  | (Raise e, _) => installation_failure e
  | (Spin, _) => False
  end.
Proof.
  pose proof (Installing3.settles_install E project force_reinstall w) as Hs.
  pose proof (Installing3.returns_install E project force_reinstall w) as Hr.
  pose proof (Installing3.install_ret E project force_reinstall w) as Hi.
  destruct (install E project force_reinstall w) as [[b|e|] w'];
    cbn [fst] in *; [|exact Hs|exact Hs].
  split; [now apply Hr|]. exact (Hi b w' eq_refl).
Qed.

Module Dependencies.
Import MonadFacts Ends.

Section Steps.

Variable E : environment.

(** The loop over the dependencies: the commands of an initial part of
    the list, in order; of the whole list when the loop ends. *)
Lemma install_each_trace python deps w :
  exists n,
    n <= length deps
    /\ trace (snd (install_each E python deps w))
       = trace w ++ map (pip_install python) (firstn n deps)
    /\ match fst (install_each E python deps w) with
       | Ret _ => n = length deps
       | Raise e => 0 < n /\ interruptible e
       | Spin => False
       end.
Proof.
  revert w. induction deps as [|d deps IH]; intros w.
  - exists 0. cbn. rewrite app_nil_r. auto.
  - cbn [install_each]. rewrite bind_unfold.
    pose proof (settles_run_command E [python; "-m"; "pip"; "install"; d] w)
      as Hs.
    assert (Ht : trace (snd (run_command E
                               [python; "-m"; "pip"; "install"; d] w))
                 = trace w ++ [pip_install python d]).
    { unfold run_command.
      destruct (command_result E _ w) as [[| |]| | |]; reflexivity. }
    destruct (run_command E [python; "-m"; "pip"; "install"; d] w)
      as [[rc|e|] w1]; cbn [fst snd] in *.
    + destruct (IH w1) as (n & Hn & Tr & Ho). exists (S n).
      split; [cbn [length]; lia|]. split.
      * rewrite Tr, Ht, <- app_assoc. reflexivity.
      * destruct (fst (install_each E python deps w1)); cbn [length];
          [lia | split; [lia | tauto] | exact Ho].
    + exists 1. split; [cbn [length]; lia|]. split; [exact Ht|].
      split; [lia | exact Hs].
    + destruct Hs.
Qed.

End Steps.

End Dependencies.

(** X28.  The dependencies are installed one by one, in the order of
    the list.  What [install_dependencies] adds to the trace are the
    [pip install] commands of an initial part of its list of fourteen
    requirements, in that order, each run with the interpreter of the
    environment.  The call returns only when all of them have been run;
    when it raises, only that initial part has been run, and the
    exception is an [InstallationError] that reads "Failed to install
    dependencies: ...", or the [KeyboardInterrupt] of an interrupted
    command. *)
Theorem install_dependencies_in_order (E : environment) (project : string)
  (w : world) :
  let r := install_dependencies E project w in
  exists n,
    n <= length dependencies
    /\ trace (snd r)
       = trace w
           ++ map (pip_install (venv_python_path project))
                (firstn n dependencies)
    /\ match fst r with
       | Ret _ => n = length dependencies
       | Raise e =>
           e = KeyboardInterrupt
           \/ exists msg,
                e = InstallationError
                      ("Failed to install dependencies: " +:+ msg)
       | Spin => False
       end.
Proof.
  intros r. subst r. unfold install_dependencies.
  rewrite MonadFacts.try_except_unfold, MonadFacts.bind_unfold.
  destruct (Installing.handle_cases project w) as [(e & He)| He]; rewrite He.
  - exists 0. split; [lia|].
    pose proof (Ends.settles_get_virtual_env_python project w) as Hs.
    rewrite He in Hs. cbn [fst] in Hs.
    assert (Hx : is_Exception e = true)
      by (destruct e; cbn in Hs; try discriminate Hs; reflexivity).
    unfold as_installation_error, on_Exception. rewrite Hx.
    cbn [fst snd raise firstn map]. rewrite app_nil_r. split; [reflexivity|].
    right. eauto.
  - cbv beta iota.
    destruct (Dependencies.install_each_trace E (venv_python_path project)
                dependencies w) as (n & Hn & Tr & Ho).
    exists n. split; [exact Hn|].
    destruct (install_each E (venv_python_path project) dependencies w)
      as [[u|e|] w1]; cbn [fst snd] in *.
    + split; [exact Tr | exact Ho].
    + destruct Ho as (_ & [Hx| ->]).
      * unfold as_installation_error, on_Exception. rewrite Hx.
        cbn [fst snd raise]. split; [exact Tr|]. right. eauto.
      * cbn. split; [exact Tr|]. now left.
    + destruct Ho.
Qed.

(* ===================================================================== *)
(** * [generate_configurations] and the Claude settings *)
(* ===================================================================== *)

Module ConfigStep.
Import MonadFacts Ends.

(** The optional Claude step returns, whatever happens to the settings. *)
Lemma claude_step_returns (self : setup) (s1 : setup * world) :
  exists s',
    (if claude_config self
     then
       claude_success <-
         lift (generate_claude_settings (project_dir self) "jupyter") ;;
       if claude_success then ret tt
       else lift (log Warning
                    "Claude configuration generation failed, but continuing...")
     else ret tt) s1 = (Ret tt, s')
    /\ forall p,
         p <> path_join (project_dir self) ".claude" ->
         p <> get_claude_config_path (project_dir self) ->
         nodes (snd s') !! p = nodes (snd s1) !! p.
Proof.
  destruct (claude_config self); [|exists s1; split; [reflexivity | auto]].
  rewrite bind_unfold. destruct s1 as [self1 w1]. unfold lift at 1.
  cbn [fst snd].
  pose proof (SettingsEnds.settles_generate_claude_settings
                (project_dir self) "jupyter" w1) as Hs.
  pose proof (fun p Hd Hp =>
                SettingsEnds.keeps_world_generate_claude_settings
                  (project_dir self) "jupyter" p Hd Hp w1) as Hk.
  destruct (generate_claude_settings (project_dir self) "jupyter" w1)
    as [[[]|e|] w2]; cbn [fst snd] in *; [| |destruct Hs|destruct Hs].
  - eexists. split; [reflexivity|]. exact Hk.
  - eexists. split; [reflexivity|]. exact Hk.
Qed.

End ConfigStep.

(** X29.  The Claude settings never decide how
    [generate_configurations] ends.  With the port and the token known,
    the step ends as [_generate_mcp_config] does: once [.mcp.json] is
    written it returns [True], whether or not the Claude settings were
    asked for and could be written, and what was done for them has
    touched only the [.claude] directory of the project and the settings
    file in it; an [Exception] of [_generate_mcp_config] becomes the
    [ServerSetupError] "Failed to generate configurations: ...", and
    anything else it raises passes unchanged. *)
Theorem generate_configurations_outcome (E : environment) (self : setup)
  (w : world) :
  details_missing self = false ->
  let r := _generate_mcp_config E (self, w) in
  match fst r with
  | Ret _ =>
      exists s',
        generate_configurations E (self, w) = (Ret true, s')
        /\ forall p,
             p <> path_join (project_dir self) ".claude" ->
             p <> get_claude_config_path (project_dir self) ->
             nodes (snd s') !! p = nodes (snd (snd r)) !! p
  | Raise e =>
      generate_configurations E (self, w)
      = (Raise (if is_Exception e
                then ServerSetupError
                       ("Failed to generate configurations: " +:+ exn_str e)
                else e), snd r)
  | Spin => fst (generate_configurations E (self, w)) = Spin
  end.
Proof.
  intros Hd r. subst r. unfold generate_configurations.
  rewrite MonadFacts.bind_unfold. cbn [get_self fst snd]. rewrite Hd.
  rewrite MonadFacts.try_except_unfold, MonadFacts.bind_unfold.
  destruct (_generate_mcp_config E (self, w)) as [[[]|e|] s1]; cbn [fst snd].
  - rewrite MonadFacts.bind_unfold.
    destruct (ConfigStep.claude_step_returns self s1) as (s' & -> & Hk).
    exists s'. split; [reflexivity | exact Hk].
  - unfold on_Exception. destruct (is_Exception e); reflexivity.
  - reflexivity.
Qed.

Lemma generate_configurations_outcome_witness :
  let s2 := snd (start_mcp_server Example.env0
                   (snd (start_jupyter_lab Example.env0
                           (Example.self0, Example.world0)))) in
  exists s', generate_configurations Example.env0 s2 = (Ret true, s').
Proof.
  intros s2.
  assert (Hd : details_missing (fst s2) = false) by (vm_compute; reflexivity).
  pose proof (generate_configurations_outcome Example.env0 (fst s2) (snd s2)
                Hd) as H.
  cbv zeta in H.
  assert (Hg : fst (_generate_mcp_config Example.env0 (fst s2, snd s2))
               = Ret tt) by (vm_compute; reflexivity).
  rewrite Hg in H. destruct H as (s' & H & _). exists s'.
  rewrite (surjective_pairing s2). exact H.
Defined.
